(** * Bulk labelling of catalog policies: identity keys, version diff,
      ledger and label reconciliation

    A shallow embedding of the Python scripts
      - [Step_2_Fetch_Policy_Details.py]      (modules [Fetch], [FetchDetails]),
      - [Step_3_Sync_Policy_Labels.py]        (module [Sync]),
      - [Step_3_Sync_Recon_Policy_Labels.py]  (module [Recon]),
    together with the fragment of the Python runtime they rely on (module
    [Py]) and [hashlib.md5] (module [MD5]).

    Conventions.
    - A value decoded from a JSON response is a [json]; a Python [dict]
      obtained from JSON is an association list in insertion order, read
      with [d.get(k, default)].
    - A Python [str] is a [string] holding its UTF-8 bytes, so that
      [s.encode()] is the identity.  [repr] escapes the characters below
      U+0100 as Python does; a character from U+0100 on is taken to be
      printable (whether it is depends on the Unicode tables of the
      interpreter), so that [repr] shows it as it is.
    - JSON numbers are integers ([Z]); floating point is outside the model.
    - A computation that may raise is an [option]: [None] stands for an
      exception escaping the function ([AttributeError], [TypeError], ...).
    - A [set] or [dict] keyed by hashable JSON scalars is a [gset hkey] or a
      [gmap hkey _], where [hkey] identifies [True] with [1] and [False] with
      [0] as Python's [==] and [hash] do.
    - The service is a function from requests to outcomes
      ([Sync.http_outcome]); a [while True] loop is run for a bounded number
      of rounds and tells whether it returned, raised or is still running
      ([Sync.run]).
    - A CSV file is the list of its rows; writing a cell and reading it back
      gives the text of the cell ([FetchDetails.csv_cell]). *)

From Stdlib Require Import ZArith String Ascii List.
From stdpp Require Import base option list gmap strings pretty.

Set Warnings "-register-all,-clear-no-such-hyp".

Open Scope string_scope.
Open Scope Z_scope.

(** ** The Python fragment *)

Module Py.

Inductive json : Type :=
  | JNull
  | JBool (b : bool)
  | JNum (n : Z)
  | JStr (s : string)
  | JArr (xs : list json)
  | JObj (kvs : list (string * json)).

(** [json.loads] maps [null] to [None], so [JNull] is also Python's [None]. *)
Definition PyNone : json := JNull.

(** Truth value testing: [None], [False], [0], [""], [[]] and [{}] are
    false, everything else is true. *)
Definition truthy (v : json) : bool :=
  match v with
  | JNull => false
  | JBool b => b
  | JNum n => negb (n =? 0)
  | JStr s => negb (String.eqb s "")
  | JArr xs => match xs with [] => false | _ => true end
  | JObj kvs => match kvs with [] => false | _ => true end
  end.

(** [x or y] *)
Definition py_or (x y : json) : json := if truthy x then x else y.

(** [v == "literal"] for a string literal. *)
Definition eq_str (v : json) (lit : string) : bool :=
  match v with
  | JStr s => String.eqb s lit
  | _ => false
  end.

(** *** Dictionaries decoded from JSON *)

Fixpoint assoc (k : string) (kvs : list (string * json)) : option json :=
  match kvs with
  | [] => None
  | (k', v) :: rest => if String.eqb k k' then Some v else assoc k rest
  end.

#[global] Arguments assoc : simpl never.

(** [d.get(k, dflt)]; [AttributeError] when [d] is not a dict. *)
Definition get (d : json) (k : string) (dflt : json) : option json :=
  match d with
  | JObj kvs => Some (default dflt (assoc k kvs))
  | _ => None
  end.

(** [d[k] = v] on a dict: the value is replaced in place when the key is
    there, and the pair is added at the end otherwise. *)
Fixpoint setitem (k : string) (v : json) (kvs : list (string * json))
  : list (string * json) :=
  match kvs with
  | [] => [(k, v)]
  | (k', v') :: rest =>
      if String.eqb k k' then (k', v) :: rest else (k', v') :: setitem k v rest
  end.

(** *** Iteration *)

Fixpoint chars (s : string) : list json :=
  match s with
  | EmptyString => []
  | String c rest => JStr (String c EmptyString) :: chars rest
  end.

(** [for x in v]: a list yields its elements, a dict its keys, a string its
    characters (here: its bytes); [TypeError] for [None], booleans and
    numbers. *)
Definition iter (v : json) : option (list json) :=
  match v with
  | JArr xs => Some xs
  | JObj kvs => Some (map (λ kv, JStr kv.1) kvs)
  | JStr s => Some (chars s)
  | _ => None
  end.

(** [xs.append(x)]; [AttributeError] unless [xs] is a list. *)
Definition append (xs x : json) : option json :=
  match xs with
  | JArr l => Some (JArr (l ++ [x]))
  | _ => None
  end.

(** [for x in xs: st = body(st, x)], stopping at the first exception. *)
Fixpoint for_each {S A : Type} (body : S → A → option S) (st : S)
    (xs : list A) : option S :=
  match xs with
  | [] => Some st
  | x :: rest => st' ← body st x; for_each body st' rest
  end.

(** *** [str()] and [repr()] *)

Definition hex_digit (n : Z) : ascii :=
  ascii_of_N (Z.to_N (if n <? 10 then 48 + n else 87 + n)).

Definition byte_of (c : ascii) : Z := Z.of_N (N_of_ascii c).

Fixpoint occurs (c : ascii) (s : string) : bool :=
  match s with
  | EmptyString => false
  | String c' rest => Ascii.eqb c c' || occurs c rest
  end.

(** The escape [\xNN] of the code point [n], in lowercase hexadecimal. *)
Definition hex_escape (n : Z) : string :=
  String "\"%char (String "x"%char
    (String (hex_digit (n / 16)) (String (hex_digit (n mod 16)) ""))).

(** The code points from U+0080 to U+00FF that [str.isprintable] rejects:
    the C1 controls, the no-break space and the soft hyphen.  In UTF-8 each
    is the byte [0xC2] followed by the code point itself. *)
Definition latin1_escaped (m : Z) : bool :=
  ((128 <=? m) && (m <=? 160)) || (m =? 173).

(** The body of [repr(s)] between quotes [q]: backslash, the quote, the
    control characters and the characters below U+0100 that are not
    printable are escaped; the other bytes of multi-byte UTF-8 sequences
    are copied (printable non-ASCII text is shown as it is). *)
Fixpoint repr_chars (q : ascii) (s : string) : string :=
  match s with
  | EmptyString => ""
  | String c rest =>
      let n := byte_of c in
      let one :=
        (if Ascii.eqb c "\"%char then "\\"
         else if Ascii.eqb c q then String "\"%char (String q "")
         else if n =? 10 then "\n"
         else if n =? 13 then "\r"
         else if n =? 9 then "\t"
         else if (n <? 32) || (n =? 127) then hex_escape n
         else String c "") +:+ repr_chars q rest in
      match rest with
      | String d rest' =>
          if (n =? 194) && latin1_escaped (byte_of d)
          then hex_escape (byte_of d) +:+ repr_chars q rest'
          else one
      | EmptyString => one
      end
  end.

Definition squote : ascii := "'"%char.
Definition dquote : ascii := ascii_of_N 34.

(** [repr] of a string: single quotes, unless the text has a single quote
    and no double quote. *)
Definition repr_str (s : string) : string :=
  let q := if occurs squote s && negb (occurs dquote s) then dquote else squote in
  String q (repr_chars q s) +:+ String q "".

Fixpoint join (sep : string) (parts : list string) : string :=
  match parts with
  | [] => ""
  | [p] => p
  | p :: rest => p +:+ sep +:+ join sep rest
  end.

Fixpoint repr (v : json) : string :=
  match v with
  | JNull => "None"
  | JBool true => "True"
  | JBool false => "False"
  | JNum n => pretty n
  | JStr s => repr_str s
  | JArr xs => "[" +:+ join ", " (map repr xs) +:+ "]"
  | JObj kvs =>
      "{" +:+ join ", " (map (λ kv, let '(k, x) := kv in
                                      repr_str k +:+ ": " +:+ repr x) kvs)
          +:+ "}"
  end.

(** [str(v)], also what an f-string substitutes for [{v}]. *)
Definition str (v : json) : string :=
  match v with
  | JStr s => s
  | _ => repr v
  end.

(** *** Hashable keys *)

Inductive hkey : Type :=
  | HNone
  | HNum (n : Z)
  | HStr (s : string).

#[global] Instance hkey_eq_dec : EqDecision hkey.
Proof. solve_decision. Defined.

#[global] Instance hkey_countable : Countable hkey.
Proof.
  refine (inj_countable'
    (λ k, match k with
          | HNone => inl ()
          | HNum n => inr (inl n)
          | HStr s => inr (inr s)
          end)
    (λ x, match x with
          | inl _ => HNone
          | inr (inl n) => HNum n
          | inr (inr s) => HStr s
          end) _).
  by intros [].
Defined.

(** [hash(v)]: lists and dicts are unhashable ([TypeError]). *)
Definition to_hkey (v : json) : option hkey :=
  match v with
  | JNull => Some HNone
  | JBool b => Some (HNum (if b then 1 else 0))
  | JNum n => Some (HNum n)
  | JStr s => Some (HStr s)
  | JArr _ | JObj _ => None
  end.

(** [v in s] for a set [s]. *)
Definition in_set (v : json) (s : gset hkey) : option bool :=
  k ← to_hkey v; Some (bool_decide (k ∈ s)).

(** [s.add(v)] *)
Definition set_add (v : json) (s : gset hkey) : option (gset hkey) :=
  k ← to_hkey v; Some ({[k]} ∪ s).

(** [k in d] and [d[k]] for a dict [d] keyed by hashable values. *)
Definition in_dict {V : Type} (v : json) (d : gmap hkey V) : option bool :=
  k ← to_hkey v; Some (bool_decide (is_Some (d !! k))).

Definition getitem {V : Type} (d : gmap hkey V) (v : json) : option V :=
  k ← to_hkey v; d !! k.

End Py.

Import Py.

(** ** [hashlib.md5] (RFC 1321) on byte strings *)

Module MD5.

Definition w32 (x : Z) : Z := x mod 2 ^ 32.

Definition rotl (x n : Z) : Z :=
  w32 (Z.lor (Z.shiftl x n) (Z.shiftr x (32 - n))).

Definition not32 (x : Z) : Z := Z.lxor x 4294967295.

(** The sine table [floor(2^32 * |sin(i + 1)|)]. *)
Definition K : list Z :=
  [3614090360; 3905402710; 606105819; 3250441966; 4118548399; 1200080426;
   2821735955; 4249261313; 1770035416; 2336552879; 4294925233; 2304563134;
   1804603682; 4254626195; 2792965006; 1236535329; 4129170786; 3225465664;
   643717713; 3921069994; 3593408605; 38016083; 3634488961; 3889429448;
   568446438; 3275163606; 4107603335; 1163531501; 2850285829; 4243563512;
   1735328473; 2368359562; 4294588738; 2272392833; 1839030562; 4259657740;
   2763975236; 1272893353; 4139469664; 3200236656; 681279174; 3936430074;
   3572445317; 76029189; 3654602809; 3873151461; 530742520; 3299628645;
   4096336452; 1126891415; 2878612391; 4237533241; 1700485571; 2399980690;
   4293915773; 2240044497; 1873313359; 4264355552; 2734768916; 1309151649;
   4149444226; 3174756917; 718787259; 3951481745].

(** Per-round shift amounts. *)
Definition shifts : list Z :=
  [7; 12; 17; 22; 7; 12; 17; 22; 7; 12; 17; 22; 7; 12; 17; 22;
   5; 9; 14; 20; 5; 9; 14; 20; 5; 9; 14; 20; 5; 9; 14; 20;
   4; 11; 16; 23; 4; 11; 16; 23; 4; 11; 16; 23; 4; 11; 16; 23;
   6; 10; 15; 21; 6; 10; 15; 21; 6; 10; 15; 21; 6; 10; 15; 21].

Record digest_state := DS { sa : Z; sb : Z; sc : Z; sd : Z }.

Definition init : digest_state :=
  DS 1732584193 4023233417 2562383102 271733878.

(** One of the 64 operations on the block [m] of sixteen 32-bit words. *)
Definition operation (m : list Z) (st : digest_state) (i : nat) : digest_state :=
  let '(DS a b c d) := st in
  let iz := Z.of_nat i in
  let '(f, g) :=
    if iz <? 16 then (Z.lor (Z.land b c) (Z.land (not32 b) d), iz)
    else if iz <? 32 then
      (Z.lor (Z.land d b) (Z.land (not32 d) c), (5 * iz + 1) mod 16)
    else if iz <? 48 then (Z.lxor b (Z.lxor c d), (3 * iz + 5) mod 16)
    else (Z.lxor c (Z.lor b (not32 d)), (7 * iz) mod 16) in
  let f' := w32 (f + a + nth i K 0 + nth (Z.to_nat g) m 0) in
  DS d (w32 (b + rotl f' (nth i shifts 0))) b c.

Definition compress (st : digest_state) (m : list Z) : digest_state :=
  let '(DS a b c d) := fold_left (operation m) (seq 0 64) st in
  DS (w32 (sa st + a)) (w32 (sb st + b)) (w32 (sc st + c)) (w32 (sd st + d)).

(** Little-endian encoding of [x] on [n] bytes, and decoding. *)
Fixpoint le_bytes (n : nat) (x : Z) : list Z :=
  match n with
  | O => []
  | S n' => x mod 256 :: le_bytes n' (x / 256)
  end.

Fixpoint le_word (bs : list Z) : Z :=
  match bs with
  | [] => 0
  | b :: rest => b + 256 * le_word rest
  end.

Fixpoint words (n : nat) (bs : list Z) : list Z :=
  match n with
  | O => []
  | S n' => le_word (take 4 bs) :: words n' (drop 4 bs)
  end.

Fixpoint blocks (n : nat) (bs : list Z) : list (list Z) :=
  match n with
  | O => []
  | S n' => words 16 (take 64 bs) :: blocks n' (drop 64 bs)
  end.

Fixpoint bytes_of_string (s : string) : list Z :=
  match s with
  | EmptyString => []
  | String c rest => byte_of c :: bytes_of_string rest
  end.

(** Padding: a 1 bit, zeros up to 56 mod 64, then the bit length on 64 bits. *)
Definition pad (bs : list Z) : list Z :=
  let len := Z.of_nat (length bs) in
  bs ++ [128] ++ repeat 0 (Z.to_nat ((55 - len) mod 64))
     ++ le_bytes 8 ((8 * len) mod 2 ^ 64).

Definition hex_byte (b : Z) : string :=
  String (hex_digit (b / 16)) (String (hex_digit (b mod 16)) "").

Definition hexdigest (s : string) : string :=
  let padded := pad (bytes_of_string s) in
  let '(DS a b c d) :=
    fold_left compress (blocks (length padded / 64) padded) init in
  String.concat ""
    (map hex_byte (le_bytes 4 a ++ le_bytes 4 b ++ le_bytes 4 c ++ le_bytes 4 d)).

End MD5.

(** A dict display [{"k1": e1, "k2": e2, ...}] whose value expressions may
    raise: the values are evaluated in order. *)
Definition dict_of (fields : list (string * option json)) : option json :=
  JObj <$> mapM (λ kv, v ← kv.2; Some (kv.1, v)) fields.

(** ** [Step_2_Fetch_Policy_Details.py]: harvesting of version 1 *)

Module Fetch.

Definition compute_hash (expression : json) : option string :=
  if negb (truthy expression) then Some "empty"
  else match expression with
       | JStr s => Some (String.substring 0 8 (MD5.hexdigest s))
       | _ => None
       end.

Definition get_column_name (item : json) : option json :=
  measurement_type ← get item "measurementType" (JStr "");
  column_name ← get item "columnName" (JStr "");
  if eq_str measurement_type "CUSTOM" then
    rule_expression ← get item "ruleExpression" (JStr "");
    expr_hash ← compute_hash rule_expression;
    Some (JStr ("CUSTOM-" +:+ expr_hash))
  else if eq_str measurement_type "SQL_METRIC" then
    rule_expression ← get item "ruleExpression" (JStr "");
    expr_hash ← compute_hash rule_expression;
    Some (JStr ("SQL_METRIC-" +:+ expr_hash))
  else if eq_str measurement_type "UDF_PREDICATE" then
    value ← get item "value" (JObj []);
    udf_id ← (if truthy value then get value "udfId" (JStr "unknown")
              else Some (JStr "unknown"));
    Some (JStr ("UDF_PREDICATE-" +:+ str udf_id))
  else if eq_str measurement_type "SIZE_CHECK" then
    Some (JStr "SIZE_CHECK")
  else
    Some column_name.

End Fetch.

(** ** [Step_3_Sync_Policy_Labels.py]: quality-rule policies *)

Module Sync.

Definition compute_hash (expression : json) : option string :=
  if negb (truthy expression) then Some "empty"
  else match expression with
       | JStr s => Some (String.substring 0 8 (MD5.hexdigest s))
       | _ => None
       end.

Definition get_column_name (item : json) : option json :=
  measurement_type ← get item "measurementType" (JStr "");
  column_name ← get item "columnName" (JStr "");
  if eq_str measurement_type "CUSTOM" then
    rule_expression ← get item "ruleExpression" (JStr "");
    expr_hash ← compute_hash rule_expression;
    Some (JStr ("CUSTOM-" +:+ expr_hash))
  else if eq_str measurement_type "SQL_METRIC" then
    rule_expression ← get item "ruleExpression" (JStr "");
    expr_hash ← compute_hash rule_expression;
    Some (JStr ("SQL_METRIC-" +:+ expr_hash))
  else if eq_str measurement_type "UDF_PREDICATE" then
    value ← get item "value" (JObj []);
    udf_id ← (if truthy value then get value "udfId" (JStr "unknown")
              else Some (JStr "unknown"));
    Some (JStr ("UDF_PREDICATE-" +:+ str udf_id))
  else if eq_str measurement_type "SIZE_CHECK" then
    Some (JStr "SIZE_CHECK")
  else if truthy column_name && truthy measurement_type then
    Some (JStr (str measurement_type +:+ "-" +:+ str column_name))
  else if truthy column_name then
    Some column_name
  else
    Some (py_or measurement_type (JStr "UNKNOWN")).

(** *** Part 1: version comparison *)

(** The outcome of [session.get(url)]: a response with its status and its
    decoded body ([None] when decoding raises), or an exception. *)
Inductive http_outcome : Type :=
  | Responded (status : Z) (body : option json)
  | Failed.

(** [fetch_policy_version]: the JSON body on status 200, [None] otherwise;
    every exception is caught. *)
Definition fetch_policy_version (outcome : http_outcome) : json :=
  match outcome with
  | Responded status body =>
      if status =? 200 then default PyNone body else PyNone
  | Failed => PyNone
  end.

Record items_info := mk_info {
  column_names : gset hkey;
  custom_expressions : gset hkey;
  sql_metric_expressions : gset hkey;
  udf_predicate_ids : gset hkey;
  has_size_check : bool;
  items : json
}.

(** Body of the loop of [extract_items_info]. *)
Definition extract_item (info : items_info) (item : json) : option items_info :=
  let '(mk_info cols customs sqls udfs size its) := info in
  measurement_type ← get item "measurementType" (JStr "");
  column_name ← get item "columnName" (JStr "");
  rule_expression ← get item "ruleExpression" (JStr "");
  if eq_str measurement_type "CUSTOM" then
    if truthy rule_expression then
      customs' ← set_add rule_expression customs;
      Some (mk_info cols customs' sqls udfs size its)
    else Some info
  else if eq_str measurement_type "SQL_METRIC" then
    if truthy rule_expression then
      sqls' ← set_add rule_expression sqls;
      Some (mk_info cols customs sqls' udfs size its)
    else Some info
  else if eq_str measurement_type "UDF_PREDICATE" then
    value ← get item "value" (JObj []);
    if truthy value then
      udf_id ← get value "udfId" PyNone;
      if truthy udf_id then
        udfs' ← set_add udf_id udfs;
        Some (mk_info cols customs sqls udfs' size its)
      else Some info
    else Some info
  else if eq_str measurement_type "SIZE_CHECK" then
    Some (mk_info cols customs sqls udfs true its)
  else
    if truthy column_name then
      cols' ← set_add column_name cols;
      Some (mk_info cols' customs sqls udfs size its)
    else Some info.

Definition extract_items_info (data : json) : option items_info :=
  details ← get data "details" (JObj []);
  items ← get details "items" (JArr []);
  item_list ← iter items;
  for_each extract_item (mk_info ∅ ∅ ∅ ∅ false items) item_list.

(** A row of [Policy_Rule_Details.csv] produced by the diff. *)
Record rule_row := mk_row {
  Policy_ID : string;
  Policy_Name : json;
  Rule_ID : json;
  Rule_Type : json;
  Column_Name : json
}.

(** The value of [is_new] for one item of the latest version. *)
Definition is_new_rule (v1_info : items_info) (item : json) : option bool :=
  measurement_type ← get item "measurementType" (JStr "");
  column_name ← get item "columnName" (JStr "");
  rule_expression ← get item "ruleExpression" (JStr "");
  if eq_str measurement_type "CUSTOM" then
    seen ← (if truthy rule_expression
            then in_set rule_expression (custom_expressions v1_info)
            else Some true);
    if truthy rule_expression && negb seen then Some true
    else if bool_decide (custom_expressions v1_info = ∅)
            && truthy rule_expression then Some true
    else Some false
  else if eq_str measurement_type "SQL_METRIC" then
    seen ← (if truthy rule_expression
            then in_set rule_expression (sql_metric_expressions v1_info)
            else Some true);
    Some (truthy rule_expression && negb seen)
  else if eq_str measurement_type "UDF_PREDICATE" then
    value ← get item "value" (JObj []);
    if truthy value then
      udf_id ← get value "udfId" PyNone;
      seen ← (if truthy udf_id
              then in_set udf_id (udf_predicate_ids v1_info)
              else Some true);
      Some (truthy udf_id && negb seen)
    else Some false
  else if eq_str measurement_type "SIZE_CHECK" then
    Some (negb (has_size_check v1_info))
  else
    seen ← (if truthy column_name
            then in_set column_name (column_names v1_info)
            else Some true);
    Some (truthy column_name && negb seen).

(** Body of the loop of [find_new_rules]. *)
Definition find_new_rule (v1_info : items_info) (policy_id : string)
    (policy_name : json) (new_rules : list rule_row) (item : json)
  : option (list rule_row) :=
  measurement_type ← get item "measurementType" (JStr "");
  rule_id ← get item "id" PyNone;
  is_new ← is_new_rule v1_info item;
  if (is_new : bool) then
    key ← get_column_name item;
    Some (new_rules ++ [mk_row policy_id policy_name rule_id measurement_type key])%list
  else Some new_rules.

Definition find_new_rules (v1_info latest_info : items_info)
    (policy_id : string) (policy_name : json) : option (list rule_row) :=
  latest_items ← iter (items latest_info);
  for_each (find_new_rule v1_info policy_id policy_name) [] latest_items.

(** *** Part 2: labels *)

(** [{label.get("key") for label in existing_labels if label.get("key")}] *)
Definition label_key_set (existing_labels : json) : option (gset hkey) :=
  labels ← iter existing_labels;
  for_each (λ keys label,
              k ← get label "key" PyNone;
              if truthy k then set_add k keys else Some keys) ∅ labels.

(** [[l.get("key") for l in existing_labels if l.get("key")]] *)
Definition label_key_list (existing_labels : json) : option (list json) :=
  labels ← iter existing_labels;
  for_each (λ keys l,
              k ← get l "key" PyNone;
              if truthy k then Some (keys ++ [k])%list else Some keys) [] labels.

(** [[{"key": l.get("key"), "value": l.get("value")} for l in existing_labels]] *)
Definition key_value_labels (existing_labels : json) : option (list json) :=
  labels ← iter existing_labels;
  mapM (λ l, dict_of [("key", get l "key" PyNone);
                      ("value", get l "value" PyNone)]) labels.

(** The accumulators of the loop of [build_update_payload]. *)
Record build_state := mk_build {
  labels_added : list json;
  labels_skipped : list json;
  labels_removed : list json;
  updated_items : list json
}.

(** The [if OVERRIDE_LABELS: ... else: ...] block of the loop body: the
    labels of the item and the accumulators after it. [OVERRIDE_LABELS] is the
    module-level flag read from the environment. *)
Definition relabel (OVERRIDE_LABELS : bool) (label_mappings : gmap hkey json)
    (item_column_key existing_labels : json) (existing_label_keys : gset hkey)
    (added skipped removed : list json)
  : option (json * list json * list json * list json) :=
  if OVERRIDE_LABELS then
    removed ← (if truthy existing_labels
               then ks ← label_key_list existing_labels;
                    Some (removed ++ ks)%list
               else Some removed);
    let existing_labels := JArr [] in
    present ← in_dict item_column_key label_mappings;
    if (present : bool) then
      rule_id ← getitem label_mappings item_column_key;
      let new_label := JObj [("key", item_column_key);
                             ("value", JStr (str rule_id))] in
      existing_labels ← append existing_labels new_label;
      Some (existing_labels, (added ++ [item_column_key])%list, skipped, removed)
    else Some (existing_labels, added, skipped, removed)
  else
    present ← in_dict item_column_key label_mappings;
    if (present : bool) then
      rule_id ← getitem label_mappings item_column_key;
      present_on_item ← in_set item_column_key existing_label_keys;
      if (present_on_item : bool) then
        Some (existing_labels, added, (skipped ++ [item_column_key])%list, removed)
      else
        let new_label := JObj [("key", item_column_key);
                               ("value", JStr (str rule_id))] in
        existing_labels ← append existing_labels new_label;
        Some (existing_labels, (added ++ [item_column_key])%list, skipped, removed)
    else Some (existing_labels, added, skipped, removed).

(** Body of the loop of [build_update_payload]. *)
Definition update_item (OVERRIDE_LABELS : bool) (label_mappings : gmap hkey json)
    (st : build_state) (item : json) : option build_state :=
  let '(mk_build added skipped removed updated) := st in
  item_column_key ← get_column_name item;
  existing_labels ← get item "labels" (JArr []);
  existing_label_keys ← label_key_set existing_labels;
  '(existing_labels, added, skipped, removed) ←
    relabel OVERRIDE_LABELS label_mappings item_column_key existing_labels
            existing_label_keys added skipped removed;
  labels ← key_value_labels existing_labels;
  updated_item ← dict_of [
    ("measurementType", get item "measurementType" PyNone);
    ("columnName", get item "columnName" (JStr ""));
    ("executionOrder", get item "executionOrder" PyNone);
    ("weightage", get item "weightage" PyNone);
    ("businessExplanation", get item "businessExplanation" (JStr ""));
    ("labels", Some (JArr labels));
    ("isWarning", get item "isWarning" (JBool false));
    ("associatedDQRecommendationId", get item "associatedDQRecommendationId" PyNone);
    ("bulkPolicyDqRuleId", get item "bulkPolicyDqRuleId" PyNone);
    ("thresholdConfig", get item "thresholdConfig" PyNone);
    ("value", get item "value" PyNone);
    ("id", get item "id" PyNone)
  ];
  rule_expression ← get item "ruleExpression" PyNone;
  updated_item ←
    (if truthy rule_expression
     then match updated_item with
          | JObj kvs => Some (JObj (setitem "ruleExpression" rule_expression kvs))
          | _ => None
          end
     else Some updated_item);
  Some (mk_build added skipped removed (updated ++ [updated_item])).

Definition build_update_payload (OVERRIDE_LABELS : bool) (policy_data : json)
    (label_mappings : gmap hkey json) : option (json * list json * list json) :=
  rule ← get policy_data "rule" (JObj []);
  details ← get policy_data "details" (JObj []);
  items ← get details "items" (JArr []);
  item_list ← iter items;
  st ← for_each (update_item OVERRIDE_LABELS label_mappings)
                (mk_build [] [] [] []) item_list;
  backing_asset ← (λ v, py_or v (JObj [])) <$> get rule "backingAsset" PyNone;
  notification_channels ←
    (λ v, py_or v (JObj [])) <$> get rule "notificationChannels" PyNone;
  payload ← dict_of [
    ("rule", dict_of [
      ("subType", get rule "subType" (JStr "ASSET"));
      ("enabled", get rule "enabled" (JBool true));
      ("name", get rule "name" PyNone);
      ("description", get rule "description" PyNone);
      ("schedule", get rule "schedule" (JStr ""));
      ("executionTimeoutInMinutes", get rule "executionTimeoutInMinutes" PyNone);
      ("totalExecutionTimeoutInMinutes",
         get rule "totalExecutionTimeoutInMinutes" PyNone);
      ("analyticsPipelineId", Some PyNone);
      ("scheduleType", Some (JStr "RECENT"));
      ("jobSchedule", get rule "jobSchedule" PyNone);
      ("segments", get rule "segments" (JArr []));
      ("customSqlConfig", get rule "customSqlConfig" PyNone);
      ("policyScoreStrategy", get rule "policyScoreStrategy" (JStr "WEIGHTAGE"));
      ("thresholdLevel",
         get rule "thresholdLevel"
           (JObj [("success", JNum 100); ("warning", JNum 70)]));
      ("id", get rule "id" PyNone);
      ("includeInQualityScore", get rule "includeInQualityScore" (JBool true));
      ("type", get rule "type" (JStr "DATA_QUALITY"));
      ("scheduled", get rule "scheduled" (JBool false));
      ("backingAsset", dict_of [
        ("tableAssetId", get backing_asset "tableAssetId" PyNone);
        ("id", get backing_asset "id" PyNone)
      ]);
      ("notificationChannels", dict_of [
        ("configuredNotificationGroupIds",
           get notification_channels "configuredNotificationGroupIds" (JArr []));
        ("notifyOn", get notification_channels "notifyOn" (JArr []));
        ("notifyOnSuccess",
           get notification_channels "notifyOnSuccess" (JBool false));
        ("severity", get notification_channels "severity" (JStr "CRITICAL"));
        ("alertsEnabled", get notification_channels "alertsEnabled" (JBool true));
        ("reNotifyFactor", get notification_channels "reNotifyFactor" (JNum 0));
        ("notifyOnWarning",
           get notification_channels "notifyOnWarning" (JBool false));
        ("notificationEnabled", Some (JBool true))
      ]);
      ("sparkResourceConfig", get rule "sparkResourceConfig" PyNone);
      ("policyGroups", get rule "policyGroups" (JArr []));
      ("labels", get rule "labels" (JArr []));
      ("tags", get rule "tags" (JArr []));
      ("additionalPersistedColumns",
         get rule "additionalPersistedColumns" (JArr []));
      ("filter", get rule "filter" PyNone);
      ("sparkSQLFilterType", get rule "sparkSQLFilterType" (JStr "STATIC"))
    ]);
    ("items", Some (JArr (updated_items st)));
    ("transformUDFs", get details "transformUDFs" (JArr []));
    ("engineType", get rule "engineType" (JStr "JDBC_SQL"))
  ];
  Some (payload, labels_added st, labels_skipped st).

(** *** The ledger file *)

(** A row of [Policy_Rule_Details.csv] as [csv.DictReader] yields it; a
    missing cell reads as the empty string (both are false). *)
Record csv_row := mk_csv {
  csv_Policy_ID : string;
  csv_Policy_Name : string;
  csv_Rule_ID : string;
  csv_Rule_Type : string;
  csv_Column_Name : string
}.

Definition nonempty (s : string) : bool := negb (String.eqb s "").

(** The ledger held by [main]: the rows appended in this run, the set of
    known rule ids, and [policy_labels : policy id -> (key -> rule id)]. *)
Record ledger := mk_ledger {
  new_rules_added : list rule_row;
  existing_rule_ids : gset string;
  policy_labels : gmap string (gmap hkey json)
}.

(** [policy_labels[pid][key] = value] on the [defaultdict(dict)]. *)
Definition set_label (pid : string) (key : hkey) (value : json)
    (labels : gmap string (gmap hkey json)) : gmap string (gmap hkey json) :=
  <[pid := <[key := value]> (default ∅ (labels !! pid))]> labels.

(** Body of the loop of [read_existing_csv]. *)
Definition read_row (acc : gset string * gmap string (gmap hkey json))
    (row : csv_row) : gset string * gmap string (gmap hkey json) :=
  let '(ids, labels) := acc in
  let rule_id := csv_Rule_ID row in
  let policy_id := csv_Policy_ID row in
  let column_name := csv_Column_Name row in
  let ids := if nonempty rule_id then {[rule_id]} ∪ ids else ids in
  let labels :=
    if nonempty policy_id && nonempty column_name && nonempty rule_id
    then set_label policy_id (HStr column_name) (JStr rule_id) labels
    else labels in
  (ids, labels).

Definition read_existing_csv (rows : list csv_row) : ledger :=
  let '(ids, labels) := fold_left read_row rows (∅, ∅) in
  mk_ledger [] ids labels.

(** *** [main], step 1 *)

(** Body of [for rule in new_rules]. *)
Definition add_new_rule (pid : string) (st : ledger) (rule : rule_row)
  : option ledger :=
  let '(mk_ledger added ids labels) := st in
  if bool_decide (str (Rule_ID rule) ∉ ids) then
    key ← to_hkey (Column_Name rule);
    Some (mk_ledger (added ++ [rule])
                    ({[str (Rule_ID rule)]} ∪ ids)
                    (set_label pid key (Rule_ID rule) labels))
  else Some st.

Record policy_info := mk_policy {
  policy_id : string;
  version : Z;
  name : json
}.

(** Body of [for policy_info in policies_to_compare]; [net pid version] is
    the outcome of the request for that version of the policy. *)
Definition compare_policy (net : string → Z → http_outcome) (st : ledger)
    (info : policy_info) : option ledger :=
  let pid := policy_id info in
  let latest_version := version info in
  let policy_name := name info in
  let v1_data := fetch_policy_version (net pid 1) in
  let latest_data := fetch_policy_version (net pid latest_version) in
  if negb (truthy v1_data) || negb (truthy latest_data) then
    Some st
  else
    v1_info ← extract_items_info v1_data;
    latest_info ← extract_items_info latest_data;
    new_rules ← find_new_rules v1_info latest_info pid policy_name;
    for_each (add_new_rule pid) st new_rules.

Definition compare_policies (net : string → Z → http_outcome) (st : ledger)
    (policies_to_compare : list policy_info) : option ledger :=
  for_each (compare_policy net) st policies_to_compare.

(** *** [main]: the policies to compare *)

(** [get_unique_policy_ids] *)
Definition get_unique_policy_ids (rows : list csv_row) : gset string :=
  list_to_set (List.filter nonempty (map csv_Policy_ID rows)).

(** One request of [fetch_rules_with_versions]: [raise_for_status] raises on
    a status of 400 or more, decoding may raise, and nothing is caught. *)
Definition rules_page (outcome : http_outcome) : option json :=
  match outcome with
  | Responded status body => if 400 <=? status then None else body
  | Failed => None
  end.

(** A value of [policy_versions]: [{"version": ..., "name": ...}]. *)
Record version_info := mk_version {
  listed_version : json;
  listed_name : json
}.

(** Body of [for item in rules]. *)
Definition list_rule (policy_versions : gmap string version_info) (item : json)
  : option (gmap string version_info) :=
  rule ← get item "rule" (JObj []);
  rule_id ← get rule "id" PyNone;
  version ← get rule "version" (JNum 1);
  rule_name ← get rule "name" (JStr "");
  rule_type ← get rule "type" (JStr "");
  if truthy rule_id && eq_str rule_type "DATA_QUALITY" then
    Some (<[str rule_id := mk_version version rule_name]> policy_versions)
  else Some policy_versions.

(** The result of a [while True] loop run for a bounded number of rounds:
    it returned, an exception escaped, or it is still running. *)
Inductive run (A : Type) : Type :=
  | Returns (a : A)
  | Raises
  | Running.

Arguments Returns {A} a.
Arguments Raises {A}.
Arguments Running {A}.

(** The loop of [fetch_rules_with_versions] from page [page] on; [net page]
    is the outcome of the request for that page. *)
Fixpoint fetch_rules_from (rounds : nat) (net : nat → http_outcome) (page : nat)
    (policy_versions : gmap string version_info)
  : run (gmap string version_info) :=
  match rounds with
  | O => Running
  | S rounds =>
      match data ← rules_page (net page); get data "rules" (JArr []) with
      | None => Raises
      | Some rules =>
          if negb (truthy rules) then Returns policy_versions
          else
            match iter rules ≫= for_each list_rule policy_versions with
            | None => Raises
            | Some policy_versions =>
                fetch_rules_from rounds net (S page) policy_versions
            end
      end
  end.

Definition fetch_rules_with_versions (rounds : nat) (net : nat → http_outcome)
  : run (gmap string version_info) :=
  fetch_rules_from rounds net 0 ∅.

(** Body of [for pid in policy_ids]: [version_info["version"] > 1] raises
    [TypeError] unless the version is a number. *)
Definition select_policy (policy_versions : gmap string version_info)
    (policies_to_compare : list policy_info) (pid : string)
  : option (list policy_info) :=
  match policy_versions !! pid with
  | Some version_info =>
      match listed_version version_info with
      | JNum n =>
          if 1 <? n then
            Some (policies_to_compare
                    ++ [mk_policy pid n (listed_name version_info)])%list
          else Some policies_to_compare
      | JBool _ => Some policies_to_compare
      | _ => None
      end
  | None => Some policies_to_compare
  end.

(** The list [policies_to_compare] of [main]; [policy_ids] is the set of
    policy ids in the order in which the loop visits it. *)
Definition policies_to_compare (policy_versions : gmap string version_info)
    (policy_ids : list string) : option (list policy_info) :=
  for_each (select_policy policy_versions) [] policy_ids.

(** *** [main], step 2 *)

(** [fetch_policy]: the JSON body on status 200, [None] otherwise; every
    exception is caught. *)
Definition fetch_policy (outcome : http_outcome) : json :=
  match outcome with
  | Responded status body =>
      if status =? 200 then default PyNone body else PyNone
  | Failed => PyNone
  end.

(** [update_policy]: [True] on status 200, [False] otherwise; every
    exception is caught. *)
Definition update_policy (outcome : http_outcome) : bool :=
  match outcome with
  | Responded status _ => status =? 200
  | Failed => false
  end.

(** [', '.join(keys)]: [TypeError] unless every key is a string. *)
Definition join_keys (keys : list json) : option string :=
  join ", " <$> mapM (λ k, match k with JStr s => Some s | _ => None end) keys.

(** The counters of [main] and the PUT requests sent so far, oldest first. *)
Record totals := mk_totals {
  total_labels_added : nat;
  total_labels_skipped : nat;
  policies_updated : nat;
  put_requests : list (string * json)
}.

(** Body of [for policy_id, label_mappings in policy_labels.items()];
    [fetched pid] is the outcome of the GET for the policy and
    [stored pid payload] the outcome of the PUT. *)
Definition label_policy (OVERRIDE_LABELS : bool)
    (fetched : string → http_outcome) (stored : string → json → http_outcome)
    (st : totals) (entry : string * gmap hkey json) : option totals :=
  let '(policy_id, label_mappings) := entry in
  let '(mk_totals added_total skipped_total updated requests) := st in
  let policy_data := fetch_policy (fetched policy_id) in
  if negb (truthy policy_data) then Some st
  else
    rule ← get policy_data "rule" (JObj []);
    policy_name ← get rule "name" (JStr "Unknown");
    '(payload, labels_added, labels_skipped) ←
      build_update_payload OVERRIDE_LABELS policy_data label_mappings;
    skipped_total ←
      (if bool_decide (labels_skipped ≠ []) then
         _ ← join_keys labels_skipped;
         Some (skipped_total + length labels_skipped)%nat
       else Some skipped_total);
    if bool_decide (labels_added = []) then
      Some (mk_totals added_total skipped_total updated requests)
    else
      _ ← join_keys labels_added;
      let success := update_policy (stored policy_id payload) in
      let requests := (requests ++ [(policy_id, payload)])%list in
      if success then
        Some (mk_totals (added_total + length labels_added)%nat skipped_total
                        (S updated) requests)
      else Some (mk_totals added_total skipped_total updated requests).

(** The loop of step 2 over the items of [policy_labels] in the order of the
    dict. *)
Definition label_policies (OVERRIDE_LABELS : bool)
    (fetched : string → http_outcome) (stored : string → json → http_outcome)
    (st : totals) (entries : list (string * gmap hkey json)) : option totals :=
  for_each (label_policy OVERRIDE_LABELS fetched stored) st entries.


End Sync.

(** ** [Step_3_Sync_Recon_Policy_Labels.py]: reconciliation policies *)

Module Recon.

Definition get_column_key (left_col right_col : json) : string :=
  str left_col +:+ "_" +:+ str right_col.

(** *** Part 1: version comparison *)

Definition fetch_policy_version (outcome : Sync.http_outcome) : json :=
  match outcome with
  | Sync.Responded status body =>
      if status =? 200 then default PyNone body else PyNone
  | Sync.Failed => PyNone
  end.

Record mappings_info := mk_info {
  mapping_keys : gset string;
  mappings : json;
  recon_type : json
}.

(** [items[0]] for a true value [items]: only a non-empty list has an
    element at index 0 that is a dict. *)
Definition first_item (items : json) : option json :=
  match items with
  | JArr (x :: _) => Some x
  | JStr (String c _) => Some (JStr (String c ""))
  | _ => None
  end.

Definition extract_mapping (keys : gset string) (mapping : json)
  : option (gset string) :=
  left_col ← get mapping "leftColumnName" (JStr "");
  right_col ← get mapping "rightColumnName" (JStr "");
  if truthy left_col && truthy right_col then
    let key := get_column_key left_col right_col in
    Some ({[key]} ∪ keys)
  else Some keys.

Definition extract_mappings_info (data : json) : option mappings_info :=
  details ← get data "details" (JObj []);
  column_mappings ← get details "columnMappings" (JArr []);
  items ← get details "items" (JArr []);
  recon_type ← (if truthy items
                then first ← first_item items; get first "measurementType" (JStr "")
                else Some (JStr "EQUALITY"));
  mapping_list ← iter column_mappings;
  keys ← for_each extract_mapping ∅ mapping_list;
  Some (mk_info keys column_mappings recon_type).

(** A row of [Recon_Policy_Rule_Details.csv] produced by the diff. *)
Record mapping_row := mk_row {
  Policy_ID : string;
  Policy_Name : json;
  Rule_ID : json;
  Recon_Type : json;
  Left_Column_Name : json;
  Right_Column_Name : json
}.

(** Body of the loop of [find_new_mappings]. *)
Definition find_new_mapping (v1_info : mappings_info) (recon_type : json)
    (policy_id : string) (policy_name : json)
    (new_mappings : list mapping_row) (mapping : json)
  : option (list mapping_row) :=
  left_col ← get mapping "leftColumnName" (JStr "");
  right_col ← get mapping "rightColumnName" (JStr "");
  mapping_id ← get mapping "id" PyNone;
  if truthy left_col && truthy right_col then
    let key := get_column_key left_col right_col in
    if bool_decide (key ∉ mapping_keys v1_info) then
      Some (new_mappings ++
              [mk_row policy_id policy_name mapping_id recon_type left_col right_col])%list
    else Some new_mappings
  else Some new_mappings.

Definition find_new_mappings (v1_info latest_info : mappings_info)
    (policy_id : string) (policy_name : json) : option (list mapping_row) :=
  latest_mappings ← iter (mappings latest_info);
  for_each (find_new_mapping v1_info (recon_type latest_info) policy_id policy_name)
           [] latest_mappings.

(** *** Part 2: labels *)

Record build_state := mk_build {
  labels_added : list string;
  labels_skipped : list string;
  updated_mappings : list json
}.

(** The [if mapping_key in label_mappings: ...] block of the first loop:
    the labels of the mapping and the accumulators after it. *)
Definition relabel (label_mappings : gmap string json) (mapping_key : string)
    (existing_labels : json) (existing_label_keys : gset hkey)
    (added skipped : list string) : option (json * list string * list string) :=
  match label_mappings !! mapping_key with
  | Some original_rule_id =>
      if bool_decide (HStr mapping_key ∈ existing_label_keys) then
        Some (existing_labels, added, (skipped ++ [mapping_key])%list)
      else
        let new_label := JObj [("key", JStr mapping_key);
                               ("value", JStr (str original_rule_id))] in
        existing_labels ← append existing_labels new_label;
        Some (existing_labels, (added ++ [mapping_key])%list, skipped)
  | None => Some (existing_labels, added, skipped)
  end.

(** Body of the first loop of [build_update_payload]. *)
Definition update_mapping (label_mappings : gmap string json)
    (st : build_state) (mapping : json) : option build_state :=
  let '(mk_build added skipped updated) := st in
  left_col ← get mapping "leftColumnName" (JStr "");
  right_col ← get mapping "rightColumnName" (JStr "");
  let mapping_key := get_column_key left_col right_col in
  existing_labels ← get mapping "labels" (JArr []);
  existing_label_keys ← Sync.label_key_set existing_labels;
  '(existing_labels, added, skipped) ←
    relabel label_mappings mapping_key existing_labels existing_label_keys
            added skipped;
  labels ← Sync.key_value_labels existing_labels;
  updated_mapping ← dict_of [
    ("id", get mapping "id" PyNone);
    ("leftColumnName", Some left_col);
    ("operation", get mapping "operation" (JStr "EQ"));
    ("rightColumnName", Some right_col);
    ("useForJoining", get mapping "useForJoining" (JBool false));
    ("reconciliationRuleId", get mapping "reconciliationRuleId" PyNone);
    ("isJoinColumnUsedForMeasure",
       get mapping "isJoinColumnUsedForMeasure" (JBool false));
    ("ignoreNullValues", get mapping "ignoreNullValues" (JBool false));
    ("weightage", get mapping "weightage" (JNum 100));
    ("ruleVersion", get mapping "ruleVersion" PyNone);
    ("businessExplanation", get mapping "businessExplanation" (JStr ""));
    ("isWarning", get mapping "isWarning" (JBool false));
    ("labels", Some (JArr labels));
    ("isArchived", get mapping "isArchived" (JBool false));
    ("mappingType", get mapping "mappingType" (JStr "AUTO"))
  ];
  Some (mk_build added skipped (updated ++ [updated_mapping])).

(** Body of the second loop of [build_update_payload]. *)
Definition update_item (item : json) : option json :=
  dict_of [
    ("measurementType", get item "measurementType" (JStr "EQUALITY"));
    ("executionOrder", get item "executionOrder" (JNum 1));
    ("id", get item "id" PyNone)
  ].

Definition build_update_payload (policy_data : json)
    (label_mappings : gmap string json)
  : option (json * list string * list string) :=
  rule ← get policy_data "rule" (JObj []);
  details ← get policy_data "details" (JObj []);
  column_mappings ← get details "columnMappings" (JArr []);
  items ← get details "items" (JArr []);
  mapping_list ← iter column_mappings;
  st ← for_each (update_mapping label_mappings) (mk_build [] [] []) mapping_list;
  item_list ← iter items;
  updated_items ← mapM update_item item_list;
  left_backing_asset ← (λ v, py_or v (JObj [])) <$> get rule "leftBackingAsset" PyNone;
  right_backing_asset ← (λ v, py_or v (JObj [])) <$> get rule "rightBackingAsset" PyNone;
  notification_channels ←
    (λ v, py_or v (JObj [])) <$> get rule "notificationChannels" PyNone;
  spark_resource_config ←
    (λ v, py_or v (JObj [])) <$> get rule "sparkResourceConfig" PyNone;
  payload ← dict_of [
    ("rule", dict_of [
      ("subType", get rule "subType" (JStr "ASSET"));
      ("enabled", get rule "enabled" (JBool true));
      ("name", get rule "name" PyNone);
      ("description", get rule "description" PyNone);
      ("executionTimeoutInMinutes", get rule "executionTimeoutInMinutes" PyNone);
      ("totalExecutionTimeoutInMinutes",
         get rule "totalExecutionTimeoutInMinutes" PyNone);
      ("analyticsPipelineId", get rule "analyticsPipelineId" PyNone);
      ("scheduleType", get rule "scheduleType" (JStr "FULL"));
      ("jobSchedule", get rule "jobSchedule" PyNone);
      ("segments", get rule "segments" (JArr []));
      ("customSqlConfig", get rule "customSqlConfig" PyNone);
      ("policyScoreStrategy", get rule "policyScoreStrategy" (JStr "WEIGHTAGE"));
      ("thresholdLevel",
         get rule "thresholdLevel"
           (JObj [("success", JNum 100); ("warning", JNum 70)]));
      ("leftFilter", get rule "leftFilter" (JStr ""));
      ("leftSparkFilterSelectedColumns",
         get rule "leftSparkFilterSelectedColumns" (JArr []));
      ("leftSparkSQLFilterType", get rule "leftSparkSQLFilterType" (JStr "STATIC"));
      ("rightFilter", get rule "rightFilter" (JStr ""));
      ("rightSparkFilterSelectedColumns",
         get rule "rightSparkFilterSelectedColumns" (JArr []));
      ("rightSparkSQLFilterType", get rule "rightSparkSQLFilterType" (JStr "STATIC"));
      ("delayInMinutes", get rule "delayInMinutes" PyNone);
      ("engineType", get rule "engineType" (JStr "SPARK"));
      ("leftEngineType", get rule "leftEngineType" (JStr "SPARK"));
      ("rightEngineType", get rule "rightEngineType" (JStr "SPARK"));
      ("joinType", get rule "joinType" (JStr "LEFT"));
      ("leftSparkSQLDynamicFilterVariableMapping",
         rule_name ← get rule "name" PyNone;
         get rule "leftSparkSQLDynamicFilterVariableMapping"
           (JObj [("ruleName", rule_name); ("mapping", JArr [])]));
      ("rightSparkSQLDynamicFilterVariableMapping",
         rule_name ← get rule "name" PyNone;
         get rule "rightSparkSQLDynamicFilterVariableMapping"
           (JObj [("ruleName", rule_name); ("mapping", JArr [])]));
      ("id", get rule "id" PyNone);
      ("includeInQualityScore", get rule "includeInQualityScore" (JBool true));
      ("type", get rule "type" (JStr "EQUALITY"));
      ("scheduled", get rule "scheduled" (JBool false));
      ("leftBackingAsset", dict_of [
        ("tableAssetId", get left_backing_asset "tableAssetId" PyNone);
        ("id", get left_backing_asset "id" PyNone)
      ]);
      ("rightBackingAsset", dict_of [
        ("tableAssetId", get right_backing_asset "tableAssetId" PyNone);
        ("marker", get right_backing_asset "marker" PyNone);
        ("id", get right_backing_asset "id" PyNone)
      ]);
      ("timeSecondsOffset", get rule "timeSecondsOffset" (JNum 30));
      ("notificationChannels", dict_of [
        ("configuredNotificationGroupIds",
           get notification_channels "configuredNotificationGroupIds" (JArr []));
        ("notifyOn", get notification_channels "notifyOn" (JArr []));
        ("notifyOnSuccess",
           get notification_channels "notifyOnSuccess" (JBool false));
        ("severity", get notification_channels "severity" (JStr "CRITICAL"));
        ("alertsEnabled", get notification_channels "alertsEnabled" (JBool true));
        ("reNotifyFactor", get notification_channels "reNotifyFactor" (JNum 0));
        ("notifyOnWarning",
           get notification_channels "notifyOnWarning" (JBool false));
        ("notificationEnabled",
           get notification_channels "notificationEnabled" (JBool false))
      ]);
      ("sparkResourceConfig", dict_of [
        ("additionalConfiguration",
           get spark_resource_config "additionalConfiguration" (JObj []));
        ("yunikorn", get spark_resource_config "yunikorn" PyNone)
      ]);
      ("resourceStrategyType", get rule "resourceStrategyType" (JStr "INVENTORY"));
      ("selectedResourceInventory",
         get rule "selectedResourceInventory" (JStr "Medium"));
      ("autoRetryEnabled", get rule "autoRetryEnabled" (JBool false));
      ("policyGroups", get rule "policyGroups" (JArr []));
      ("labels", get rule "labels" (JArr []));
      ("tags", get rule "tags" (JArr []))
    ]);
    ("items", Some (JArr updated_items));
    ("mappings", Some (JArr (updated_mappings st)));
    ("cloningDetails", Some PyNone);
    ("analyticsPipelineId", get rule "analyticsPipelineId" PyNone)
  ];
  Some (payload, labels_added st, labels_skipped st).

(** *** The ledger file *)

Record csv_row := mk_csv {
  csv_Policy_ID : string;
  csv_Policy_Name : string;
  csv_Rule_ID : string;
  csv_Recon_Type : string;
  csv_Left_Column_Name : string;
  csv_Right_Column_Name : string
}.

(** [f"{policy_id}_{mapping_key}"] *)
Definition full_key (pid mapping_key : string) : string :=
  pid +:+ "_" +:+ mapping_key.

(** The ledger held by [main]: the rows appended in this run, the set
    [existing_mapping_keys], and
    [policy_labels : policy id -> (column key -> original rule id)]. *)
Record ledger := mk_ledger {
  new_mappings_added : list mapping_row;
  existing_mapping_keys : gset string;
  policy_labels : gmap string (gmap string json)
}.

Definition set_label (pid key : string) (value : json)
    (labels : gmap string (gmap string json)) : gmap string (gmap string json) :=
  <[pid := <[key := value]> (default ∅ (labels !! pid))]> labels.

(** Body of the loop of [read_existing_csv]. *)
Definition read_row (acc : gset string * gmap string (gmap string json))
    (row : csv_row) : gset string * gmap string (gmap string json) :=
  let '(keys, labels) := acc in
  let policy_id := csv_Policy_ID row in
  let rule_id := csv_Rule_ID row in
  let left_col := csv_Left_Column_Name row in
  let right_col := csv_Right_Column_Name row in
  if Sync.nonempty policy_id && Sync.nonempty left_col && Sync.nonempty right_col then
    let mapping_key := get_column_key (JStr left_col) (JStr right_col) in
    let keys := {[full_key policy_id mapping_key]} ∪ keys in
    if Sync.nonempty rule_id
    then (keys, set_label policy_id mapping_key (JStr rule_id) labels)
    else (keys, labels)
  else (keys, labels).

Definition read_existing_csv (rows : list csv_row) : ledger :=
  let '(keys, labels) := fold_left read_row rows (∅, ∅) in
  mk_ledger [] keys labels.

(** *** [main], step 1 *)

(** Body of [for mapping in new_mappings]. *)
Definition add_new_mapping (pid : string) (st : ledger) (mapping : mapping_row)
  : ledger :=
  let '(mk_ledger added keys labels) := st in
  let mapping_key :=
    get_column_key (Left_Column_Name mapping) (Right_Column_Name mapping) in
  let full := full_key pid mapping_key in
  if bool_decide (full ∉ keys) then
    mk_ledger (added ++ [mapping]) ({[full]} ∪ keys)
              (set_label pid mapping_key (Rule_ID mapping) labels)
  else st.

Definition compare_policy (net : string → Z → Sync.http_outcome) (st : ledger)
    (info : Sync.policy_info) : option ledger :=
  let pid := Sync.policy_id info in
  let latest_version := Sync.version info in
  let policy_name := Sync.name info in
  let v1_data := fetch_policy_version (net pid 1) in
  let latest_data := fetch_policy_version (net pid latest_version) in
  if negb (truthy v1_data) || negb (truthy latest_data) then
    Some st
  else
    v1_info ← extract_mappings_info v1_data;
    latest_info ← extract_mappings_info latest_data;
    new_mappings ← find_new_mappings v1_info latest_info pid policy_name;
    Some (fold_left (add_new_mapping pid) new_mappings st).

Definition compare_policies (net : string → Z → Sync.http_outcome) (st : ledger)
    (policies_to_compare : list Sync.policy_info) : option ledger :=
  for_each (compare_policy net) st policies_to_compare.

(** *** [main], step 2 *)

(** [fetch_policy]: the JSON body on status 200, [None] otherwise; every
    exception is caught. *)
Definition fetch_policy (outcome : Sync.http_outcome) : json :=
  match outcome with
  | Sync.Responded status body =>
      if status =? 200 then default PyNone body else PyNone
  | Sync.Failed => PyNone
  end.

(** [update_policy]: [True] on status 200, [False] otherwise; every
    exception is caught. *)
Definition update_policy (outcome : Sync.http_outcome) : bool :=
  match outcome with
  | Sync.Responded status _ => status =? 200
  | Sync.Failed => false
  end.

(** Body of [for policy_id, label_mappings in policy_labels.items()];
    [fetched pid] is the outcome of the GET for the policy and
    [stored pid payload] the outcome of the PUT. The keys that the builder
    reports are strings, so joining them does not raise. *)
Definition label_policy
    (fetched : string → Sync.http_outcome)
    (stored : string → json → Sync.http_outcome)
    (st : Sync.totals) (entry : string * gmap string json) : option Sync.totals :=
  let '(policy_id, label_mappings) := entry in
  let '(Sync.mk_totals added_total skipped_total updated requests) := st in
  let policy_data := fetch_policy (fetched policy_id) in
  if negb (truthy policy_data) then Some st
  else
    rule ← get policy_data "rule" (JObj []);
    policy_name ← get rule "name" (JStr "Unknown");
    '(payload, labels_added, labels_skipped) ←
      build_update_payload policy_data label_mappings;
    let skipped_total :=
      if bool_decide (labels_skipped ≠ [])
      then (skipped_total + length labels_skipped)%nat
      else skipped_total in
    if bool_decide (labels_added = []) then
      Some (Sync.mk_totals added_total skipped_total updated requests)
    else
      let success := update_policy (stored policy_id payload) in
      let requests := (requests ++ [(policy_id, payload)])%list in
      if success then
        Some (Sync.mk_totals (added_total + length labels_added)%nat skipped_total
                             (S updated) requests)
      else Some (Sync.mk_totals added_total skipped_total updated requests).

(** The loop of step 2 over the items of [policy_labels] in the order of the
    dict. *)
Definition label_policies
    (fetched : string → Sync.http_outcome)
    (stored : string → json → Sync.http_outcome)
    (st : Sync.totals) (entries : list (string * gmap string json))
  : option Sync.totals :=
  for_each (label_policy fetched stored) st entries.


End Recon.

(** ** [Step_2_Fetch_Policy_Details.py]: the rows of the harvest *)

Module FetchDetails.

(** A row of the harvest as [process_policies] builds it. *)
Record detail_row := mk_detail {
  Policy_ID : json;
  Policy_Name : json;
  Rule_ID : json;
  Rule_Type : json;
  Column_Name : json
}.

(** [fetch_policy_details]: the JSON body on status 200, [None] otherwise;
    every exception is caught. *)
Definition fetch_policy_details (outcome : Sync.http_outcome) : json :=
  match outcome with
  | Sync.Responded status body =>
      if status =? 200 then default PyNone body else PyNone
  | Sync.Failed => PyNone
  end.

(** Body of [for item in items]. *)
Definition process_item (policy_id policy_name : json)
    (results : list detail_row) (item : json) : option (list detail_row) :=
  rule_id ← get item "id" PyNone;
  rule_type ← get item "measurementType" (JStr "");
  column_name ← Fetch.get_column_name item;
  Some (results ++ [mk_detail policy_id policy_name rule_id rule_type column_name])%list.

(** Body of [for data in responses]; a response that [is None] is passed
    over. *)
Definition process_response (results : list detail_row) (data : json)
  : option (list detail_row) :=
  match data with
  | JNull => Some results
  | _ =>
      rule ← get data "rule" (JObj []);
      details ← get data "details" (JObj []);
      policy_id ← get rule "id" PyNone;
      policy_name ← get rule "name" PyNone;
      items ← get details "items" (JArr []);
      if negb (truthy items) then
        Some (results ++ [mk_detail policy_id policy_name
                                    (JStr "") (JStr "") (JStr "")])%list
      else
        item_list ← iter items;
        for_each (process_item policy_id policy_name) results item_list
  end.

(** [process_policies]; [net pid] is the outcome of the request for the
    policy. *)
Definition process_policies (net : string → Sync.http_outcome)
    (policy_ids : list string) : option (list detail_row) :=
  let responses := map (λ pid, fetch_policy_details (net pid)) policy_ids in
  for_each process_response [] responses.

(** The text of a cell of the file: [csv.DictWriter] writes [None] as the
    empty cell and any other value through [str], and [csv.DictReader] reads
    the text back. *)
Definition csv_cell (v : json) : string :=
  match v with
  | JNull => ""
  | _ => str v
  end.

(** A row of the harvest as [write_results] writes it and the
    synchronisation reads it. *)
Definition write_row (row : detail_row) : Sync.csv_row :=
  Sync.mk_csv (csv_cell (Policy_ID row)) (csv_cell (Policy_Name row))
              (csv_cell (Rule_ID row)) (csv_cell (Rule_Type row))
              (csv_cell (Column_Name row)).

Definition write_results (results : list detail_row) : list Sync.csv_row :=
  map write_row results.

End FetchDetails.

(** * Vocabulary of the properties

    The predicates, sample inputs and readings of the claims that the
    statements below are written with. *)

(** ** Failed snapshot fetches *)

(** A request fails when it raises, answers a status other than 200, or
    answers a body that cannot be decoded. *)
Definition fetch_failed (outcome : Sync.http_outcome) : bool :=
  match outcome with
  | Sync.Responded status (Some _) => negb (status =? 200)
  | Sync.Responded _ None => true
  | Sync.Failed => true
  end.

(** A policy snapshot with the given items. *)
Definition sample_snapshot (items : list json) : json :=
  JObj [("details", JObj [("items", JArr items)])].

(** A network on which version 1 of every policy is unreachable. *)
Definition baseline_unreachable (pid : string) (version : Z) : Sync.http_outcome :=
  if version =? 1 then Sync.Failed
  else Sync.Responded 200
         (Some (sample_snapshot [JObj [("id", JNum 72);
                                       ("measurementType", JStr "SIZE_CHECK")]])).

(** ** The ledger *)

(** The rule id recorded for a key of a policy. *)
Definition sync_original_id (st : Sync.ledger) (pid : string) (key : hkey)
  : option json :=
  Sync.policy_labels st !! pid ≫= λ labels, labels !! key.

(** The rule id recorded for a column key of a reconciliation policy. *)
Definition recon_original_id (st : Recon.ledger) (pid key : string)
  : option json :=
  Recon.policy_labels st !! pid ≫= λ labels, labels !! key.

(** The ledger file after a first synchronisation of policy [P1]: the row
    harvested from version 1, and the row of the size check that version 2
    introduced with rule id 50. *)
Definition ledger_after_v2 : list Sync.csv_row :=
  [Sync.mk_csv "P1" "orders" "10" "NOT_NULL" "amount";
   Sync.mk_csv "P1" "orders" "50" "SIZE_CHECK" "SIZE_CHECK"].

(** Version 1 of [P1], and its version 3, in which the service has given
    new ids to the rows. *)
Definition orders_v1 : json :=
  sample_snapshot
    [JObj [("id", JNum 10); ("measurementType", JStr "NOT_NULL");
           ("columnName", JStr "amount")]].

(** Version 3 of [P1]: the column check under id 71, the size check under
    id 72. *)
Definition orders_v3 : json :=
  sample_snapshot
    [JObj [("id", JNum 71); ("measurementType", JStr "NOT_NULL");
           ("columnName", JStr "amount")];
     JObj [("id", JNum 72); ("measurementType", JStr "SIZE_CHECK")]].

(** The network that serves the two snapshots of [P1]. *)
Definition orders_net (pid : string) (version : Z) : Sync.http_outcome :=
  if version =? 1 then Sync.Responded 200 (Some orders_v1)
  else Sync.Responded 200 (Some orders_v3).

(** The reconciliation pipeline, in contrast, guards by [(policy, key)].
    Its invariant: every recorded pair has its full key in
    [existing_mapping_keys]. *)
Definition recon_ledger_inv (st : Recon.ledger) : Prop :=
  ∀ pid key v, recon_original_id st pid key = Some v →
               Recon.full_key pid key ∈ Recon.existing_mapping_keys st.

(** ** The version diff against an empty baseline *)

(** An item carries the field that the diff compares for its kind: the
    expression of a CUSTOM or SQL_METRIC check, the [udfId] of a
    UDF_PREDICATE check, the column name of a column check; a SIZE_CHECK is
    compared on its kind alone. *)
Definition carries_compared_field (item : json) : bool :=
  match item with
  | JObj kvs =>
      let kind := default (JStr "") (assoc "measurementType" kvs) in
      if eq_str kind "CUSTOM" || eq_str kind "SQL_METRIC" then
        truthy (default (JStr "") (assoc "ruleExpression" kvs))
      else if eq_str kind "UDF_PREDICATE" then
        match default (JObj []) (assoc "value" kvs) with
        | JObj fields =>
            truthy (JObj fields) && truthy (default PyNone (assoc "udfId" fields))
        | _ => false
        end
      else if eq_str kind "SIZE_CHECK" then true
      else truthy (default (JStr "") (assoc "columnName" kvs))
  | _ => false
  end.

(** The information extracted from a snapshot without items. *)
Definition empty_info (its : json) : Sync.items_info :=
  Sync.mk_info ∅ ∅ ∅ ∅ false its.

(** The ledger row that the diff emits for an item. *)
Definition row_of (pid : string) (policy_name item : json) : option Sync.rule_row :=
  measurement_type ← get item "measurementType" (JStr "");
  rule_id ← get item "id" PyNone;
  key ← Sync.get_column_name item;
  Some (Sync.mk_row pid policy_name rule_id measurement_type key).

(** ** Well-formed check items

    The shape of a check item in the catalog's responses: [measurementType],
    [columnName] and [ruleExpression] are strings when they are present and
    not null, and the [value] of a UDF_PREDICATE check is an object whose
    [udfId] is a scalar. *)

(** A string, or null. *)
Definition optional_text (v : json) : bool :=
  match v with
  | JNull | JStr _ => true
  | _ => false
  end.

(** A value that [hash] accepts. *)
Definition hashable (v : json) : bool :=
  match v with
  | JArr _ | JObj _ => false
  | _ => true
  end.

(** The [value] of a UDF_PREDICATE check: an object with a scalar [udfId],
    or a false value. *)
Definition udf_value_ok (value : json) : bool :=
  match value with
  | JObj fields => hashable (default PyNone (assoc "udfId" fields))
  | _ => negb (truthy value)
  end.

(** A well-formed check item. *)
Definition check_item_ok (item : json) : bool :=
  match item with
  | JObj kvs =>
      let kind := default (JStr "") (assoc "measurementType" kvs) in
      optional_text kind
      && optional_text (default (JStr "") (assoc "columnName" kvs))
      && optional_text (default (JStr "") (assoc "ruleExpression" kvs))
      && (negb (eq_str kind "UDF_PREDICATE")
          || udf_value_ok (default (JObj []) (assoc "value" kvs)))
  | _ => false
  end.

(** The items of a snapshot: [data.get("details", {}).get("items", [])]. *)
Definition snapshot_items (data : json) : option json :=
  details ← get data "details" (JObj []);
  get details "items" (JArr []).

(** The claim as it is worded: against a baseline without items, every item
    of the latest snapshot is classified as new. *)
Definition every_latest_item_is_new : Prop :=
  ∀ baseline v1_info item,
    Sync.extract_items_info baseline = Some v1_info →
    iter (Sync.items v1_info) = Some [] →
    check_item_ok item = true →
    Sync.is_new_rule v1_info item = Some true.

(** ** Label reconciliation *)

(** The label that reconciliation attaches: the key, and the ledger's rule
    id as text. *)
Definition new_label (key rule_id : json) : json :=
  JObj [("key", key); ("value", JStr (str rule_id))].

(** The [{"key": ..., "value": ...}] copy of a label. *)
Definition key_value (label : json) : option json :=
  dict_of [("key", get label "key" PyNone); ("value", get label "value" PyNone)].

(** An item of the write-back payload: the fields that [update_item] copies
    from the fetched item [kvs], with the given labels. *)
Definition rebuilt_item (kvs : list (string * json)) (labels : list json) : json :=
  let field k dflt := (k, default dflt (assoc k kvs)) in
  let copied :=
    [field "measurementType" PyNone; field "columnName" (JStr "");
     field "executionOrder" PyNone; field "weightage" PyNone;
     field "businessExplanation" (JStr ""); ("labels", JArr labels);
     field "isWarning" (JBool false);
     field "associatedDQRecommendationId" PyNone;
     field "bulkPolicyDqRuleId" PyNone; field "thresholdConfig" PyNone;
     field "value" PyNone; field "id" PyNone] in
  let expression := default PyNone (assoc "ruleExpression" kvs) in
  JObj (if truthy expression
        then copied ++ [("ruleExpression", expression)]
        else copied).

(** ** Label keys and label copies *)

(** One step of the set comprehension that collects the label keys. *)
Definition add_label_key (keys : gset hkey) (label : json) : option (gset hkey) :=
  k ← get label "key" PyNone;
  if truthy k then set_add k keys else Some keys.

(** ** The label block *)

(** The keys of an item that the ledger knows: its key, if the ledger has
    an entry for it. *)
Definition ledger_matched (lm : gmap hkey json) (item : json) : list json :=
  match Sync.get_column_name item with
  | Some key =>
      match getitem lm key with
      | Some _ => [key]
      | None => []
      end
  | None => []
  end.

(** ** The payload around the items *)

(** An object, or a false value, for which [v or {}] is an object. *)
Definition dict_or_false (v : json) : bool :=
  match v with
  | JObj _ => true
  | _ => negb (truthy v)
  end.

(** The part of a fetched definition that [build_update_payload] relies on
    besides the items: [rule] and [details] are objects, and the rule's
    [backingAsset] and [notificationChannels] are objects, null or absent. *)
Definition quality_frame_ok (policy_data : json) : bool :=
  match policy_data with
  | JObj fields =>
      match default (JObj []) (assoc "rule" fields),
            default (JObj []) (assoc "details" fields) with
      | JObj rule, JObj _ =>
          dict_or_false (default PyNone (assoc "backingAsset" rule))
          && dict_or_false (default PyNone (assoc "notificationChannels" rule))
      | _, _ => false
      end
  | _ => false
  end.

(** ** Dict displays *)

(** The value expression of the first field named [k] of a dict display. *)
Fixpoint field_lookup (k : string) (fields : list (string * option json))
  : option (option json) :=
  match fields with
  | [] => None
  | (k', e) :: rest => if String.eqb k k' then Some e else field_lookup k rest
  end.

(** The definition that the service holds once a payload has been written:
    the payload's rule, and its items as [details.items]. *)
Definition republished (payload : json) : option json :=
  rule ← get payload "rule" PyNone;
  items ← get payload "items" PyNone;
  Some (JObj [("rule", rule); ("details", JObj [("items", items)])]).

(** ** Label reconciliation of column mappings *)

(** A mapping of the write-back payload: the fields that [update_mapping]
    copies from the fetched mapping [kvs], with the given labels. *)
Definition rebuilt_mapping (kvs : list (string * json)) (labels : list json) : json :=
  let field k dflt := (k, default dflt (assoc k kvs)) in
  JObj
    [field "id" PyNone; field "leftColumnName" (JStr "");
     field "operation" (JStr "EQ"); field "rightColumnName" (JStr "");
     field "useForJoining" (JBool false); field "reconciliationRuleId" PyNone;
     field "isJoinColumnUsedForMeasure" (JBool false);
     field "ignoreNullValues" (JBool false); field "weightage" (JNum 100);
     field "ruleVersion" PyNone; field "businessExplanation" (JStr "");
     field "isWarning" (JBool false); ("labels", JArr labels);
     field "isArchived" (JBool false); field "mappingType" (JStr "AUTO")].

(** The key of a mapping: [leftColumnName_rightColumnName]. *)
Definition mapping_key_of (kvs : list (string * json)) : string :=
  Recon.get_column_key (default (JStr "") (assoc "leftColumnName" kvs))
                       (default (JStr "") (assoc "rightColumnName" kvs)).

(** The key of a mapping, if the ledger has an entry for it. *)
Definition ledger_matched_mapping (lm : gmap string json) (mapping : json)
  : list string :=
  match mapping with
  | JObj kvs =>
      match lm !! mapping_key_of kvs with
      | Some _ => [mapping_key_of kvs]
      | None => []
      end
  | _ => []
  end.

(** ** The payload around the mappings *)

(** An object. *)
Definition is_dict (v : json) : bool :=
  match v with
  | JObj _ => true
  | _ => false
  end.

(** The mappings of a fetched definition:
    [data.get("details", {}).get("columnMappings", [])]. *)
Definition snapshot_mappings (data : json) : option json :=
  details ← get data "details" (JObj []);
  get details "columnMappings" (JArr []).

(** The part of a fetched reconciliation definition that
    [build_update_payload] relies on besides the mappings: [rule] and
    [details] are objects, the rule's backing assets, notification channels
    and resource configuration are objects, null or absent, and
    [details.items] lists objects. *)
Definition recon_frame_ok (policy_data : json) : bool :=
  match policy_data with
  | JObj fields =>
      match default (JObj []) (assoc "rule" fields),
            default (JObj []) (assoc "details" fields) with
      | JObj rule, JObj details =>
          dict_or_false (default PyNone (assoc "leftBackingAsset" rule))
          && dict_or_false (default PyNone (assoc "rightBackingAsset" rule))
          && dict_or_false (default PyNone (assoc "notificationChannels" rule))
          && dict_or_false (default PyNone (assoc "sparkResourceConfig" rule))
          && match iter (default (JArr []) (assoc "items" details)) with
             | Some item_list => forallb is_dict item_list
             | None => false
             end
      | _, _ => false
      end
  | _ => false
  end.

(** The reconciliation definition that the service holds once a payload has
    been written: the payload's rule, its mappings as
    [details.columnMappings] and its items as [details.items]. *)
Definition recon_republished (payload : json) : option json :=
  rule ← get payload "rule" PyNone;
  items ← get payload "items" PyNone;
  mappings ← get payload "mappings" PyNone;
  Some (JObj [("rule", rule);
              ("details", JObj [("columnMappings", mappings); ("items", items)])]).

(** ** What a pass does to the labels of an item *)

(** A label and its copy have the same key and the same value. *)
Definition same_key_value (label copy : json) : Prop :=
  get copy "key" PyNone = get label "key" PyNone
  ∧ get copy "value" PyNone = get label "value" PyNone.

(** The labels of the payload item [u] that a pass produces for [item]:
    in override mode, the ledger's label for the key of the item and nothing
    else; in normal mode, the copies of the labels of the item, followed by
    the ledger's label when the ledger knows the key and the item has no
    label with that key. *)
Definition relabelled (ov : bool) (lm : gmap hkey json) (item u : json) : Prop :=
  ∃ kvs key h existing labels,
    item = JObj kvs
    ∧ Sync.get_column_name item = Some key ∧ to_hkey key = Some h
    ∧ iter (default (JArr []) (assoc "labels" kvs)) = Some existing
    ∧ u = rebuilt_item kvs labels
    ∧ if ov then
        labels = match lm !! h with
                 | Some rule_id => [new_label key rule_id]
                 | None => []
                 end
      else
        ∃ copies keys,
          mapM key_value existing = Some copies
          ∧ for_each add_label_key ∅ existing = Some keys
          ∧ labels = (copies ++ match lm !! h with
                                | Some rule_id =>
                                    if bool_decide (h ∈ keys) then []
                                    else [new_label key rule_id]
                                | None => []
                                end)%list.

(** The items of a definition, as the loop of [build_update_payload] visits
    them. *)
Definition items_of (policy_data : json) : option (list json) :=
  snapshot_items policy_data ≫= iter.

(** The labels of the payload mapping [u] that a pass produces for
    [mapping]: the copies of the labels of the mapping, followed by the
    ledger's label when the ledger knows the key and the mapping has no
    label with that key. *)
Definition mapping_relabelled (lm : gmap string json) (mapping u : json) : Prop :=
  ∃ kvs existing copies keys,
    mapping = JObj kvs
    ∧ iter (default (JArr []) (assoc "labels" kvs)) = Some existing
    ∧ mapM key_value existing = Some copies
    ∧ for_each add_label_key ∅ existing = Some keys
    ∧ u = rebuilt_mapping kvs
            (copies ++ match lm !! mapping_key_of kvs with
                       | Some rule_id =>
                           if bool_decide (HStr (mapping_key_of kvs) ∈ keys) then []
                           else [new_label (JStr (mapping_key_of kvs)) rule_id]
                       | None => []
                       end).

(** The mappings of a definition, as the loop of [build_update_payload]
    visits them. *)
Definition mappings_of (policy_data : json) : option (list json) :=
  snapshot_mappings policy_data ≫= iter.

(** ** Well-formed definitions: the passes return *)

(** Labels as the service lists them: a list of objects whose [key] is a
    scalar. *)
Definition label_ok (label : json) : bool :=
  match label with
  | JObj fields => hashable (default PyNone (assoc "key" fields))
  | _ => false
  end.

(** A list of well-formed labels. *)
Definition labels_ok (labels : json) : bool :=
  match labels with
  | JArr ls => forallb label_ok ls
  | _ => false
  end.

(** A well-formed check item with well-formed labels. *)
Definition quality_item_ok (item : json) : bool :=
  check_item_ok item
  && match item with
     | JObj kvs => labels_ok (default (JArr []) (assoc "labels" kvs))
     | _ => false
     end.

(** A well-formed quality-rule definition. *)
Definition quality_policy_ok (policy_data : json) : bool :=
  quality_frame_ok policy_data
  && match snapshot_items policy_data with
     | Some (JArr item_list) => forallb quality_item_ok item_list
     | _ => false
     end.

(** A column mapping with well-formed labels. *)
Definition mapping_ok (mapping : json) : bool :=
  match mapping with
  | JObj kvs => labels_ok (default (JArr []) (assoc "labels" kvs))
  | _ => false
  end.

(** A well-formed reconciliation definition. *)
Definition recon_policy_ok (policy_data : json) : bool :=
  recon_frame_ok policy_data
  && match snapshot_mappings policy_data with
     | Some (JArr mapping_list) => forallb mapping_ok mapping_list
     | _ => false
     end.

(** ** The id of an item plays no part *)

(** The labels that a pass gives to an item, with the keys it reports as
    added and as skipped. *)
Definition produced_labels (ov : bool) (lm : gmap hkey json)
    (st : Sync.build_state) (item : json)
  : option (json * list json * list json) :=
  st1 ← Sync.update_item ov lm st item;
  u ← last (Sync.updated_items st1);
  labels ← get u "labels" PyNone;
  Some (labels, Sync.labels_added st1, Sync.labels_skipped st1).

(** The labels that a pass gives to a mapping, with the keys it reports as
    added and as skipped. *)
Definition produced_mapping_labels (lm : gmap string json)
    (st : Recon.build_state) (mapping : json)
  : option (json * list string * list string) :=
  st1 ← Recon.update_mapping lm st mapping;
  u ← last (Recon.updated_mappings st1);
  labels ← get u "labels" PyNone;
  Some (labels, Recon.labels_added st1, Recon.labels_skipped st1).

(** ** Sample definitions *)

(** A quality-rule definition with a labelled column check and a size
    check; its rule has a field [owner] that the builder does not know. *)
Definition orders_policy : json :=
  JObj [("rule", JObj [("id", JNum 9); ("name", JStr "orders");
                        ("owner", JStr "dq-team")]);
        ("details", JObj [("items", JArr [
           JObj [("id", JNum 71); ("measurementType", JStr "NOT_NULL");
                 ("columnName", JStr "amount");
                 ("labels", JArr [JObj [("key", JStr "team");
                                        ("value", JStr "core")]])];
           JObj [("id", JNum 72); ("measurementType", JStr "SIZE_CHECK")]])])].

(** The ledger entries of [orders_policy]. *)
Definition orders_ledger : gmap hkey json :=
  <[HStr "NOT_NULL-amount" := JStr "10"]> (<[HStr "SIZE_CHECK" := JStr "50"]> ∅).

(** A reconciliation definition with two labelled mappings. *)
Definition recon_policy : json :=
  JObj [("rule", JObj [("id", JNum 12); ("name", JStr "orders-vs-billing")]);
        ("details", JObj [
           ("items", JArr [JObj [("id", JNum 1);
                                 ("measurementType", JStr "EQUALITY")]]);
           ("columnMappings", JArr [
              JObj [("id", JNum 31); ("leftColumnName", JStr "id");
                    ("rightColumnName", JStr "id");
                    ("labels", JArr [JObj [("key", JStr "id_id");
                                           ("value", JStr "7")]])];
              JObj [("id", JNum 32); ("leftColumnName", JStr "total");
                    ("rightColumnName", JStr "amount");
                    ("labels", JArr [JObj [("key", JStr "team");
                                           ("value", JStr "core")]])]])])].

(** The ledger entries of [recon_policy]. *)
Definition recon_ledger : gmap string json :=
  <["id_id" := JStr "7"]> (<["total_amount" := JStr "8"]> ∅).

(** The results of the passes over the sample definitions. *)
Definition orders_first_pass : option (json * list json * list json) :=
  Eval vm_compute in Sync.build_update_payload false orders_policy orders_ledger.

Definition recon_first_pass : option (json * list string * list string) :=
  Eval vm_compute in Recon.build_update_payload recon_policy recon_ledger.

Definition orders_override_pass : option (json * list json * list json) :=
  Eval vm_compute in Sync.build_update_payload true orders_policy orders_ledger.

(** ** What the payload carries through *)










(** * Vocabulary of the further properties

    The predicates and sample inputs of the properties of the diff, the
    ledgers, the labelling steps, the listing and the harvest. *)

(** ** What the diff compares *)

(** The field by which the diff compares a check: its column name, its
    expression, its UDF id, or its mere presence for a size check. *)
Inductive compared : Type :=
  | ByColumn (column : hkey)
  | ByCustom (expression : hkey)
  | BySqlMetric (expression : hkey)
  | ByUdf (udf_id : hkey)
  | BySize.

#[global] Instance compared_eq_dec : EqDecision compared.
Proof. solve_decision. Defined.

Definition field_key (tag : hkey → compared) (v : json) : option (option compared) :=
  if truthy v then h ← to_hkey v; Some (Some (tag h)) else Some None.

(** The compared field of an item, if it has one. *)
Definition compared_field (item : json) : option (option compared) :=
  measurement_type ← get item "measurementType" (JStr "");
  column_name ← get item "columnName" (JStr "");
  rule_expression ← get item "ruleExpression" (JStr "");
  if eq_str measurement_type "CUSTOM" then field_key ByCustom rule_expression
  else if eq_str measurement_type "SQL_METRIC" then
    field_key BySqlMetric rule_expression
  else if eq_str measurement_type "UDF_PREDICATE" then
    value ← get item "value" (JObj []);
    if truthy value then
      udf_id ← get value "udfId" PyNone;
      field_key ByUdf udf_id
    else Some None
  else if eq_str measurement_type "SIZE_CHECK" then Some (Some BySize)
  else field_key ByColumn column_name.

(** Whether the presence structure of a snapshot holds a compared field. *)
Definition recorded (info : Sync.items_info) (c : compared) : bool :=
  match c with
  | ByColumn h => bool_decide (h ∈ Sync.column_names info)
  | ByCustom h => bool_decide (h ∈ Sync.custom_expressions info)
  | BySqlMetric h => bool_decide (h ∈ Sync.sql_metric_expressions info)
  | ByUdf h => bool_decide (h ∈ Sync.udf_predicate_ids info)
  | BySize => Sync.has_size_check info
  end.

(** The presence structure with one more compared field. *)
Definition record_field (info : Sync.items_info) (oc : option compared)
  : Sync.items_info :=
  let '(Sync.mk_info cols customs sqls udfs size its) := info in
  match oc with
  | Some (ByColumn h) => Sync.mk_info ({[h]} ∪ cols) customs sqls udfs size its
  | Some (ByCustom h) => Sync.mk_info cols ({[h]} ∪ customs) sqls udfs size its
  | Some (BySqlMetric h) => Sync.mk_info cols customs ({[h]} ∪ sqls) udfs size its
  | Some (ByUdf h) => Sync.mk_info cols customs sqls ({[h]} ∪ udfs) size its
  | Some BySize => Sync.mk_info cols customs sqls udfs true its
  | None => info
  end.

(** Whether the diff against the baseline [v1_info] reports an item. *)
Definition reported (v1_info : Sync.items_info) (item : json) : bool :=
  bool_decide (Sync.is_new_rule v1_info item = Some true).

(** A column check with the given id, kind and column. *)
Definition column_check (id : Z) (kind column : string) : json :=
  JObj [("id", JNum id); ("measurementType", JStr kind);
        ("columnName", JStr column)].

(** The presence structure of a snapshot with one NOT_NULL check on the
    column [amount]. *)
Definition amount_info : Sync.items_info :=
  Eval vm_compute in
    default (empty_info PyNone)
      (Sync.extract_items_info (sample_snapshot [column_check 1 "NOT_NULL" "amount"])).

(** ** Identity keys *)

(** The fields of a check item that its identity key is computed from. *)
Definition key_fields : list string :=
  ["measurementType"; "columnName"; "ruleExpression"; "value"].

(** A lowercase hexadecimal digit. *)
Definition is_hex (c : ascii) : bool :=
  let n := byte_of c in
  ((48 <=? n) && (n <=? 57)) || ((97 <=? n) && (n <=? 102)).

Fixpoint all_hex (s : string) : bool :=
  match s with
  | EmptyString => true
  | String c rest => is_hex c && all_hex rest
  end.

(** ** Reading the ledger file *)

(** A row of the ledger file that [read_existing_csv] records under the pair
    [(pid, key)]: its three cells are non-empty. *)
Definition records (pid key : string) (row : Sync.csv_row) : bool :=
  String.eqb (Sync.csv_Policy_ID row) pid
  && String.eqb (Sync.csv_Column_Name row) key
  && Sync.nonempty pid && Sync.nonempty key
  && Sync.nonempty (Sync.csv_Rule_ID row).

(** The rule id that a ledger row writes on the labels, as text. *)
Definition rule_id_text (row : Sync.rule_row) : string := str (Sync.Rule_ID row).

(** What a comparison pass over the policies [pids] may do to the ledger of
    the quality-rule pipeline: append rows of these policies whose rule ids
    are new and pairwise distinct, record these ids, and write labels of
    these policies only, without dropping a recorded key. *)
Definition sync_pass (pids : list string) (st st' : Sync.ledger) : Prop :=
  ∃ more,
    Sync.new_rules_added st' = (Sync.new_rules_added st ++ more)%list
    ∧ NoDup (map rule_id_text more)
    ∧ (∀ r, r ∈ more → (rule_id_text r ∉ Sync.existing_rule_ids st)
                        ∧ (Sync.Policy_ID r ∈ pids))
    ∧ Sync.existing_rule_ids st'
      = Sync.existing_rule_ids st ∪ list_to_set (map rule_id_text more)
    ∧ (∀ pid, pid ∉ pids → Sync.policy_labels st' !! pid = Sync.policy_labels st !! pid)
    ∧ (∀ pid key, is_Some (sync_original_id st pid key) →
                  is_Some (sync_original_id st' pid key)).

(** An appended row is recorded: the ledger holds, for the policy and the
    key of the row, the rule id of an appended row of this policy with this
    key. *)
Definition recorded_row (more : list Sync.rule_row) (st : Sync.ledger)
    (r : Sync.rule_row) : Prop :=
  ∃ h r',
    to_hkey (Sync.Column_Name r) = Some h
    ∧ r' ∈ more
    ∧ Sync.Policy_ID r' = Sync.Policy_ID r
    ∧ to_hkey (Sync.Column_Name r') = Some h
    ∧ sync_original_id st (Sync.Policy_ID r) h = Some (Sync.Rule_ID r').

(** The rows appended between two states of the ledger are recorded. *)
Definition sync_records (st st' : Sync.ledger) : Prop :=
  ∃ more,
    Sync.new_rules_added st' = (Sync.new_rules_added st ++ more)%list
    ∧ ∀ r, r ∈ more → recorded_row more st' r.

(** ** The ledger of the reconciliation pipeline *)

(** The column key of a ledger row, and its full key. *)
Definition row_key (row : Recon.mapping_row) : string :=
  Recon.get_column_key (Recon.Left_Column_Name row) (Recon.Right_Column_Name row).

Definition row_full_key (row : Recon.mapping_row) : string :=
  Recon.full_key (Recon.Policy_ID row) (row_key row).

(** What a comparison pass over the policies [pids] may do to the ledger of
    the reconciliation pipeline: append rows of these policies whose full
    keys are new and pairwise distinct, record each of them under its own
    rule id, and leave every recorded id as it is. *)
Definition recon_pass (pids : list string) (st st' : Recon.ledger) : Prop :=
  recon_ledger_inv st'
  ∧ ∃ more,
    Recon.new_mappings_added st' = (Recon.new_mappings_added st ++ more)%list
    ∧ NoDup (map row_full_key more)
    ∧ (∀ r, r ∈ more →
            (row_full_key r ∉ Recon.existing_mapping_keys st)
            ∧ (Recon.Policy_ID r ∈ pids)
            ∧ recon_original_id st' (Recon.Policy_ID r) (row_key r)
              = Some (Recon.Rule_ID r))
    ∧ Recon.existing_mapping_keys st'
      = Recon.existing_mapping_keys st ∪ list_to_set (map row_full_key more)
    ∧ (∀ pid, pid ∉ pids →
              Recon.policy_labels st' !! pid = Recon.policy_labels st !! pid)
    ∧ (∀ pid key v, recon_original_id st pid key = Some v →
                    recon_original_id st' pid key = Some v).

(** The ledger file of the reconciliation policy 12 after the harvest of its
    version 1, which has the mapping [id = id] only, and the network that
    serves this version and the later one, [recon_policy]. *)
Definition recon_rows : list Recon.csv_row :=
  [Recon.mk_csv "12" "orders-vs-billing" "31" "EQUALITY" "id" "id"].

Definition recon_v1 : json :=
  JObj [("details", JObj [
    ("items", JArr [JObj [("id", JNum 1); ("measurementType", JStr "EQUALITY")]]);
    ("columnMappings", JArr [
       JObj [("id", JNum 31); ("leftColumnName", JStr "id");
             ("rightColumnName", JStr "id")]])])].

Definition recon_net (pid : string) (version : Z) : Sync.http_outcome :=
  if version =? 1 then Sync.Responded 200 (Some recon_v1)
  else Sync.Responded 200 (Some recon_policy).

(** ** What the reconciliation diff compares *)

(** The column key of a mapping whose two column names are true values. *)
Definition mapping_key (mapping : json) : option (option string) :=
  left_col ← get mapping "leftColumnName" (JStr "");
  right_col ← get mapping "rightColumnName" (JStr "");
  Some (if truthy left_col && truthy right_col
        then Some (Recon.get_column_key left_col right_col) else None).

(** Whether the diff against the baseline [v1_info] reports a mapping. *)
Definition mapping_reported (v1_info : Recon.mappings_info) (mapping : json) : bool :=
  match mapping_key mapping with
  | Some (Some key) => bool_decide (key ∉ Recon.mapping_keys v1_info)
  | _ => false
  end.

(** The ledger row that the diff emits for a mapping. *)
Definition mapping_row_of (pid : string) (policy_name recon_type mapping : json)
  : option Recon.mapping_row :=
  left_col ← get mapping "leftColumnName" (JStr "");
  right_col ← get mapping "rightColumnName" (JStr "");
  mapping_id ← get mapping "id" PyNone;
  Some (Recon.mk_row pid policy_name mapping_id recon_type left_col right_col).

(** ** Reading the ledger file of the reconciliation pipeline *)

(** A row of the ledger file whose policy and two columns are given: its
    full key counts as known. *)
Definition recon_keyed (row : Recon.csv_row) : bool :=
  Sync.nonempty (Recon.csv_Policy_ID row)
  && Sync.nonempty (Recon.csv_Left_Column_Name row)
  && Sync.nonempty (Recon.csv_Right_Column_Name row).

(** The column key of a row of the ledger file. *)
Definition csv_row_key (row : Recon.csv_row) : string :=
  Recon.get_column_key (JStr (Recon.csv_Left_Column_Name row))
                       (JStr (Recon.csv_Right_Column_Name row)).

(** A row of the ledger file that [read_existing_csv] records under the pair
    [(pid, key)]. *)
Definition recon_records (pid key : string) (row : Recon.csv_row) : bool :=
  String.eqb (Recon.csv_Policy_ID row) pid
  && String.eqb (csv_row_key row) key
  && recon_keyed row
  && Sync.nonempty (Recon.csv_Rule_ID row).

(** ** The labelling step *)

(** Whether a PUT request was answered with status 200. *)
Definition accepted (stored : string → json → Sync.http_outcome)
    (request : string * json) : bool :=
  Sync.update_policy (stored request.1 request.2).

(** A PUT request of the labelling step over [entries]: its payload is the
    one built for an entry of the ledger from the definition that was
    fetched, and the pass added at least one label. *)
Definition justified (ov : bool) (fetched : string → Sync.http_outcome)
    (entries : list (string * gmap hkey json)) (request : string * json) : Prop :=
  ∃ lm added skipped,
    (request.1, lm) ∈ entries
    ∧ Sync.build_update_payload ov (Sync.fetch_policy (fetched request.1)) lm
      = Some (request.2, added, skipped)
    ∧ added ≠ [].

(** A service that answers every GET with the given definition, and one
    that accepts every PUT. *)
Definition serving (policy_data : json) (pid : string) : Sync.http_outcome :=
  Sync.Responded 200 (Some policy_data).

Definition accepting (pid : string) (payload : json) : Sync.http_outcome :=
  Sync.Responded 200 None.

(** The counters at the start of the labelling step. *)
Definition no_totals : Sync.totals := Sync.mk_totals 0 0 0 [].

(** The key of a label, as sets and dicts see it. *)
Definition label_hkey (label : json) : option hkey :=
  get label "key" PyNone ≫= to_hkey.

(** What normal mode does to the labels of an item: every label is kept as
    its key-value copy, in order, and at most one label follows, whose key
    none of the labels of the item has. *)
Definition labels_kept (item u : json) : Prop :=
  ∃ existing copies extra,
    get item "labels" (JArr []) ≫= iter = Some existing
    ∧ get u "labels" PyNone = Some (JArr (copies ++ extra))
    ∧ Forall2 same_key_value existing copies
    ∧ (length extra ≤ 1)%nat
    ∧ ∀ new old, new ∈ extra → old ∈ existing → label_hkey old ≠ label_hkey new.

(** ** The labelling step of the reconciliation pipeline *)

Definition recon_accepted (stored : string → json → Sync.http_outcome)
    (request : string * json) : bool :=
  Recon.update_policy (stored request.1 request.2).

(** A PUT request of the labelling step over [entries]: its payload is the
    one built for an entry of the ledger from the definition that was
    fetched, and the pass added at least one label. *)
Definition recon_justified (fetched : string → Sync.http_outcome)
    (entries : list (string * gmap string json)) (request : string * json) : Prop :=
  ∃ lm added skipped,
    (request.1, lm) ∈ entries
    ∧ Recon.build_update_payload (Recon.fetch_policy (fetched request.1)) lm
      = Some (request.2, added, skipped)
    ∧ added ≠ [].

(** ** The listing of the policies and their versions *)

(** The [rules] of the page [page] of the listing. *)
Definition page_rules (net : nat → Sync.http_outcome) (page : nat) : option json :=
  data ← Sync.rules_page (net page); get data "rules" (JArr []).

(** The listing after the pages before [n], when none of them is empty. *)
Definition listed_until (n : nat) (net : nat → Sync.http_outcome)
  : option (gmap string Sync.version_info) :=
  for_each (λ policy_versions page,
              rules ← page_rules net page;
              iter rules ≫= for_each Sync.list_rule policy_versions)
           ∅ (seq 0 n).

(** The pages before [n] hold rules. *)
Definition pages_hold_rules (n : nat) (net : nat → Sync.http_outcome) : Prop :=
  ∀ page, (page < n)%nat →
    ∃ rules, page_rules net page = Some rules ∧ truthy rules = true.

(** An entry of the listing comes from a rule of type DATA_QUALITY with a
    true id on some page. *)
Definition listed_from (net : nat → Sync.http_outcome) (pid : string)
    (info : Sync.version_info) : Prop :=
  ∃ page rules item_list item rule rule_id,
    page_rules net page = Some rules ∧ iter rules = Some item_list
    ∧ item ∈ item_list
    ∧ get item "rule" (JObj []) = Some rule
    ∧ get rule "id" PyNone = Some rule_id
    ∧ truthy rule_id = true ∧ str rule_id = pid
    ∧ get rule "type" (JStr "") = Some (JStr "DATA_QUALITY")
    ∧ get rule "version" (JNum 1) = Some (Sync.listed_version info)
    ∧ get rule "name" (JStr "") = Some (Sync.listed_name info).

(** A listing of three pages: two policies, then one, then none. *)
Definition listed_rule (id version : Z) (name kind : string) : json :=
  JObj [("rule", JObj [("id", JNum id); ("version", JNum version);
                        ("name", JStr name); ("type", JStr kind)])].

Definition sample_listing (page : nat) : Sync.http_outcome :=
  Sync.Responded 200
    (Some (JObj [("rules",
                  JArr match page with
                       | 0%nat => [listed_rule 9 3 "orders" "DATA_QUALITY";
                                   listed_rule 12 2 "orders-vs-billing" "EQUALITY"]
                       | 1%nat => [listed_rule 15 1 "customers" "DATA_QUALITY"]
                       | _ => []
                       end)])).

(** A policy of the listing that qualifies for the comparison: its listed
    version is a number above 1. *)
Definition later_version (policy_versions : gmap string Sync.version_info)
    (p : Sync.policy_info) : Prop :=
  ∃ info, policy_versions !! Sync.policy_id p = Some info
          ∧ Sync.listed_version info = JNum (Sync.version p)
          ∧ 1 < Sync.version p
          ∧ Sync.name p = Sync.listed_name info.

(** A listed version that [> 1] cannot be applied to. *)
Definition unordered_version (policy_versions : gmap string Sync.version_info)
    (pid : string) : Prop :=
  ∃ info, policy_versions !! pid = Some info
          ∧ match Sync.listed_version info with
            | JNum _ | JBool _ => False
            | _ => True
            end.

(** ** The harvest of version 1 *)

(** The rows that the harvest derives from one response. *)
Definition response_rows (data : json) : option (list FetchDetails.detail_row) :=
  FetchDetails.process_response [] data.

(** The row that the harvest derives from an item of a policy. *)
Definition detail_of (policy_id policy_name item : json)
  : option FetchDetails.detail_row :=
  rule_id ← get item "id" PyNone;
  rule_type ← get item "measurementType" (JStr "");
  column_name ← Fetch.get_column_name item;
  Some (FetchDetails.mk_detail policy_id policy_name rule_id rule_type column_name).

(** The row that stands for a policy without items. *)
Definition placeholder (policy_id policy_name : json) : FetchDetails.detail_row :=
  FetchDetails.mk_detail policy_id policy_name (JStr "") (JStr "") (JStr "").

(** The response to the request for version 1 of a policy. *)
Definition harvested (net : string → Sync.http_outcome) (pid : string) : json :=
  FetchDetails.fetch_policy_details (net pid).

(** The kinds of check whose key does not depend on a column. *)
Definition keyed_kinds : list string :=
  ["CUSTOM"; "SQL_METRIC"; "UDF_PREDICATE"; "SIZE_CHECK"].

(** The ledger that the synchronisation reads from the harvest of one
    response. *)
Definition harvested_ledger (rows : list FetchDetails.detail_row) : Sync.ledger :=
  Sync.read_existing_csv (FetchDetails.write_results rows).

(** ** Well-formed snapshots *)


(** * Properties *)

(** ** Generic facts about the Python fragment *)

Section PyFacts.

Context {S A : Type}.
Implicit Types (body : S → A → option S) (st : S) (xs ys : list A).

Lemma for_each_app body st xs ys :
  for_each body st (xs ++ ys) = for_each body st xs ≫= λ st', for_each body st' ys.
Proof.
  revert st. induction xs as [|x xs IH]; intros st; simpl; [done|].
  destruct (body st x) as [st'|]; simpl; [apply IH | done].
Qed.

(** An iteration whose body leaves the state alone can be dropped. *)
Lemma for_each_skip body st xs x ys :
  (∀ st', body st' x = Some st') →
  for_each body st (xs ++ x :: ys) = for_each body st (xs ++ ys).
Proof.
  intros Hskip. rewrite !for_each_app.
  destruct (for_each body st xs) as [st'|]; simpl; [|done].
  by rewrite Hskip.
Qed.

End PyFacts.

(** [repr] of text outside ASCII: the no-break space U+00A0 and the soft
    hyphen U+00AD are escaped, the inverted exclamation mark U+00A1 and the
    letter U+00E9 are shown as they are. *)
Fact repr_latin1 :
  let utf8 (lead code : N) := String (ascii_of_N lead) (String (ascii_of_N code) "") in
  repr (JArr [JStr ("a" +:+ utf8 194%N 160%N +:+ "b")]) = "['a\xa0b']"
  ∧ repr_str (utf8 194%N 173%N) = "'\xad'"
  ∧ repr_str (utf8 194%N 161%N) = "'" +:+ utf8 194%N 161%N +:+ "'"
  ∧ repr_str (utf8 195%N 169%N) = "'" +:+ utf8 195%N 169%N +:+ "'".
Proof. vm_compute. done. Qed.

Lemma str_JStr (s : string) : str (JStr s) = s.
Proof. done. Qed.

(** ** Identity keys *)

(** For the kinds keyed by their expression, a missing or empty expression
    hashes to the literal [empty]. *)
Lemma compute_hash_empty (expression : json) :
  truthy expression = false →
  Fetch.compute_hash expression = Some "empty"
  ∧ Sync.compute_hash expression = Some "empty".
Proof.
  intros Hfalse. unfold Fetch.compute_hash, Sync.compute_hash.
  by rewrite Hfalse.
Qed.

(** C9. A CUSTOM or SQL_METRIC check whose [ruleExpression] is absent or
    the empty string gets the key ["CUSTOM-empty"], respectively
    ["SQL_METRIC-empty"], at harvesting time and at synchronisation time
    alike: [compute_hash] answers the five-character literal ["empty"]
    there. Every such check of one kind therefore has the same key. *)
Theorem empty_expression_key (kvs : list (string * json)) (kind : string) :
  kind = "CUSTOM" ∨ kind = "SQL_METRIC" →
  assoc "measurementType" kvs = Some (JStr kind) →
  assoc "ruleExpression" kvs = None ∨ assoc "ruleExpression" kvs = Some (JStr "") →
  Fetch.compute_hash (default (JStr "") (assoc "ruleExpression" kvs)) = Some "empty"
  ∧ Sync.compute_hash (default (JStr "") (assoc "ruleExpression" kvs)) = Some "empty"
  ∧ String.length "empty" = 5%nat
  ∧ Fetch.get_column_name (JObj kvs) = Some (JStr (kind +:+ "-empty"))
  ∧ Sync.get_column_name (JObj kvs) = Some (JStr (kind +:+ "-empty")).
Proof.
  intros Hkind Hmt Hexpr.
  assert (default (JStr "") (assoc "ruleExpression" kvs) = JStr "") as Hre
    by (destruct Hexpr as [-> | ->]; done).
  unfold Fetch.get_column_name, Sync.get_column_name, get.
  rewrite Hmt, Hre. simpl.
  destruct Hkind as [-> | ->]; simpl; done.
Qed.

Lemma empty_expression_key_witness :
  Fetch.get_column_name
    (JObj [("id", JNum 4); ("measurementType", JStr "CUSTOM")])
    = Some (JStr "CUSTOM-empty")
  ∧ Sync.get_column_name
      (JObj [("id", JNum 5); ("measurementType", JStr "SQL_METRIC");
             ("ruleExpression", JStr "")])
    = Some (JStr "SQL_METRIC-empty").
Proof.
  split.
  - apply (empty_expression_key
             [("id", JNum 4); ("measurementType", JStr "CUSTOM")] "CUSTOM");
      [by left | reflexivity | by left].
  - apply (empty_expression_key
             [("id", JNum 5); ("measurementType", JStr "SQL_METRIC");
              ("ruleExpression", JStr "")] "SQL_METRIC");
      [by right | reflexivity | by right].
Defined.

(** The two derivations agree on the four kinds that are keyed by content. *)
Lemma get_column_name_agree_on_kinds (item : json) (kind : string) :
  kind ∈ ["CUSTOM"; "SQL_METRIC"; "UDF_PREDICATE"; "SIZE_CHECK"] →
  get item "measurementType" (JStr "") = Some (JStr kind) →
  Fetch.get_column_name item = Sync.get_column_name item.
Proof.
  intros Hkind Hmt. unfold Fetch.get_column_name, Sync.get_column_name.
  rewrite Hmt. simpl.
  repeat (apply elem_of_cons in Hkind as [-> | Hkind]; [done|]).
  by apply elem_of_nil in Hkind.
Qed.

(** They also agree on a bare column name, when the item has no kind. *)
Lemma get_column_name_agree_bare (kvs : list (string * json)) (column : json) :
  assoc "measurementType" kvs = None →
  assoc "columnName" kvs = Some column →
  truthy column = true →
  Fetch.get_column_name (JObj kvs) = Some column
  ∧ Sync.get_column_name (JObj kvs) = Some column.
Proof.
  intros Hmt Hcol Htrue. unfold Fetch.get_column_name, Sync.get_column_name, get.
  rewrite Hmt, Hcol. simpl. by rewrite Htrue.
Qed.

(** C3. On a column check that has both a kind and a column name, the
    harvesting derivation answers the bare column name while the
    synchronisation derivation answers ["{kind}-{column}"]: the two keys are
    not identical. *)
Theorem column_key_mismatch :
  let item := JObj [("id", JNum 7); ("measurementType", JStr "NOT_NULL");
                    ("columnName", JStr "amount")] in
  Fetch.get_column_name item = Some (JStr "amount")
  ∧ Sync.get_column_name item = Some (JStr "NOT_NULL-amount")
  ∧ Fetch.get_column_name item ≠ Sync.get_column_name item.
Proof. by vm_compute. Qed.

(** ** Failed snapshot fetches *)

Lemma fetch_failed_None (outcome : Sync.http_outcome) :
  fetch_failed outcome = true →
  Sync.fetch_policy_version outcome = PyNone
  ∧ Recon.fetch_policy_version outcome = PyNone.
Proof.
  destruct outcome as [status [body|]|]; simpl; [|by destruct (status =? 200)..|done].
  by destruct (status =? 200).
Qed.

Lemma sync_compare_policy_skip net (st : Sync.ledger) (info : Sync.policy_info) :
  fetch_failed (net (Sync.policy_id info) 1) = true
  ∨ fetch_failed (net (Sync.policy_id info) (Sync.version info)) = true →
  Sync.compare_policy net st info = Some st.
Proof.
  intros [Hf | Hf]; apply fetch_failed_None in Hf as [Hf _];
    unfold Sync.compare_policy; rewrite Hf; simpl; [done|].
  by rewrite orb_true_r.
Qed.

Lemma recon_compare_policy_skip net (st : Recon.ledger) (info : Sync.policy_info) :
  fetch_failed (net (Sync.policy_id info) 1) = true
  ∨ fetch_failed (net (Sync.policy_id info) (Sync.version info)) = true →
  Recon.compare_policy net st info = Some st.
Proof.
  intros [Hf | Hf]; apply fetch_failed_None in Hf as [_ Hf];
    unfold Recon.compare_policy; rewrite Hf; simpl; [done|].
  by rewrite orb_true_r.
Qed.

(** C8. When the fetch of version 1 or of the latest version of a candidate
    policy fails, the comparison of that policy returns normally with the
    ledger as it was (no row appended, no label recorded), and the batch
    goes on as if the policy had not been a candidate: the other policies
    are compared exactly as without it. *)
Theorem failed_fetch_skips_policy net (info : Sync.policy_info)
    (before after : list Sync.policy_info) :
  fetch_failed (net (Sync.policy_id info) 1) = true
  ∨ fetch_failed (net (Sync.policy_id info) (Sync.version info)) = true →
  (∀ st, Sync.compare_policy net st info = Some st)
  ∧ (∀ st, Sync.compare_policies net st (before ++ info :: after)
           = Sync.compare_policies net st (before ++ after))
  ∧ (∀ st, Recon.compare_policy net st info = Some st)
  ∧ (∀ st, Recon.compare_policies net st (before ++ info :: after)
           = Recon.compare_policies net st (before ++ after)).
Proof.
  intros Hfail. split_and!.
  - intros st. by apply sync_compare_policy_skip.
  - intros st. apply for_each_skip. intros st'. by apply sync_compare_policy_skip.
  - intros st. by apply recon_compare_policy_skip.
  - intros st. apply for_each_skip. intros st'. by apply recon_compare_policy_skip.
Qed.

Lemma failed_fetch_skips_policy_witness :
  let st := Sync.mk_ledger [] ∅ ∅ in
  let info := Sync.mk_policy "P1" 3 (JStr "orders") in
  Sync.compare_policy baseline_unreachable st info = Some st
  ∧ Sync.compare_policies baseline_unreachable st ([] ++ info :: [])
    = Sync.compare_policies baseline_unreachable st ([] ++ []).
Proof.
  intros st info.
  destruct (failed_fetch_skips_policy baseline_unreachable info [] [])
    as (Hone & Hall & _).
  - left. reflexivity.
  - split; [apply Hone | apply Hall].
Defined.

(** ** The ledger *)

(** C1. The quality-rule pipeline guards the ledger by rule id, not by
    [(policy, key)]: with [(P1, SIZE_CHECK)] already recorded under rule id
    50, a later run that sees the same check under the new id 72 appends a
    second row for [(P1, SIZE_CHECK)] and replaces the recorded id by 72. *)
Theorem sync_ledger_overwritten :
  let st := Sync.read_existing_csv ledger_after_v2 in
  sync_original_id st "P1" (HStr "SIZE_CHECK") = Some (JStr "50")
  ∧ ∃ st', Sync.compare_policy orders_net st (Sync.mk_policy "P1" 3 (JStr "orders"))
           = Some st'
     ∧ Sync.new_rules_added st'
       = [Sync.mk_row "P1" (JStr "orders") (JNum 72) (JStr "SIZE_CHECK")
                      (JStr "SIZE_CHECK")]
     ∧ sync_original_id st' "P1" (HStr "SIZE_CHECK") = Some (JNum 72).
Proof.
  split; [by vm_compute|].
  eexists. split_and!; [reflexivity | by vm_compute..].
Qed.

Lemma recon_set_label_lookup pid key v labels pid' key' :
  (Recon.set_label pid key v labels !! pid' ≫= λ m, m !! key')
  = if decide (pid' = pid ∧ key' = key) then Some v
    else labels !! pid' ≫= λ m, m !! key'.
Proof.
  unfold Recon.set_label.
  destruct (decide (pid = pid')) as [<- | Hpid].
  - rewrite lookup_insert_eq. simpl.
    destruct (decide (key = key')) as [<- | Hkey].
    + rewrite lookup_insert_eq. by rewrite decide_True.
    + rewrite lookup_insert_ne by done.
      rewrite decide_False by (intros [_ ?]; done).
      by destruct (labels !! pid).
  - rewrite lookup_insert_ne by done.
    by rewrite decide_False by (intros [? _]; done).
Qed.

Lemma recon_read_row_inv keys labels row :
  (∀ pid key v, (labels !! pid ≫= λ m, m !! key) = Some v →
                Recon.full_key pid key ∈ keys) →
  ∀ pid key v,
    ((Recon.read_row (keys, labels) row).2 !! pid ≫= λ m, m !! key) = Some v →
    Recon.full_key pid key ∈ (Recon.read_row (keys, labels) row).1.
Proof.
  intros Hinv pid key v. unfold Recon.read_row.
  destruct (_ && _ && _); [|by apply Hinv].
  destruct (Sync.nonempty _); simpl.
  - rewrite recon_set_label_lookup. case_decide as Heq.
    + destruct Heq as [-> ->]. set_solver.
    + intros Hv. apply Hinv in Hv. set_solver.
  - intros Hv. apply Hinv in Hv. set_solver.
Qed.

Lemma recon_read_existing_csv_inv (rows : list Recon.csv_row) :
  recon_ledger_inv (Recon.read_existing_csv rows).
Proof.
  unfold Recon.read_existing_csv.
  assert (∀ acc : gset string * gmap string (gmap string json),
    (∀ pid key v, (acc.2 !! pid ≫= λ m, m !! key) = Some v →
                  Recon.full_key pid key ∈ acc.1) →
    ∀ pid key v,
      ((fold_left Recon.read_row rows acc).2 !! pid ≫= λ m, m !! key) = Some v →
      Recon.full_key pid key ∈ (fold_left Recon.read_row rows acc).1) as Hfold.
  { induction rows as [|row rows IH]; intros [keys labels] Hacc; simpl; [done|].
    apply IH. by apply recon_read_row_inv. }
  specialize (Hfold (∅, ∅)).
  destruct (fold_left Recon.read_row rows (∅, ∅)) as [keys labels].
  intros pid key v Hv. apply (Hfold ltac:(done) pid key v Hv).
Qed.

(** One discovered mapping: a pair that is recorded keeps its rule id, and a
    row is appended only for a pair that is not recorded. *)
Lemma recon_add_new_mapping_keeps pid (st : Recon.ledger) (row : Recon.mapping_row) :
  recon_ledger_inv st →
  let st' := Recon.add_new_mapping pid st row in
  recon_ledger_inv st'
  ∧ (∀ pid' key v, recon_original_id st pid' key = Some v →
                   recon_original_id st' pid' key = Some v)
  ∧ (is_Some (recon_original_id st pid
                (Recon.get_column_key (Recon.Left_Column_Name row)
                                      (Recon.Right_Column_Name row))) →
     st' = st).
Proof.
  intros Hinv. destruct st as [added keys labels]. simpl.
  set (key := Recon.get_column_key _ _).
  case_bool_decide as Hfresh; [|done].
  split_and!.
  - intros pid' key' v. unfold recon_original_id. simpl.
    rewrite recon_set_label_lookup. case_decide as Heq.
    + destruct Heq as [-> ->]. set_solver.
    + intros Hv. apply Hinv in Hv. simpl in Hv. set_solver.
  - intros pid' key' v Hv. unfold recon_original_id. simpl.
    rewrite recon_set_label_lookup. rewrite decide_False; [done|].
    intros [-> ->]. apply Hinv in Hv. done.
  - intros [v Hv]. apply Hinv in Hv. done.
Qed.

Lemma recon_add_new_mappings_keep pid (rows : list Recon.mapping_row)
    (st : Recon.ledger) :
  recon_ledger_inv st →
  recon_ledger_inv (fold_left (Recon.add_new_mapping pid) rows st)
  ∧ ∀ pid' key v, recon_original_id st pid' key = Some v →
      recon_original_id (fold_left (Recon.add_new_mapping pid) rows st) pid' key
      = Some v.
Proof.
  revert st. induction rows as [|row rows IH]; intros st Hinv; simpl; [done|].
  destruct (recon_add_new_mapping_keeps pid st row Hinv) as (Hinv' & Hkeep & _).
  destruct (IH _ Hinv') as [Hinv'' Hkeep'']. split; [done|].
  intros pid' key v Hv. by apply Hkeep'', Hkeep.
Qed.

(** Ledger monotonicity of the reconciliation pipeline: no comparison pass
    changes the rule id recorded for a [(policy, key)] pair. *)
Lemma recon_ledger_monotone net (policies : list Sync.policy_info)
    (st st' : Recon.ledger) :
  recon_ledger_inv st →
  Recon.compare_policies net st policies = Some st' →
  recon_ledger_inv st'
  ∧ ∀ pid key v, recon_original_id st pid key = Some v →
                 recon_original_id st' pid key = Some v.
Proof.
  unfold Recon.compare_policies.
  revert st. induction policies as [|info policies IH]; intros st Hinv Hrun;
    simpl in Hrun; [by simplify_eq|].
  destruct (Recon.compare_policy net st info) as [st1|] eqn:Hone; [|done].
  simpl in Hrun.
  assert (recon_ledger_inv st1
    ∧ ∀ pid key v, recon_original_id st pid key = Some v →
                   recon_original_id st1 pid key = Some v) as [Hinv1 Hkeep1].
  { unfold Recon.compare_policy in Hone.
    destruct (_ || _); [by simplify_eq|].
    apply bind_Some in Hone as (v1_info & _ & Hone).
    apply bind_Some in Hone as (latest_info & _ & Hone).
    apply bind_Some in Hone as (rows & _ & Hone).
    simplify_eq. by apply recon_add_new_mappings_keep. }
  destruct (IH st1 Hinv1 Hrun) as [Hinv' Hkeep']. split; [done|].
  intros pid key v Hv. by apply Hkeep', Hkeep1.
Qed.

(** ** The version diff against an empty baseline *)

(** Case analysis along the branches of a modelled function. *)
Ltac py_step :=
  match goal with
  | H : None = Some _ |- _ => discriminate H
  | H : Some _ = Some _ |- _ => apply (inj Some) in H
  | H : _ ≫= _ = Some _ |- _ => apply bind_Some in H as (? & ? & H)
  | H : _ <$> _ = Some _ |- _ => apply fmap_Some in H as (? & ? & ?)
  | H : context [if ?c then _ else _] |- _ => destruct c eqn:?
  | |- context [if ?c then _ else _] => destruct c eqn:?
  end.

Ltac py_cases := repeat (simpl in *; subst; try py_step).

Lemma in_set_empty v b : in_set v ∅ = Some b → b = false.
Proof.
  unfold in_set. destruct (to_hkey v); simpl; [|done].
  intros [= <-]. apply bool_decide_eq_false. set_solver.
Qed.

Lemma is_new_rule_empty_baseline its item b :
  Sync.is_new_rule (empty_info its) item = Some b → b = carries_compared_field item.
Proof.
  unfold Sync.is_new_rule, empty_info, carries_compared_field.
  destruct item as [| | | | |kvs]; [done..|]. simpl.
  generalize (default (JStr "") (assoc "measurementType" kvs)) as kind.
  generalize (default (JStr "") (assoc "ruleExpression" kvs)) as expression.
  generalize (default (JStr "") (assoc "columnName" kvs)) as column.
  generalize (default (JObj []) (assoc "value" kvs)) as value.
  intros value column expression kind Hnew.
  destruct (eq_str kind "CUSTOM"), (eq_str kind "SQL_METRIC"),
    (eq_str kind "UDF_PREDICATE"), (eq_str kind "SIZE_CHECK");
    simpl in *;
    try (destruct value as [| | | | |fields]; simpl in *);
    py_cases;
    repeat match goal with
           | H : in_set _ ∅ = Some _ |- _ => apply in_set_empty in H as ->
           end;
    simpl in *; try done; try congruence.
Qed.

Lemma extract_item_keeps_items info item info' :
  Sync.extract_item info item = Some info' → Sync.items info' = Sync.items info.
Proof.
  unfold Sync.extract_item. destruct info. intros H. py_cases; done.
Qed.

Lemma extract_items_keeps_items item_list info info' :
  for_each Sync.extract_item info item_list = Some info' →
  Sync.items info' = Sync.items info.
Proof.
  revert info. induction item_list as [|item item_list IH]; intros info H;
    simpl in H; [by simplify_eq|].
  apply bind_Some in H as (info1 & H1 & H).
  rewrite (IH _ H). by eapply extract_item_keeps_items.
Qed.

(** A snapshot without items yields empty presence sets. *)
Lemma extract_empty_baseline baseline v1_info :
  Sync.extract_items_info baseline = Some v1_info →
  iter (Sync.items v1_info) = Some [] →
  v1_info = empty_info (Sync.items v1_info).
Proof.
  unfold Sync.extract_items_info. intros H Hempty.
  apply bind_Some in H as (details & _ & H).
  apply bind_Some in H as (its & _ & H).
  apply bind_Some in H as (item_list & Hiter & H).
  pose proof (extract_items_keeps_items _ _ _ H) as Hits. simpl in Hits.
  rewrite Hits in Hempty. rewrite Hempty in Hiter. simplify_eq.
  simpl in H. by simplify_eq.
Qed.

Lemma find_new_rule_empty_baseline its pid name acc item acc' :
  Sync.find_new_rule (empty_info its) pid name acc item = Some acc' →
  ∃ new, acc' = (acc ++ new)%list
         ∧ mapM (row_of pid name) (List.filter carries_compared_field [item])
           = Some new.
Proof.
  unfold Sync.find_new_rule, row_of. intros H.
  apply bind_Some in H as (kind & Hkind & H).
  apply bind_Some in H as (rule_id & Hid & H).
  apply bind_Some in H as (is_new & Hnew & H).
  apply is_new_rule_empty_baseline in Hnew as ->. simpl.
  destruct (carries_compared_field item).
  - apply bind_Some in H as (key & Hkey & H). simplify_eq.
    eexists. split; [done|]. simpl. by rewrite Hkind, Hid, Hkey.
  - simplify_eq. exists []. by rewrite app_nil_r.
Qed.

Lemma mapM_app_Some {A B : Type} (f : A → option B) (xs ys : list A) xs' ys' :
  mapM f xs = Some xs' → mapM f ys = Some ys' →
  mapM f (xs ++ ys) = Some (xs' ++ ys')%list.
Proof.
  rewrite !mapM_Some. apply Forall2_app.
Qed.

Lemma filter_cons_app {A : Type} (p : A → bool) (x : A) (xs : list A) :
  List.filter p (x :: xs) = (List.filter p [x] ++ List.filter p xs)%list.
Proof. simpl. by destruct (p x). Qed.

Lemma find_new_rules_empty_baseline its pid name item_list acc rows :
  for_each (Sync.find_new_rule (empty_info its) pid name) acc item_list = Some rows →
  ∃ new, rows = (acc ++ new)%list
         ∧ mapM (row_of pid name) (List.filter carries_compared_field item_list)
           = Some new.
Proof.
  revert acc. induction item_list as [|item item_list IH]; intros acc H.
  - simpl in H. simplify_eq. exists []. by rewrite app_nil_r.
  - simpl in H. apply bind_Some in H as (acc1 & H1 & H).
    apply find_new_rule_empty_baseline in H1 as (new1 & -> & Hnew1).
    apply IH in H as (new & -> & Hnew).
    exists (new1 ++ new)%list. split; [by rewrite app_assoc|].
    rewrite filter_cons_app. by apply mapM_app_Some.
Qed.

(** *** Well-formed check items: the diff returns *)

Lemma hashable_to_hkey v : hashable v = true → is_Some (to_hkey v).
Proof. destruct v; simpl; eauto; done. Qed.

Lemma optional_text_hashable v : optional_text v = true → hashable v = true.
Proof. by destruct v. Qed.

Lemma in_set_total v s : hashable v = true → is_Some (in_set v s).
Proof.
  intros [k Hk]%hashable_to_hkey. unfold in_set. rewrite Hk. simpl. eauto.
Qed.

Lemma set_add_total v s : hashable v = true → is_Some (set_add v s).
Proof.
  intros [k Hk]%hashable_to_hkey. unfold set_add. rewrite Hk. simpl. eauto.
Qed.

Lemma compute_hash_total expression :
  optional_text expression = true → is_Some (Sync.compute_hash expression).
Proof.
  unfold Sync.compute_hash. destruct expression; try done; simpl; eauto.
  destruct (negb _); eauto.
Qed.

(** The key of a well-formed item is a non-empty string. *)
Lemma get_column_name_total item :
  check_item_ok item = true →
  ∃ key, Sync.get_column_name item = Some (JStr key) ∧ key ≠ "".
Proof.
  destruct item as [| | | | |kvs]; [done..|].
  unfold check_item_ok, Sync.get_column_name. simpl.
  generalize (default (JStr "") (assoc "measurementType" kvs)) as kind.
  generalize (default (JStr "") (assoc "ruleExpression" kvs)) as expression.
  generalize (default (JStr "") (assoc "columnName" kvs)) as column.
  generalize (default (JObj []) (assoc "value" kvs)) as value.
  intros value column expression kind Hok.
  apply andb_prop in Hok as [Hok Hvalue].
  apply andb_prop in Hok as [Hok Hexpr].
  apply andb_prop in Hok as [Hkind Hcol].
  destruct (compute_hash_total _ Hexpr) as [h Hh].
  destruct (eq_str kind "CUSTOM"); simpl.
  { rewrite Hh. simpl. eauto. }
  destruct (eq_str kind "SQL_METRIC"); simpl.
  { rewrite Hh. simpl. eauto. }
  destruct (eq_str kind "UDF_PREDICATE"); simpl.
  { simpl in Hvalue. destruct value; simpl in *; try done; py_cases; try done; eauto. }
  destruct (eq_str kind "SIZE_CHECK"); simpl; [eauto|].
  unfold py_or.
  destruct kind as [| | |[|c kind]| |], column as [| | |[|c' column]| |];
    try done; simpl; eauto.
  all: eexists; split; [done|]; done.
Qed.

Lemma for_each_total {S A : Type} (body : S → A → option S) (ok : A → bool)
    (xs : list A) (st : S) :
  (∀ st x, ok x = true → is_Some (body st x)) →
  forallb ok xs = true →
  is_Some (for_each body st xs).
Proof.
  intros Hbody. revert st. induction xs as [|x xs IH]; intros st Hok; simpl.
  - eauto.
  - simpl in Hok. apply andb_prop in Hok as [Hx Hxs].
    destruct (Hbody st x Hx) as [st' ->]. simpl. by apply IH.
Qed.

Lemma is_new_rule_total v1_info item :
  check_item_ok item = true → is_Some (Sync.is_new_rule v1_info item).
Proof.
  destruct item as [| | | | |kvs]; [done..|].
  unfold check_item_ok, Sync.is_new_rule. simpl.
  generalize (default (JStr "") (assoc "measurementType" kvs)) as kind.
  generalize (default (JStr "") (assoc "ruleExpression" kvs)) as expression.
  generalize (default (JStr "") (assoc "columnName" kvs)) as column.
  generalize (default (JObj []) (assoc "value" kvs)) as value.
  intros value column expression kind Hok.
  apply andb_prop in Hok as [Hok Hvalue].
  apply andb_prop in Hok as [Hok Hexpr%optional_text_hashable].
  apply andb_prop in Hok as [Hkind Hcol%optional_text_hashable].
  destruct (in_set_total expression (Sync.custom_expressions v1_info) Hexpr)
    as [? Hin1].
  destruct (in_set_total expression (Sync.sql_metric_expressions v1_info) Hexpr)
    as [? Hin2].
  destruct (in_set_total column (Sync.column_names v1_info) Hcol) as [? Hin3].
  rewrite Hin1, Hin2, Hin3.
  destruct (eq_str kind "CUSTOM"); simpl.
  { destruct (truthy expression); simpl; py_cases; eauto. }
  destruct (eq_str kind "SQL_METRIC"); simpl.
  { destruct (truthy expression); simpl; eauto. }
  destruct (eq_str kind "UDF_PREDICATE"); simpl.
  { simpl in Hvalue. destruct value as [| | | | |fields]; simpl in *;
      py_cases; try done; eauto.
    match goal with
    | |- context [in_set ?v ?s] => destruct (in_set_total v s Hvalue) as [? ->]
    end.
    simpl. eauto. }
  destruct (eq_str kind "SIZE_CHECK"); simpl; [eauto|].
  destruct (truthy column); simpl; eauto.
Qed.

Lemma extract_item_total info item :
  check_item_ok item = true → is_Some (Sync.extract_item info item).
Proof.
  destruct item as [| | | | |kvs]; [done..|]. destruct info.
  unfold check_item_ok, Sync.extract_item. simpl.
  generalize (default (JStr "") (assoc "measurementType" kvs)) as kind.
  generalize (default (JStr "") (assoc "ruleExpression" kvs)) as expression.
  generalize (default (JStr "") (assoc "columnName" kvs)) as column.
  generalize (default (JObj []) (assoc "value" kvs)) as value.
  intros value column expression kind Hok.
  apply andb_prop in Hok as [Hok Hvalue].
  apply andb_prop in Hok as [Hok Hexpr%optional_text_hashable].
  apply andb_prop in Hok as [Hkind Hcol%optional_text_hashable].
  destruct (set_add_total expression custom_expressions Hexpr) as [? Hadd1].
  destruct (set_add_total expression sql_metric_expressions Hexpr) as [? Hadd2].
  destruct (set_add_total column column_names Hcol) as [? Hadd3].
  rewrite Hadd1, Hadd2, Hadd3.
  destruct (eq_str kind "CUSTOM"); simpl.
  { destruct (truthy expression); simpl; eauto. }
  destruct (eq_str kind "SQL_METRIC"); simpl.
  { destruct (truthy expression); simpl; eauto. }
  destruct (eq_str kind "UDF_PREDICATE"); simpl.
  { simpl in Hvalue. destruct value as [| | | | |fields]; simpl in *;
      py_cases; try done; eauto.
    match goal with
    | |- context [set_add ?v ?s] => destruct (set_add_total v s Hvalue) as [? ->]
    end.
    simpl. eauto. }
  destruct (eq_str kind "SIZE_CHECK"); simpl; [eauto|].
  destruct (truthy column); simpl; eauto.
Qed.

Lemma find_new_rule_total v1_info pid name acc item :
  check_item_ok item = true →
  is_Some (Sync.find_new_rule v1_info pid name acc item).
Proof.
  intros Hok. unfold Sync.find_new_rule.
  destruct (is_new_rule_total v1_info item Hok) as [is_new ->].
  destruct (get_column_name_total item Hok) as (key & -> & _).
  destruct item as [| | | | |kvs]; [done..|]. simpl.
  destruct is_new; simpl; eauto.
Qed.

Lemma extract_items_info_total data item_list :
  snapshot_items data = Some (JArr item_list) →
  forallb check_item_ok item_list = true →
  ∃ info, Sync.extract_items_info data = Some info
          ∧ Sync.items info = JArr item_list.
Proof.
  unfold snapshot_items, Sync.extract_items_info. intros Hitems Hok.
  apply bind_Some in Hitems as (details & Hdetails & Hitems).
  rewrite Hdetails. simpl. rewrite Hitems. simpl.
  destruct (for_each_total Sync.extract_item check_item_ok item_list
              (Sync.mk_info ∅ ∅ ∅ ∅ false (JArr item_list))
              (λ st x, extract_item_total st x) Hok)
    as [info Hinfo].
  exists info. split; [done|].
  by apply extract_items_keeps_items in Hinfo.
Qed.

(** A CUSTOM check without expression is not reported, even against an
    empty baseline. *)
Lemma unkeyed_item_is_not_new :
  let baseline := sample_snapshot [] in
  let item := JObj [("id", JNum 5); ("measurementType", JStr "CUSTOM")] in
  let latest := sample_snapshot [item] in
  (v1_info ← Sync.extract_items_info baseline;
   Sync.is_new_rule v1_info item) = Some false
  ∧ (v1_info ← Sync.extract_items_info baseline;
     latest_info ← Sync.extract_items_info latest;
     Sync.find_new_rules v1_info latest_info "P1" (JStr "orders")) = Some []
  ∧ ¬ every_latest_item_is_new.
Proof.
  split_and!; [by vm_compute..|].
  intros Hclaim.
  specialize (Hclaim (sample_snapshot []) (empty_info (JArr []))
                (JObj [("id", JNum 5); ("measurementType", JStr "CUSTOM")])
                eq_refl eq_refl eq_refl).
  by vm_compute in Hclaim.
Qed.

(** C4 (amended). Against a baseline snapshot without items, the diff
    reports exactly the items of the latest snapshot that carry the field
    compared for their kind, in order, each with its own id, kind and key;
    on well-formed items the diff always returns. An item without that
    field (a CUSTOM or SQL_METRIC check without expression, a UDF_PREDICATE
    check without [udfId], a column check without column name) is not
    reported. *)
Theorem empty_baseline_new_rules (baseline : json) (v1_info : Sync.items_info)
    (pid : string) (name : json) :
  Sync.extract_items_info baseline = Some v1_info →
  iter (Sync.items v1_info) = Some [] →
  (∀ latest_info item_list rows,
     iter (Sync.items latest_info) = Some item_list →
     Sync.find_new_rules v1_info latest_info pid name = Some rows →
     mapM (row_of pid name) (List.filter carries_compared_field item_list)
     = Some rows)
  ∧ (∀ latest item_list,
       snapshot_items latest = Some (JArr item_list) →
       forallb check_item_ok item_list = true →
       ∃ latest_info rows,
         Sync.extract_items_info latest = Some latest_info
         ∧ Sync.find_new_rules v1_info latest_info pid name = Some rows
         ∧ mapM (row_of pid name) (List.filter carries_compared_field item_list)
           = Some rows).
Proof.
  intros Hbase Hempty.
  rewrite (extract_empty_baseline _ _ Hbase Hempty).
  assert (∀ latest_info item_list rows,
     iter (Sync.items latest_info) = Some item_list →
     Sync.find_new_rules (empty_info (Sync.items v1_info)) latest_info pid name
       = Some rows →
     mapM (row_of pid name) (List.filter carries_compared_field item_list)
     = Some rows) as Hpartial.
  { intros latest_info item_list rows Hiter Hfind.
    unfold Sync.find_new_rules in Hfind. rewrite Hiter in Hfind. simpl in Hfind.
    by apply find_new_rules_empty_baseline in Hfind as (new & -> & Hnew). }
  split; [done|].
  intros latest item_list Hitems Hok.
  destruct (extract_items_info_total latest item_list Hitems Hok)
    as (latest_info & Hlatest & Hlist).
  destruct (for_each_total
              (Sync.find_new_rule (empty_info (Sync.items v1_info)) pid name)
              check_item_ok item_list []
              (λ acc item, find_new_rule_total _ pid name acc item) Hok)
    as [rows Hrows].
  exists latest_info, rows.
  assert (Sync.find_new_rules (empty_info (Sync.items v1_info)) latest_info
            pid name = Some rows) as Hfind.
  { unfold Sync.find_new_rules. rewrite Hlist. simpl. done. }
  split_and!; [done..|].
  apply (Hpartial latest_info); [by rewrite Hlist | done].
Qed.

Lemma empty_baseline_new_rules_witness :
  let item1 := JObj [("id", JNum 5); ("measurementType", JStr "CUSTOM")] in
  let item2 := JObj [("id", JNum 6); ("measurementType", JStr "NOT_NULL");
                     ("columnName", JStr "amount")] in
  ∃ latest_info rows,
    Sync.extract_items_info (sample_snapshot [item1; item2]) = Some latest_info
    ∧ Sync.find_new_rules (empty_info (JArr [])) latest_info "P1" (JStr "orders")
      = Some rows
    ∧ mapM (row_of "P1" (JStr "orders"))
           (List.filter carries_compared_field [item1; item2])
      = Some rows.
Proof.
  intros item1 item2.
  apply (empty_baseline_new_rules (sample_snapshot []) (empty_info (JArr []))
           "P1" (JStr "orders") eq_refl eq_refl);
    reflexivity.
Defined.

(** ** Label reconciliation *)

Lemma assoc_cons k k' v rest :
  assoc k ((k', v) :: rest) = if String.eqb k k' then Some v else assoc k rest.
Proof. done. Qed.

Lemma assoc_nil k : assoc k [] = None.
Proof. done. Qed.

(** Evaluation of a lookup in a dict display. *)
Ltac assoc_eval :=
  repeat first [rewrite assoc_cons | rewrite assoc_nil]; simpl.

Lemma update_item_unfold ov lm added skipped removed updated kvs :
  Sync.update_item ov lm (Sync.mk_build added skipped removed updated) (JObj kvs)
  = (key ← Sync.get_column_name (JObj kvs);
     let existing := default (JArr []) (assoc "labels" kvs) in
     keys ← Sync.label_key_set existing;
     r ← Sync.relabel ov lm key existing keys added skipped removed;
     labels ← Sync.key_value_labels r.1.1.1;
     Some (Sync.mk_build r.1.1.2 r.1.2 r.2
             (updated ++ [rebuilt_item kvs labels]))).
Proof.
  unfold Sync.update_item, rebuilt_item.
  destruct (Sync.get_column_name (JObj kvs)) as [key|]; simpl; [|done].
  destruct (Sync.label_key_set _) as [keys|]; simpl; [|done].
  destruct (Sync.relabel _ _ _ _ _ _ _ _) as [[[[existing' a'] s'] r']|]; simpl; [|done].
  destruct (Sync.key_value_labels existing') as [labels|]; simpl; [|done].
  unfold dict_of. simpl.
  by destruct (truthy (default PyNone (assoc "ruleExpression" kvs))).
Qed.

Lemma update_item_not_dict ov lm st item :
  (∀ kvs, item ≠ JObj kvs) → Sync.update_item ov lm st item = None.
Proof.
  intros Hnd. unfold Sync.update_item. destruct st.
  destruct item; try done. by destruct (Hnd kvs).
Qed.

(** The key only depends on the content that is copied to the payload: the
    rebuilt item has the key of the fetched item. *)
Lemma rebuilt_item_key kvs labels :
  Sync.get_column_name (rebuilt_item kvs labels) = Sync.get_column_name (JObj kvs).
Proof.
  unfold Sync.get_column_name, Sync.compute_hash, rebuilt_item, py_or. simpl.
  destruct (truthy (default PyNone (assoc "ruleExpression" kvs))) eqn:Hexpr;
    simpl; assoc_eval;
    destruct (assoc "measurementType" kvs) as [kind|],
             (assoc "columnName" kvs) as [column|],
             (assoc "ruleExpression" kvs) as [expression|],
             (assoc "value" kvs) as [value|];
    simpl in *; rewrite ?Hexpr, ?andb_false_r; simpl; try done.
  all: repeat match goal with
              | |- context [if ?c then _ else _] => destruct c; try done
              end.
Qed.

(** Every key is a true value: it can be found again among the label keys. *)
Lemma get_column_name_truthy item key :
  Sync.get_column_name item = Some key → truthy key = true.
Proof.
  destruct item as [| | | | |kvs]; [done..|].
  unfold Sync.get_column_name, py_or. simpl.
  generalize (default (JStr "") (assoc "measurementType" kvs)) as kind.
  generalize (default (JStr "") (assoc "columnName" kvs)) as column.
  intros column kind Hkey. py_cases; try done.
  all: repeat match goal with
              | H : _ && _ = true |- _ => apply andb_prop in H as [? ?]
              end.
  all: by destruct (str kind).
Qed.

(** Rebuilding a rebuilt item changes nothing but the labels. *)
Lemma rebuilt_item_again kvs labels :
  ∃ kvs1, rebuilt_item kvs labels = JObj kvs1
          ∧ assoc "labels" kvs1 = Some (JArr labels)
          ∧ ∀ labels', rebuilt_item kvs1 labels' = rebuilt_item kvs labels'.
Proof.
  unfold rebuilt_item.
  destruct (truthy (default PyNone (assoc "ruleExpression" kvs))) eqn:Hexpr;
    eexists; (split; [reflexivity|]); (split; [reflexivity|]);
    intros labels'; simpl; assoc_eval; by rewrite ?Hexpr.
Qed.

(** *** Label keys and label copies *)

Lemma label_key_set_list labels :
  Sync.label_key_set (JArr labels) = for_each add_label_key ∅ labels.
Proof. done. Qed.

Lemma key_value_labels_list labels :
  Sync.key_value_labels (JArr labels) = mapM key_value labels.
Proof. done. Qed.

Lemma for_each_cons {S A : Type} (body : S → A → option S) st x xs :
  for_each body st (x :: xs) = body st x ≫= λ st', for_each body st' xs.
Proof. done. Qed.

Lemma add_label_key_acc label acc keys :
  add_label_key acc label = Some keys ↔
  ∃ keys0, add_label_key ∅ label = Some keys0 ∧ keys = keys0 ∪ acc.
Proof.
  unfold add_label_key, set_add.
  destruct (get label "key" PyNone) as [k|]; simpl;
    [|split; [done | by intros (? & ? & ?)]].
  destruct (truthy k).
  - destruct (to_hkey k) as [h|]; simpl;
      [|split; [done | by intros (? & ? & ?)]].
    split.
    + intros [= <-]. eexists. split; [done|]. set_solver.
    + intros (? & [= <-] & ->). f_equal. set_solver.
  - split.
    + intros [= <-]. eexists. split; [done|]. set_solver.
    + intros (? & [= <-] & ->). f_equal. set_solver.
Qed.

(** The accumulator of the key set can be added afterwards. *)
Lemma add_label_keys_acc labels acc keys :
  for_each add_label_key acc labels = Some keys ↔
  ∃ keys0, for_each add_label_key ∅ labels = Some keys0 ∧ keys = keys0 ∪ acc.
Proof.
  revert acc keys. induction labels as [|label labels IH]; intros acc keys.
  - simpl. split.
    + intros [= <-]. exists ∅. split; [done|]. set_solver.
    + intros (? & [= <-] & ->). f_equal. set_solver.
  - rewrite !for_each_cons. split.
    + intros (keys1 & Hkeys1 & Hrest)%bind_Some.
      apply add_label_key_acc in Hkeys1 as (keys0 & Hkeys0 & ->).
      apply IH in Hrest as (keys2 & Hkeys2 & ->).
      rewrite Hkeys0. simpl.
      exists (keys2 ∪ keys0). split; [|set_solver].
      apply IH. exists keys2. split; [done|set_solver].
    + intros (keys1 & (keys0 & Hkeys0 & Hrest)%bind_Some & ->).
      apply IH in Hrest as (keys2 & Hkeys2 & ->).
      assert (add_label_key acc label = Some (keys0 ∪ acc)) as ->
        by (apply add_label_key_acc; eauto).
      simpl. apply IH. exists keys2. split; [done|set_solver].
Qed.

Lemma key_value_inv label label' :
  key_value label = Some label' →
  ∃ fields, label = JObj fields
            ∧ label' = JObj [("key", default PyNone (assoc "key" fields));
                             ("value", default PyNone (assoc "value" fields))].
Proof.
  destruct label as [| | | | |fields]; [done..|].
  unfold key_value, dict_of. simpl. intros [= <-]. eauto.
Qed.

(** A copy has the key of its label, and is its own copy. *)
Lemma key_value_copy label label' :
  key_value label = Some label' →
  key_value label' = Some label'
  ∧ ∀ keys, add_label_key keys label' = add_label_key keys label.
Proof.
  intros (fields & -> & ->)%key_value_inv. split; [done|].
  intros keys. unfold add_label_key. simpl. by assoc_eval.
Qed.

Lemma key_value_labels_copy labels labels' :
  mapM key_value labels = Some labels' →
  mapM key_value labels' = Some labels'
  ∧ ∀ keys, for_each add_label_key keys labels'
            = for_each add_label_key keys labels.
Proof.
  rewrite mapM_Some. induction 1 as [|label label' labels labels' Hcopy _ [IH1 IH2]].
  - done.
  - apply key_value_copy in Hcopy as [Hcopy Hkey]. split.
    + apply mapM_Some. constructor; [done|]. by apply mapM_Some.
    + intros keys. simpl. rewrite Hkey.
      destruct (add_label_key keys label); simpl; [apply IH2|done].
Qed.

Lemma new_label_copy key rule_id :
  key_value (new_label key rule_id) = Some (new_label key rule_id).
Proof. done. Qed.

Lemma new_label_key key rule_id keys h :
  truthy key = true → to_hkey key = Some h →
  add_label_key keys (new_label key rule_id) = Some ({[h]} ∪ keys).
Proof.
  intros Htrue Hh. unfold add_label_key, new_label. simpl. assoc_eval.
  rewrite Htrue. unfold set_add. by rewrite Hh.
Qed.

(** *** The label block *)

#[local] Arguments Sync.relabel : simpl never.
#[local] Arguments rebuilt_item : simpl never.

Lemma relabel_unhashable ov lm key existing keys a s r :
  to_hkey key = None → Sync.relabel ov lm key existing keys a s r = None.
Proof.
  intros Hkey. unfold Sync.relabel, in_dict. rewrite Hkey.
  destruct ov; simpl; [|done].
  destruct (truthy existing); simpl; [|done].
  by destruct (Sync.label_key_list existing).
Qed.

Lemma relabel_normal lm key existing keys a s r h :
  to_hkey key = Some h →
  Sync.relabel false lm key existing keys a s r =
  match lm !! h with
  | None => Some (existing, a, s, r)
  | Some rule_id =>
      if bool_decide (h ∈ keys) then Some (existing, a, (s ++ [key])%list, r)
      else (λ labels, (labels, (a ++ [key])%list, s, r))
             <$> append existing (new_label key rule_id)
  end.
Proof.
  intros Hkey. unfold Sync.relabel, in_dict, getitem, in_set. rewrite Hkey. simpl.
  destruct (lm !! h) as [rule_id|] eqn:Hlm; simpl.
  - destruct (bool_decide (h ∈ keys)); [done|].
    by destruct (append existing _).
  - done.
Qed.

Lemma relabel_override lm key existing keys a s r h :
  to_hkey key = Some h →
  Sync.relabel true lm key existing keys a s r =
  (removed ← (if truthy existing
              then ks ← Sync.label_key_list existing; Some (r ++ ks)%list
              else Some r);
   match lm !! h with
   | None => Some (JArr [], a, s, removed)
   | Some rule_id =>
       Some (JArr [new_label key rule_id], (a ++ [key])%list, s, removed)
   end).
Proof.
  intros Hkey. unfold Sync.relabel, in_dict, getitem. rewrite Hkey. simpl.
  destruct (if truthy existing then _ else _) as [removed|]; simpl; [|done].
  by destruct (lm !! h) as [rule_id|] eqn:Hlm.
Qed.

(** One item, normal mode: the pass either adds the key or skips it when
    the ledger knows it, and a second pass over the item it produced skips
    the key and produces the same item again. *)
Lemma update_item_twice lm st st1 item :
  Sync.update_item false lm st item = Some st1 →
  ∃ u1 a1 s1,
    st1 = Sync.mk_build (Sync.labels_added st ++ a1) (Sync.labels_skipped st ++ s1)
            (Sync.labels_removed st) (Sync.updated_items st ++ [u1])
    ∧ (a1 ++ s1)%list = ledger_matched lm item
    ∧ ∀ st2, Sync.update_item false lm st2 u1
             = Some (Sync.mk_build (Sync.labels_added st2)
                       (Sync.labels_skipped st2 ++ ledger_matched lm item)
                       (Sync.labels_removed st2)
                       (Sync.updated_items st2 ++ [u1])).
Proof.
  intros Hpass.
  destruct item as [| | | | |kvs];
    try (by rewrite update_item_not_dict in Hpass).
  destruct st as [a s r u]. rewrite update_item_unfold in Hpass.
  apply bind_Some in Hpass as (key & Hkey & Hpass). cbv zeta in Hpass.
  apply bind_Some in Hpass as (keys & Hkeys & Hpass).
  apply bind_Some in Hpass as ([[[existing' a'] s'] r'] & Hrelabel & Hpass).
  apply bind_Some in Hpass as (labels & Hlabels & Hpass).
  simpl in Hlabels, Hpass. simplify_eq.
  destruct (to_hkey key) as [h|] eqn:Hh;
    [|by rewrite relabel_unhashable in Hrelabel by done].
  rewrite (relabel_normal _ _ _ _ _ _ _ h Hh) in Hrelabel.
  pose proof (get_column_name_truthy _ _ Hkey) as Htrue.
  unfold ledger_matched, getitem. rewrite Hkey, Hh. simpl.
  (* the labels after the block, their copies and their keys *)
  assert (∃ l' keys',
    iter existing' = Some l' ∧ mapM key_value l' = Some labels
    ∧ for_each add_label_key ∅ l' = Some keys'
    ∧ (is_Some (lm !! h) → h ∈ keys')
    ∧ ∃ a1 s1, a' = (a ++ a1)%list ∧ s' = (s ++ s1)%list ∧ r' = r
        ∧ (a1 ++ s1)%list = match lm !! h with Some _ => [key] | None => [] end)
    as (l' & keys' & Hiter & Hcopies & Hkeys' & Hin & a1 & s1 & -> & -> & -> & Hmatched).
  { unfold Sync.label_key_set in Hkeys. unfold Sync.key_value_labels in Hlabels.
    apply bind_Some in Hkeys as (l0 & Hiter0 & Hkeys).
    apply bind_Some in Hlabels as (l' & Hiter' & Hlabels).
    destruct (lm !! h) as [rule_id|] eqn:Hlm.
    - case_bool_decide as Hpresent.
      + simplify_eq. eexists _, keys. split_and!; try done.
        exists [], [key]. by rewrite app_nil_r.
      + destruct existing' as [| | | |l1|]; destruct (default _ _) as [| | | |l|];
          simpl in Hrelabel, Hiter0, Hiter'; try done. simplify_eq.
        change (for_each add_label_key ∅ l0 = Some keys) in Hkeys.
        exists (l0 ++ [new_label key rule_id])%list, ({[h]} ∪ keys).
        split_and!; try done.
        * rewrite for_each_app, Hkeys. simpl.
          rewrite (new_label_key _ _ _ h); done.
        * set_solver.
        * exists [key], []. by rewrite app_nil_r.
    - simplify_eq. eexists _, keys. split_and!; try done; try by intros [? ?].
      exists [], []. by rewrite !app_nil_r. }
  exists (rebuilt_item kvs labels), a1, s1. split_and!; [done..|].
  intros [a2 s2 r2 u2].
  destruct (rebuilt_item_again kvs labels) as (kvs1 & Hkvs1 & Hlabels1 & Hagain).
  pose proof (rebuilt_item_key kvs labels) as Hkey1.
  rewrite Hkvs1 in Hkey1 |- *. rewrite update_item_unfold, Hkey1, Hkey. simpl.
  rewrite Hlabels1. simpl.
  destruct (key_value_labels_copy _ _ Hcopies) as [Hcopies' Hkeys2].
  rewrite label_key_set_list, Hkeys2, Hkeys'. simpl.
  rewrite (relabel_normal _ _ _ _ _ _ _ h Hh).
  destruct (lm !! h) as [rule_id|] eqn:Hlm.
  - rewrite bool_decide_eq_true_2 by (by apply Hin). simpl.
    rewrite key_value_labels_list, Hcopies'. simpl. by rewrite Hagain, Hkvs1.
  - simpl. rewrite key_value_labels_list, Hcopies'. simpl.
    by rewrite Hagain, Hkvs1, app_nil_r.
Qed.

(** All items, normal mode. *)
Lemma update_items_twice lm item_list st st1 :
  for_each (Sync.update_item false lm) st item_list = Some st1 →
  ∃ us a1 s1,
    st1 = Sync.mk_build (Sync.labels_added st ++ a1) (Sync.labels_skipped st ++ s1)
            (Sync.labels_removed st) (Sync.updated_items st ++ us)
    ∧ (a1 ++ s1)%list ≡ₚ concat (map (ledger_matched lm) item_list)
    ∧ ∀ st2, for_each (Sync.update_item false lm) st2 us
             = Some (Sync.mk_build (Sync.labels_added st2)
                       (Sync.labels_skipped st2
                          ++ concat (map (ledger_matched lm) item_list))
                       (Sync.labels_removed st2)
                       (Sync.updated_items st2 ++ us)).
Proof.
  revert st. induction item_list as [|item item_list IH]; intros st Hpass.
  - simpl in Hpass. injection Hpass as <-. exists [], [], []. destruct st. simpl.
    rewrite !app_nil_r. split_and!; [done..|].
    intros [a2 s2 r2 u2]. simpl. by rewrite !app_nil_r.
  - rewrite for_each_cons in Hpass.
    apply bind_Some in Hpass as (st' & Hitem & Hrest).
    apply update_item_twice in Hitem as (u1 & a1 & s1 & -> & Hmatched & Hagain).
    apply IH in Hrest as (us & a1' & s1' & -> & Hmatched' & Hagain').
    simpl. exists (u1 :: us), (a1 ++ a1')%list, (s1 ++ s1')%list.
    split_and!.
    + by rewrite <- !app_assoc.
    + rewrite <- Hmatched, <- Hmatched'.
      rewrite <- !app_assoc. f_equiv. rewrite !app_assoc. f_equiv.
      apply Permutation_app_comm.
    + intros st2. rewrite for_each_cons, Hagain. simpl. rewrite Hagain'. simpl.
      by rewrite <- !app_assoc.
Qed.

(** *** The payload around the items *)

Lemma py_or_dict v :
  dict_or_false v = true → ∃ fields, py_or v (JObj []) = JObj fields.
Proof.
  unfold py_or. destruct v as [| | | | |fields]; simpl; intros Hv;
    try (rewrite negb_true_iff in Hv); rewrite ?Hv; eauto.
  by destruct fields; eauto.
Qed.

Lemma py_or_not_dict v :
  dict_or_false v = false → ∀ k d, get (py_or v (JObj [])) k d = None.
Proof.
  unfold py_or. destruct v; simpl; intros Hv k d; try done;
    rewrite negb_false_iff in Hv; rewrite ?Hv; try done.
  all: by destruct xs.
Qed.

#[local] Arguments Sync.update_item : simpl never.

(** *** Dict displays *)

Lemma dict_of_inv fields d :
  dict_of fields = Some d →
  ∃ kvs, d = JObj kvs ∧ ∀ k, field_lookup k fields = Some <$> assoc k kvs.
Proof.
  unfold dict_of. intros (kvs & Hkvs & ->)%fmap_Some. exists kvs. split; [done|].
  apply mapM_Some in Hkvs.
  induction Hkvs as [|[k' e] kv fields kvs Hkv _ IH]; intros k; [done|].
  simpl in Hkv. apply bind_Some in Hkv as (v & -> & [= <-]).
  rewrite assoc_cons. simpl. destruct (String.eqb k k'); [done|apply IH].
Qed.

(** Reading a field of an evaluated dict display. *)
Lemma dict_of_get fields d k e dflt :
  dict_of fields = Some d → field_lookup k fields = Some e →
  ∃ v, e = Some v ∧ get d k dflt = Some v.
Proof.
  intros (kvs & -> & Hkvs)%dict_of_inv Hk. rewrite Hkvs in Hk. simpl.
  destruct (assoc k kvs) as [v|]; [|done]. simpl in Hk. simplify_eq. eauto.
Qed.

Lemma dict_of_is_Some fields :
  Forall (λ kv, is_Some kv.2) fields → is_Some (dict_of fields).
Proof.
  unfold dict_of. intros Hall.
  assert (is_Some (mapM (λ kv : string * option json, v ← kv.2; Some (kv.1, v))
                        fields)) as [kvs ->]; [|by eexists].
  induction Hall as [|[k e] fields [v Hv] _ [kvs IH]]; [by eexists|].
  simpl in *. rewrite Hv. simpl. rewrite IH. by eexists.
Qed.

Lemma py_or_is_dict v fields k d :
  get (py_or v (JObj [])) k d = Some fields → dict_or_false v = true.
Proof.
  destruct (dict_or_false v) eqn:Hv; [done|]. by rewrite py_or_not_dict.
Qed.

(** [build_update_payload] returns only when the frame is as expected and
    the loop over the items returns; the payload then lists the updated
    items, and the two lists of keys are those of the loop. *)
Lemma build_update_payload_loop ov pd lm payload added skipped :
  Sync.build_update_payload ov pd lm = Some (payload, added, skipped) →
  quality_frame_ok pd = true
  ∧ ∃ its item_list st,
      snapshot_items pd = Some its ∧ iter its = Some item_list
      ∧ for_each (Sync.update_item ov lm) (Sync.mk_build [] [] [] []) item_list
        = Some st
      ∧ added = Sync.labels_added st ∧ skipped = Sync.labels_skipped st
      ∧ get payload "items" PyNone = Some (JArr (Sync.updated_items st)).
Proof.
  intros H. unfold Sync.build_update_payload in H.
  apply bind_Some in H as (rule & Hrule & H).
  apply bind_Some in H as (details & Hdetails & H).
  apply bind_Some in H as (its & Hits & H).
  apply bind_Some in H as (item_list & Hiter & H).
  apply bind_Some in H as (st & Hloop & H).
  apply bind_Some in H as (backing & Hbacking & H).
  apply bind_Some in H as (notif & Hnotif & H).
  apply bind_Some in H as (payload0 & Hpayload & H).
  injection H as <- <- <-.
  split.
  - destruct (dict_of_get _ _ "rule" _ PyNone Hpayload eq_refl)
      as (prule & Hprule & _).
    destruct (dict_of_get _ _ "backingAsset" _ PyNone Hprule eq_refl)
      as (pbacking & Hpbacking & _).
    destruct (dict_of_get _ _ "tableAssetId" _ PyNone Hpbacking eq_refl)
      as (? & Hb & _).
    destruct (dict_of_get _ _ "notificationChannels" _ PyNone Hprule eq_refl)
      as (pnotif & Hpnotif & _).
    destruct (dict_of_get _ _ "notifyOn" _ PyNone Hpnotif eq_refl)
      as (? & Hn & _).
    apply fmap_Some in Hbacking as (vb & Hvb & ->).
    apply fmap_Some in Hnotif as (vn & Hvn & ->).
    apply py_or_is_dict in Hb, Hn.
    unfold quality_frame_ok.
    destruct pd as [| | | | |fields]; [done..|]. simpl in Hrule, Hdetails.
    injection Hrule as <-. injection Hdetails as <-.
    destruct (default (JObj []) (assoc "rule" fields)) as [| | | | |rule];
      [done..|].
    destruct (default (JObj []) (assoc "details" fields)); [done..|].
    simpl in Hvb, Hvn. injection Hvb as <-. injection Hvn as <-.
    by rewrite Hb, Hn.
  - exists its, item_list, st. split_and!; try done.
    + unfold snapshot_items. rewrite Hdetails. done.
    + by destruct (dict_of_get _ _ "items" _ PyNone Hpayload eq_refl)
        as (? & [= <-] & ?).
Qed.

(** Every value expression of a dict display returns. *)
Ltac dict_fields :=
  repeat first
    [ apply Forall_nil_2
    | apply Forall_cons_2;
      [ cbv [snd];
        first [ by eexists | apply dict_of_is_Some; dict_fields ] | ] ].

Lemma build_update_payload_returns ov pd lm its item_list st :
  quality_frame_ok pd = true →
  snapshot_items pd = Some its → iter its = Some item_list →
  for_each (Sync.update_item ov lm) (Sync.mk_build [] [] [] []) item_list
    = Some st →
  ∃ payload,
    Sync.build_update_payload ov pd lm
    = Some (payload, Sync.labels_added st, Sync.labels_skipped st).
Proof.
  unfold quality_frame_ok, snapshot_items. intros Hframe Hits Hiter Hloop.
  destruct pd as [| | | | |fields]; [done..|].
  destruct (default (JObj []) (assoc "rule" fields)) as [| | | | |rule] eqn:Erule;
    [done..|].
  destruct (default (JObj []) (assoc "details" fields)) as [| | | | |details]
    eqn:Edetails; [done..|].
  apply andb_prop in Hframe as [[bfields Hb]%py_or_dict [nfields Hn]%py_or_dict].
  unfold Sync.build_update_payload.
  cbn [get mbind option_bind]. rewrite Erule, Edetails.
  cbn [get mbind option_bind] in Hits |- *. rewrite Edetails in Hits.
  cbn [get mbind option_bind] in Hits. injection Hits as <-.
  rewrite Hiter. cbn [mbind option_bind]. rewrite Hloop.
  cbn [mbind option_bind fmap option_fmap option_map]. rewrite Hb, Hn.
  match goal with
  | |- ∃ payload, dict_of ?fs ≫= _ = _ =>
      destruct (dict_of_is_Some fs) as [payload ->]; [dict_fields|]
  end.
  by exists payload.
Qed.

Lemma dict_of_dict fields d : dict_of fields = Some d → dict_or_false d = true.
Proof. by intros (kvs & -> & _)%dict_of_inv. Qed.

Lemma sync_republished_ok ov pd lm payload added skipped :
  Sync.build_update_payload ov pd lm = Some (payload, added, skipped) →
  ∃ pd', republished payload = Some pd'
         ∧ quality_frame_ok pd' = true
         ∧ snapshot_items pd' = get payload "items" PyNone.
Proof.
  intros H. pose proof (build_update_payload_loop _ _ _ _ _ _ H)
    as (_ & _ & _ & st & _ & _ & _ & _ & _ & Hitems).
  unfold Sync.build_update_payload in H.
  apply bind_Some in H as (rule & Hrule & H).
  apply bind_Some in H as (details & Hdetails & H).
  apply bind_Some in H as (its & Hits & H).
  apply bind_Some in H as (item_list & Hiter & H).
  apply bind_Some in H as (st' & Hloop & H).
  apply bind_Some in H as (backing & Hbacking & H).
  apply bind_Some in H as (notif & Hnotif & H).
  apply bind_Some in H as (payload0 & Hpayload & H).
  injection H as <- <- <-.
  destruct (dict_of_get _ _ "rule" _ PyNone Hpayload eq_refl)
    as (prule & Hprule & Hget).
  destruct (dict_of_get _ _ "backingAsset" _ PyNone Hprule eq_refl)
    as (pbacking & Hpbacking%dict_of_dict & Hgetb).
  destruct (dict_of_get _ _ "notificationChannels" _ PyNone Hprule eq_refl)
    as (pnotif & Hpnotif%dict_of_dict & Hgetn).
  unfold republished. rewrite Hget, Hitems. simpl.
  eexists. split; [done|]. split; [|done].
  apply dict_of_inv in Hprule as (rkvs & -> & _).
  unfold quality_frame_ok. rewrite !assoc_cons. simpl.
  simpl in Hgetb, Hgetn. injection Hgetb as ->. injection Hgetn as ->.
  by rewrite Hpbacking, Hpnotif.
Qed.

(** Normal mode is idempotent on quality-rule policies. *)
Lemma sync_reconcile_twice pd lm payload added skipped pd' :
  Sync.build_update_payload false pd lm = Some (payload, added, skipped) →
  quality_frame_ok pd' = true →
  snapshot_items pd' = get payload "items" PyNone →
  ∃ payload' skipped',
    Sync.build_update_payload false pd' lm = Some (payload', [], skipped')
    ∧ skipped' ≡ₚ (added ++ skipped)%list
    ∧ get payload' "items" PyNone = get payload "items" PyNone.
Proof.
  intros Hpass Hframe' Hitems'.
  apply build_update_payload_loop in Hpass
    as (_ & its & item_list & st & Hits & Hiter & Hloop & -> & -> & Hitems).
  apply update_items_twice in Hloop as (us & a1 & s1 & -> & Hmatched & Hagain).
  simpl in *. rewrite Hitems in Hitems'.
  specialize (Hagain (Sync.mk_build [] [] [] [])). simpl in Hagain.
  destruct (build_update_payload_returns false pd' lm _ us _ Hframe' Hitems'
              eq_refl Hagain) as [payload' Hpass'].
  simpl in Hpass'. exists payload', (concat (map (ledger_matched lm) item_list)).
  split_and!; [done | by rewrite Hmatched |].
  apply build_update_payload_loop in Hpass'
    as (_ & its' & item_list' & st' & Hits' & Hiter' & Hloop' & _ & _ & Hitems'').
  rewrite Hitems' in Hits'. injection Hits' as <-.
  simpl in Hiter'. injection Hiter' as <-.
  rewrite Hagain in Hloop'. injection Hloop' as <-.
  by rewrite Hitems'', Hitems.
Qed.

(** ** Label reconciliation of column mappings *)

#[local] Arguments Recon.relabel : simpl never.

#[local] Arguments rebuilt_mapping : simpl never.

Lemma update_mapping_unfold lm added skipped updated kvs :
  Recon.update_mapping lm (Recon.mk_build added skipped updated) (JObj kvs)
  = (let existing := default (JArr []) (assoc "labels" kvs) in
     keys ← Sync.label_key_set existing;
     r ← Recon.relabel lm (mapping_key_of kvs) existing keys added skipped;
     labels ← Sync.key_value_labels r.1.1;
     Some (Recon.mk_build r.1.2 r.2 (updated ++ [rebuilt_mapping kvs labels]))).
Proof.
  unfold Recon.update_mapping, rebuilt_mapping, mapping_key_of. simpl.
  destruct (Sync.label_key_set _) as [keys|]; simpl; [|done].
  destruct (Recon.relabel _ _ _ _ _ _) as [[[existing' a'] s']|]; simpl; [|done].
  by destruct (Sync.key_value_labels existing') as [labels|].
Qed.

Lemma update_mapping_not_dict lm st mapping :
  (∀ kvs, mapping ≠ JObj kvs) → Recon.update_mapping lm st mapping = None.
Proof.
  intros Hnd. unfold Recon.update_mapping. destruct st.
  destruct mapping; try done. by destruct (Hnd kvs).
Qed.

Lemma rebuilt_mapping_again kvs labels :
  ∃ kvs1, rebuilt_mapping kvs labels = JObj kvs1
          ∧ assoc "labels" kvs1 = Some (JArr labels)
          ∧ mapping_key_of kvs1 = mapping_key_of kvs
          ∧ ∀ labels', rebuilt_mapping kvs1 labels' = rebuilt_mapping kvs labels'.
Proof.
  unfold rebuilt_mapping, mapping_key_of. eexists. split; [reflexivity|].
  split; [reflexivity|]. split; [reflexivity|]. intros labels'. reflexivity.
Qed.

Lemma get_column_key_truthy left_col right_col :
  truthy (JStr (Recon.get_column_key left_col right_col)) = true.
Proof.
  unfold Recon.get_column_key. simpl. by destruct (str left_col).
Qed.

Lemma recon_relabel_spec lm key existing keys a s :
  Recon.relabel lm key existing keys a s =
  match lm !! key with
  | None => Some (existing, a, s)
  | Some rule_id =>
      if bool_decide (HStr key ∈ keys) then Some (existing, a, (s ++ [key])%list)
      else (λ labels, (labels, (a ++ [key])%list, s))
             <$> append existing (new_label (JStr key) rule_id)
  end.
Proof.
  unfold Recon.relabel. destruct (lm !! key) as [rule_id|]; [|done].
  destruct (bool_decide _); [done|]. by destruct (append existing _).
Qed.

(** One mapping: the pass either adds the key or skips it when the ledger
    knows it, and a second pass over the mapping it produced skips the key
    and produces the same mapping again. *)
Lemma update_mapping_twice lm st st1 mapping :
  Recon.update_mapping lm st mapping = Some st1 →
  ∃ u1 a1 s1,
    st1 = Recon.mk_build (Recon.labels_added st ++ a1)
            (Recon.labels_skipped st ++ s1) (Recon.updated_mappings st ++ [u1])
    ∧ (a1 ++ s1)%list = ledger_matched_mapping lm mapping
    ∧ ∀ st2, Recon.update_mapping lm st2 u1
             = Some (Recon.mk_build (Recon.labels_added st2)
                       (Recon.labels_skipped st2 ++ ledger_matched_mapping lm mapping)
                       (Recon.updated_mappings st2 ++ [u1])).
Proof.
  intros Hpass.
  destruct mapping as [| | | | |kvs];
    try (by rewrite update_mapping_not_dict in Hpass).
  destruct st as [a s u]. rewrite update_mapping_unfold in Hpass.
  cbv zeta in Hpass.
  apply bind_Some in Hpass as (keys & Hkeys & Hpass).
  apply bind_Some in Hpass as ([[existing' a'] s'] & Hrelabel & Hpass).
  apply bind_Some in Hpass as (labels & Hlabels & Hpass).
  simpl in Hlabels, Hpass. simplify_eq.
  rewrite recon_relabel_spec in Hrelabel.
  set (key := mapping_key_of kvs) in *.
  pose proof (get_column_key_truthy (default (JStr "") (assoc "leftColumnName" kvs))
                (default (JStr "") (assoc "rightColumnName" kvs))) as Htrue.
  fold (mapping_key_of kvs) in Htrue. fold key in Htrue.
  unfold ledger_matched_mapping. fold key.
  assert (∃ l' keys',
    iter existing' = Some l' ∧ mapM key_value l' = Some labels
    ∧ for_each add_label_key ∅ l' = Some keys'
    ∧ (is_Some (lm !! key) → HStr key ∈ keys')
    ∧ ∃ a1 s1, a' = (a ++ a1)%list ∧ s' = (s ++ s1)%list
        ∧ (a1 ++ s1)%list = match lm !! key with Some _ => [key] | None => [] end)
    as (l' & keys' & Hiter & Hcopies & Hkeys' & Hin & a1 & s1 & -> & -> & Hmatched).
  { unfold Sync.label_key_set in Hkeys. unfold Sync.key_value_labels in Hlabels.
    apply bind_Some in Hkeys as (l0 & Hiter0 & Hkeys).
    apply bind_Some in Hlabels as (l' & Hiter' & Hlabels).
    destruct (lm !! key) as [rule_id|] eqn:Hlm.
    - case_bool_decide as Hpresent.
      + simplify_eq. eexists _, keys. split_and!; try done.
        exists [], [key]. by rewrite app_nil_r.
      + destruct existing' as [| | | |l1|]; destruct (default _ _) as [| | | |l|];
          simpl in Hrelabel, Hiter0, Hiter'; try done. simplify_eq.
        change (for_each add_label_key ∅ l0 = Some keys) in Hkeys.
        exists (l0 ++ [new_label (JStr key) rule_id])%list, ({[HStr key]} ∪ keys).
        split_and!; try done.
        * rewrite for_each_app, Hkeys. simpl.
          rewrite (new_label_key _ _ _ (HStr key)); done.
        * set_solver.
        * exists [key], []. by rewrite app_nil_r.
    - simplify_eq. eexists _, keys. split_and!; try done; try by intros [? ?].
      exists [], []. by rewrite !app_nil_r. }
  exists (rebuilt_mapping kvs labels), a1, s1. split_and!; [done..|].
  intros [a2 s2 u2].
  destruct (rebuilt_mapping_again kvs labels)
    as (kvs1 & Hkvs1 & Hlabels1 & Hkey1 & Hagain).
  rewrite Hkvs1. rewrite update_mapping_unfold, Hkey1. fold key.
  rewrite Hlabels1. simpl.
  destruct (key_value_labels_copy _ _ Hcopies) as [Hcopies' Hkeys2].
  rewrite label_key_set_list, Hkeys2, Hkeys'. simpl.
  rewrite recon_relabel_spec.
  destruct (lm !! key) as [rule_id|] eqn:Hlm.
  - rewrite bool_decide_eq_true_2 by (by apply Hin). simpl.
    rewrite key_value_labels_list, Hcopies'. simpl. by rewrite Hagain, Hkvs1.
  - simpl. rewrite key_value_labels_list, Hcopies'. simpl.
    by rewrite Hagain, Hkvs1, app_nil_r.
Qed.

Lemma update_mappings_twice lm mapping_list st st1 :
  for_each (Recon.update_mapping lm) st mapping_list = Some st1 →
  ∃ us a1 s1,
    st1 = Recon.mk_build (Recon.labels_added st ++ a1)
            (Recon.labels_skipped st ++ s1) (Recon.updated_mappings st ++ us)
    ∧ (a1 ++ s1)%list ≡ₚ concat (map (ledger_matched_mapping lm) mapping_list)
    ∧ ∀ st2, for_each (Recon.update_mapping lm) st2 us
             = Some (Recon.mk_build (Recon.labels_added st2)
                       (Recon.labels_skipped st2
                          ++ concat (map (ledger_matched_mapping lm) mapping_list))
                       (Recon.updated_mappings st2 ++ us)).
Proof.
  revert st. induction mapping_list as [|mapping mapping_list IH]; intros st Hpass.
  - simpl in Hpass. injection Hpass as <-. exists [], [], []. destruct st. simpl.
    rewrite !app_nil_r. split_and!; [done..|].
    intros [a2 s2 u2]. simpl. by rewrite !app_nil_r.
  - rewrite for_each_cons in Hpass.
    apply bind_Some in Hpass as (st' & Hone & Hrest).
    apply update_mapping_twice in Hone as (u1 & a1 & s1 & -> & Hmatched & Hagain).
    apply IH in Hrest as (us & a1' & s1' & -> & Hmatched' & Hagain').
    simpl. exists (u1 :: us), (a1 ++ a1')%list, (s1 ++ s1')%list.
    split_and!.
    + by rewrite <- !app_assoc.
    + rewrite <- Hmatched, <- Hmatched'.
      rewrite <- !app_assoc. f_equiv. rewrite !app_assoc. f_equiv.
      apply Permutation_app_comm.
    + intros st2. rewrite for_each_cons, Hagain. simpl. rewrite Hagain'. simpl.
      by rewrite <- !app_assoc.
Qed.

(** *** The payload around the mappings *)

Lemma recon_update_item_dict item :
  is_Some (Recon.update_item item) ↔ is_dict item = true.
Proof.
  unfold Recon.update_item. destruct item as [| | | | |kvs]; simpl;
    (split; [try by intros [? ?] | try done]).
Qed.

Lemma recon_update_items_Some item_list :
  is_Some (mapM Recon.update_item item_list) ↔ forallb is_dict item_list = true.
Proof.
  induction item_list as [|item item_list IH]; [by eauto|].
  cbn [forallb]. rewrite andb_true_iff, <- IH, <- recon_update_item_dict.
  cbn [mapM].
  destruct (Recon.update_item item) as [u|]; simpl.
  - destruct (mapM Recon.update_item item_list); simpl.
    + split; eauto.
    + split; [by intros [? ?] | by intros [_ [? ?]]].
  - split; [by intros [? ?] | by intros [[? ?] _]].
Qed.

Lemma recon_updated_items_dicts item_list updated :
  mapM Recon.update_item item_list = Some updated → forallb is_dict updated = true.
Proof.
  rewrite mapM_Some. induction 1 as [|item u item_list updated Hu _ IH]; [done|].
  simpl. rewrite IH, andb_true_r.
  unfold Recon.update_item in Hu. by apply dict_of_inv in Hu as (kvs & -> & _).
Qed.

#[local] Arguments Recon.update_mapping : simpl never.
#[local] Arguments Recon.update_item : simpl never.

Lemma recon_build_update_payload_loop pd lm payload added skipped :
  Recon.build_update_payload pd lm = Some (payload, added, skipped) →
  recon_frame_ok pd = true
  ∧ ∃ mappings mapping_list st,
      snapshot_mappings pd = Some mappings ∧ iter mappings = Some mapping_list
      ∧ for_each (Recon.update_mapping lm) (Recon.mk_build [] [] []) mapping_list
        = Some st
      ∧ added = Recon.labels_added st ∧ skipped = Recon.labels_skipped st
      ∧ get payload "mappings" PyNone = Some (JArr (Recon.updated_mappings st))
      ∧ ∃ updated_items, get payload "items" PyNone = Some (JArr updated_items)
                         ∧ forallb is_dict updated_items = true.
Proof.
  intros H. unfold Recon.build_update_payload in H.
  apply bind_Some in H as (rule & Hrule & H).
  apply bind_Some in H as (details & Hdetails & H).
  apply bind_Some in H as (mappings & Hmappings & H).
  apply bind_Some in H as (its & Hits & H).
  apply bind_Some in H as (mapping_list & Hiter & H).
  apply bind_Some in H as (st & Hloop & H).
  apply bind_Some in H as (item_list & Hiter_items & H).
  apply bind_Some in H as (updated_items & Hupdated & H).
  apply bind_Some in H as (lba & Hlba & H).
  apply bind_Some in H as (rba & Hrba & H).
  apply bind_Some in H as (notif & Hnotif & H).
  apply bind_Some in H as (spark & Hspark & H).
  apply bind_Some in H as (payload0 & Hpayload & H).
  injection H as <- <- <-.
  split.
  - destruct (dict_of_get _ _ "rule" _ PyNone Hpayload eq_refl)
      as (prule & Hprule & _).
    destruct (dict_of_get _ _ "leftBackingAsset" _ PyNone Hprule eq_refl)
      as (? & Hp1 & _).
    destruct (dict_of_get _ _ "tableAssetId" _ PyNone Hp1 eq_refl) as (? & Hl & _).
    destruct (dict_of_get _ _ "rightBackingAsset" _ PyNone Hprule eq_refl)
      as (? & Hp2 & _).
    destruct (dict_of_get _ _ "tableAssetId" _ PyNone Hp2 eq_refl) as (? & Hr & _).
    destruct (dict_of_get _ _ "notificationChannels" _ PyNone Hprule eq_refl)
      as (? & Hp3 & _).
    destruct (dict_of_get _ _ "notifyOn" _ PyNone Hp3 eq_refl) as (? & Hn & _).
    destruct (dict_of_get _ _ "sparkResourceConfig" _ PyNone Hprule eq_refl)
      as (? & Hp4 & _).
    destruct (dict_of_get _ _ "yunikorn" _ PyNone Hp4 eq_refl) as (? & Hs & _).
    apply fmap_Some in Hlba as (? & Hvl & ->).
    apply fmap_Some in Hrba as (? & Hvr & ->).
    apply fmap_Some in Hnotif as (? & Hvn & ->).
    apply fmap_Some in Hspark as (? & Hvs & ->).
    apply py_or_is_dict in Hl, Hr, Hn, Hs.
    unfold recon_frame_ok.
    destruct pd as [| | | | |fields]; [done..|]. simpl in Hrule, Hdetails.
    injection Hrule as <-. injection Hdetails as <-.
    destruct (default (JObj []) (assoc "rule" fields)) as [| | | | |rule];
      [done..|].
    destruct (default (JObj []) (assoc "details" fields)) as [| | | | |details];
      [done..|].
    simpl in Hvl, Hvr, Hvn, Hvs, Hits.
    injection Hvl as <-. injection Hvr as <-. injection Hvn as <-.
    injection Hvs as <-. injection Hits as <-.
    rewrite Hl, Hr, Hn, Hs, Hiter_items. simpl.
    apply recon_update_items_Some. by eexists.
  - exists mappings, mapping_list, st. split_and!; try done.
    + unfold snapshot_mappings. rewrite Hdetails. done.
    + by destruct (dict_of_get _ _ "mappings" _ PyNone Hpayload eq_refl)
        as (? & [= <-] & ?).
    + exists updated_items. split; [|by eapply recon_updated_items_dicts].
      by destruct (dict_of_get _ _ "items" _ PyNone Hpayload eq_refl)
        as (? & [= <-] & ?).
Qed.

Lemma recon_build_update_payload_returns pd lm mappings mapping_list st :
  recon_frame_ok pd = true →
  snapshot_mappings pd = Some mappings → iter mappings = Some mapping_list →
  for_each (Recon.update_mapping lm) (Recon.mk_build [] [] []) mapping_list
    = Some st →
  ∃ payload,
    Recon.build_update_payload pd lm
    = Some (payload, Recon.labels_added st, Recon.labels_skipped st).
Proof.
  unfold recon_frame_ok, snapshot_mappings. intros Hframe Hmappings Hiter Hloop.
  destruct pd as [| | | | |fields]; [done..|].
  destruct (default (JObj []) (assoc "rule" fields)) as [| | | | |rule] eqn:Erule;
    [done..|].
  destruct (default (JObj []) (assoc "details" fields)) as [| | | | |details]
    eqn:Edetails; [done..|].
  apply andb_prop in Hframe as [Hframe Hitems].
  apply andb_prop in Hframe as [Hframe [sfields Hs]%py_or_dict].
  apply andb_prop in Hframe as [Hframe [nfields Hn]%py_or_dict].
  apply andb_prop in Hframe as [[lfields Hl]%py_or_dict [rfields Hr]%py_or_dict].
  destruct (iter (default (JArr []) (assoc "items" details)))
    as [item_list|] eqn:Hiter_items; [|done].
  apply recon_update_items_Some in Hitems as [updated_items Hupdated].
  unfold Recon.build_update_payload.
  cbn [get mbind option_bind]. rewrite Erule, Edetails.
  cbn [get mbind option_bind] in Hmappings |- *. rewrite Edetails in Hmappings.
  cbn [get mbind option_bind] in Hmappings. injection Hmappings as <-.
  rewrite Hiter. cbn [mbind option_bind]. rewrite Hloop.
  cbn [mbind option_bind]. rewrite Hiter_items. cbn [mbind option_bind].
  rewrite Hupdated.
  cbn [mbind option_bind fmap option_fmap option_map]. rewrite Hl, Hr, Hn, Hs.
  match goal with
  | |- ∃ payload, dict_of ?fs ≫= _ = _ =>
      destruct (dict_of_is_Some fs) as [payload ->]; [dict_fields|]
  end.
  by exists payload.
Qed.

Lemma recon_republished_ok pd lm payload added skipped :
  Recon.build_update_payload pd lm = Some (payload, added, skipped) →
  ∃ pd', recon_republished payload = Some pd'
         ∧ recon_frame_ok pd' = true
         ∧ snapshot_mappings pd' = get payload "mappings" PyNone.
Proof.
  intros H. pose proof (recon_build_update_payload_loop _ _ _ _ _ H)
    as (_ & _ & _ & st & _ & _ & _ & _ & _ & Hmappings & items & Hitems & Hdicts).
  unfold Recon.build_update_payload in H.
  apply bind_Some in H as (rule & Hrule & H).
  apply bind_Some in H as (details & Hdetails & H).
  apply bind_Some in H as (mappings & _ & H).
  apply bind_Some in H as (its & Hits & H).
  apply bind_Some in H as (mapping_list & Hiter & H).
  apply bind_Some in H as (st' & Hloop & H).
  apply bind_Some in H as (item_list & Hiter_items & H).
  apply bind_Some in H as (updated_items & Hupdated & H).
  apply bind_Some in H as (lba & Hlba & H).
  apply bind_Some in H as (rba & Hrba & H).
  apply bind_Some in H as (notif & Hnotif & H).
  apply bind_Some in H as (spark & Hspark & H).
  apply bind_Some in H as (payload0 & Hpayload & H).
  injection H as <- <- <-.
  destruct (dict_of_get _ _ "rule" _ PyNone Hpayload eq_refl)
    as (prule & Hprule & Hget).
  destruct (dict_of_get _ _ "leftBackingAsset" _ PyNone Hprule eq_refl)
    as (? & H1%dict_of_dict & Hget1).
  destruct (dict_of_get _ _ "rightBackingAsset" _ PyNone Hprule eq_refl)
    as (? & H2%dict_of_dict & Hget2).
  destruct (dict_of_get _ _ "notificationChannels" _ PyNone Hprule eq_refl)
    as (? & H3%dict_of_dict & Hget3).
  destruct (dict_of_get _ _ "sparkResourceConfig" _ PyNone Hprule eq_refl)
    as (? & H4%dict_of_dict & Hget4).
  unfold recon_republished. rewrite Hget, Hitems, Hmappings. simpl.
  eexists. split; [done|]. split; [|done].
  apply dict_of_inv in Hprule as (rkvs & -> & _).
  unfold recon_frame_ok. rewrite !assoc_cons. simpl.
  simpl in Hget1, Hget2, Hget3, Hget4.
  injection Hget1 as ->. injection Hget2 as ->.
  injection Hget3 as ->. injection Hget4 as ->.
  by rewrite H1, H2, H3, H4.
Qed.

(** Reconciliation of column mappings is idempotent. *)
Lemma recon_reconcile_twice pd lm payload added skipped pd' :
  Recon.build_update_payload pd lm = Some (payload, added, skipped) →
  recon_frame_ok pd' = true →
  snapshot_mappings pd' = get payload "mappings" PyNone →
  ∃ payload' skipped',
    Recon.build_update_payload pd' lm = Some (payload', [], skipped')
    ∧ skipped' ≡ₚ (added ++ skipped)%list
    ∧ get payload' "mappings" PyNone = get payload "mappings" PyNone.
Proof.
  intros Hpass Hframe' Hmappings'.
  apply recon_build_update_payload_loop in Hpass
    as (_ & ms & mapping_list & st & Hms & Hiter & Hloop & -> & -> & Hmappings & _).
  apply update_mappings_twice in Hloop as (us & a1 & s1 & -> & Hmatched & Hagain).
  simpl in *. rewrite Hmappings in Hmappings'.
  specialize (Hagain (Recon.mk_build [] [] [])). simpl in Hagain.
  destruct (recon_build_update_payload_returns pd' lm _ us _ Hframe' Hmappings'
              eq_refl Hagain) as [payload' Hpass'].
  simpl in Hpass'.
  exists payload', (concat (map (ledger_matched_mapping lm) mapping_list)).
  split_and!; [done | by rewrite Hmatched |].
  apply recon_build_update_payload_loop in Hpass'
    as (_ & ms' & mapping_list' & st' & Hms' & Hiter' & Hloop' & _ & _ & Hmappings'' & _).
  rewrite Hmappings' in Hms'. injection Hms' as <-.
  simpl in Hiter'. injection Hiter' as <-.
  rewrite Hagain in Hloop'. injection Hloop' as <-.
  by rewrite Hmappings'', Hmappings.
Qed.

(** ** What a pass does to the labels of an item *)

Lemma key_value_same label copy :
  key_value label = Some copy → same_key_value label copy.
Proof. by intros (fields & -> & ->)%key_value_inv. Qed.

Lemma key_value_labels_same labels copies :
  mapM key_value labels = Some copies → Forall2 same_key_value labels copies.
Proof.
  rewrite mapM_Some. intros Hcopies.
  eapply Forall2_impl; [done|]. intros ??. apply key_value_same.
Qed.

Lemma mapM_key_value_app l1 l2 copies :
  mapM key_value (l1 ++ l2) = Some copies →
  ∃ c1 c2, copies = (c1 ++ c2)%list
           ∧ mapM key_value l1 = Some c1 ∧ mapM key_value l2 = Some c2.
Proof.
  rewrite mapM_Some. intros (c1 & c2 & H1 & H2 & ->)%Forall2_app_inv_l.
  exists c1, c2. by rewrite !mapM_Some.
Qed.

Lemma update_item_relabelled ov lm st item st1 :
  Sync.update_item ov lm st item = Some st1 →
  ∃ u, Sync.updated_items st1 = (Sync.updated_items st ++ [u])%list
       ∧ relabelled ov lm item u.
Proof.
  intros Hpass.
  destruct item as [| | | | |kvs];
    try (by rewrite update_item_not_dict in Hpass).
  destruct st as [a s r u]. rewrite update_item_unfold in Hpass.
  apply bind_Some in Hpass as (key & Hkey & Hpass). cbv zeta in Hpass.
  apply bind_Some in Hpass as (keys & Hkeys & Hpass).
  apply bind_Some in Hpass as ([[[existing' a'] s'] r'] & Hrelabel & Hpass).
  apply bind_Some in Hpass as (labels & Hlabels & Hpass).
  simpl in Hlabels, Hpass. simplify_eq.
  destruct (to_hkey key) as [h|] eqn:Hh;
    [|by rewrite relabel_unhashable in Hrelabel by done].
  unfold Sync.label_key_set in Hkeys.
  apply bind_Some in Hkeys as (existing & Hiter & Hkeys).
  change (for_each add_label_key ∅ existing = Some keys) in Hkeys.
  exists (rebuilt_item kvs labels). split; [done|].
  exists kvs, key, h, existing, labels. split_and!; try done.
  destruct ov.
  - rewrite (relabel_override _ _ _ _ _ _ _ h Hh) in Hrelabel.
    apply bind_Some in Hrelabel as (removed & _ & Hrelabel).
    destruct (lm !! h) as [rule_id|]; simplify_eq;
      rewrite key_value_labels_list in Hlabels; cbn [mapM] in Hlabels;
      rewrite ?new_label_copy in Hlabels; simpl in Hlabels;
      by injection Hlabels as <-.
  - rewrite (relabel_normal _ _ _ _ _ _ _ h Hh) in Hrelabel.
    unfold Sync.key_value_labels in Hlabels.
    apply bind_Some in Hlabels as (l' & Hiter' & Hlabels).
    change (mapM key_value l' = Some labels) in Hlabels.
    destruct (lm !! h) as [rule_id|].
    + case_bool_decide as Hpresent.
      * simplify_eq. exists labels, keys.
        by rewrite bool_decide_eq_true_2, app_nil_r by done.
      * destruct (default _ _) as [| | | |l|]; simpl in Hrelabel; try done.
        simpl in Hiter. simplify_eq. simpl in Hiter'. simplify_eq.
        apply mapM_key_value_app in Hlabels as (c1 & c2 & -> & Hc1 & Hc2).
        cbn [mapM] in Hc2. rewrite new_label_copy in Hc2. simpl in Hc2.
        injection Hc2 as <-. exists c1, keys.
        by rewrite bool_decide_eq_false_2 by done.
    + simplify_eq. exists labels, keys. by rewrite app_nil_r.
Qed.

Lemma update_items_relabelled ov lm item_list st st1 :
  for_each (Sync.update_item ov lm) st item_list = Some st1 →
  ∃ us, Sync.updated_items st1 = (Sync.updated_items st ++ us)%list
        ∧ Forall2 (relabelled ov lm) item_list us.
Proof.
  revert st. induction item_list as [|item item_list IH]; intros st Hpass.
  - simpl in Hpass. injection Hpass as <-. exists []. by rewrite app_nil_r.
  - rewrite for_each_cons in Hpass.
    apply bind_Some in Hpass as (st' & Hitem & Hrest).
    apply update_item_relabelled in Hitem as (u & Hu & Hrel).
    apply IH in Hrest as (us & Hus & Hrels).
    exists (u :: us). split; [|by constructor].
    by rewrite Hus, Hu, <- app_assoc.
Qed.

Lemma build_update_payload_relabelled ov pd lm payload added skipped :
  Sync.build_update_payload ov pd lm = Some (payload, added, skipped) →
  ∃ item_list us,
    items_of pd = Some item_list
    ∧ get payload "items" PyNone = Some (JArr us)
    ∧ Forall2 (relabelled ov lm) item_list us.
Proof.
  intros (_ & its & item_list & st & Hits & Hiter & Hloop & _ & _ & Hitems)
    %build_update_payload_loop.
  apply update_items_relabelled in Hloop as (us & Hus & Hrel).
  simpl in Hus. exists item_list, us. unfold items_of.
  rewrite Hits. simpl. by rewrite Hitems, Hus.
Qed.

Lemma rebuilt_item_labels kvs labels :
  get (rebuilt_item kvs labels) "labels" PyNone = Some (JArr labels).
Proof.
  unfold rebuilt_item. simpl.
  destruct (truthy _); rewrite !assoc_cons; simpl; done.
Qed.

Lemma update_mapping_relabelled lm st mapping st1 :
  Recon.update_mapping lm st mapping = Some st1 →
  ∃ u, Recon.updated_mappings st1 = (Recon.updated_mappings st ++ [u])%list
       ∧ mapping_relabelled lm mapping u.
Proof.
  intros Hpass.
  destruct mapping as [| | | | |kvs];
    try (by rewrite update_mapping_not_dict in Hpass).
  destruct st as [a s u]. rewrite update_mapping_unfold in Hpass.
  cbv zeta in Hpass.
  apply bind_Some in Hpass as (keys & Hkeys & Hpass).
  apply bind_Some in Hpass as ([[existing' a'] s'] & Hrelabel & Hpass).
  apply bind_Some in Hpass as (labels & Hlabels & Hpass).
  simpl in Hlabels, Hpass. simplify_eq.
  rewrite recon_relabel_spec in Hrelabel.
  unfold Sync.label_key_set in Hkeys.
  apply bind_Some in Hkeys as (existing & Hiter & Hkeys).
  change (for_each add_label_key ∅ existing = Some keys) in Hkeys.
  unfold Sync.key_value_labels in Hlabels.
  apply bind_Some in Hlabels as (l' & Hiter' & Hlabels).
  change (mapM key_value l' = Some labels) in Hlabels.
  eexists. split; [done|].
  exists kvs, existing. 
  destruct (lm !! mapping_key_of kvs) as [rule_id|].
  - case_bool_decide as Hpresent.
    + simplify_eq. exists labels, keys.
      by rewrite bool_decide_eq_true_2, app_nil_r by done.
    + destruct (default _ _) as [| | | |l|]; simpl in Hrelabel; try done.
      simpl in Hiter. simplify_eq. simpl in Hiter'. simplify_eq.
      apply mapM_key_value_app in Hlabels as (c1 & c2 & -> & Hc1 & Hc2).
      cbn [mapM] in Hc2. rewrite new_label_copy in Hc2. simpl in Hc2.
      injection Hc2 as <-. exists c1, keys.
      by rewrite bool_decide_eq_false_2 by done.
  - simplify_eq. exists labels, keys. by rewrite app_nil_r.
Qed.

Lemma update_mappings_relabelled lm mapping_list st st1 :
  for_each (Recon.update_mapping lm) st mapping_list = Some st1 →
  ∃ us, Recon.updated_mappings st1 = (Recon.updated_mappings st ++ us)%list
        ∧ Forall2 (mapping_relabelled lm) mapping_list us.
Proof.
  revert st. induction mapping_list as [|mapping mapping_list IH]; intros st Hpass.
  - simpl in Hpass. injection Hpass as <-. exists []. by rewrite app_nil_r.
  - rewrite for_each_cons in Hpass.
    apply bind_Some in Hpass as (st' & Hone & Hrest).
    apply update_mapping_relabelled in Hone as (u & Hu & Hrel).
    apply IH in Hrest as (us & Hus & Hrels).
    exists (u :: us). split; [|by constructor].
    by rewrite Hus, Hu, <- app_assoc.
Qed.

Lemma recon_build_update_payload_relabelled pd lm payload added skipped :
  Recon.build_update_payload pd lm = Some (payload, added, skipped) →
  ∃ mapping_list us,
    mappings_of pd = Some mapping_list
    ∧ get payload "mappings" PyNone = Some (JArr us)
    ∧ Forall2 (mapping_relabelled lm) mapping_list us.
Proof.
  intros (_ & ms & mapping_list & st & Hms & Hiter & Hloop & _ & _ & Hmappings & _)
    %recon_build_update_payload_loop.
  apply update_mappings_relabelled in Hloop as (us & Hus & Hrel).
  simpl in Hus. exists mapping_list, us. unfold mappings_of.
  rewrite Hms. simpl. by rewrite Hmappings, Hus.
Qed.

Lemma rebuilt_mapping_labels kvs labels :
  get (rebuilt_mapping kvs labels) "labels" PyNone = Some (JArr labels).
Proof. done. Qed.

(** *** Well-formed definitions: the passes return *)

Lemma labels_ok_total labels :
  labels_ok labels = true →
  ∃ ls, labels = JArr ls
        ∧ is_Some (for_each add_label_key ∅ ls)
        ∧ is_Some (Sync.label_key_list labels)
        ∧ is_Some (mapM key_value ls).
Proof.
  destruct labels as [| | | |ls|]; try done. simpl. intros Hok.
  exists ls. split; [done|]. split_and!.
  - apply (for_each_total add_label_key label_ok); [|done].
    intros keys [| | | | |fields]; try done. simpl. intros Hk.
    unfold add_label_key. simpl. destruct (truthy _); [|by eauto].
    by apply set_add_total.
  - unfold Sync.label_key_list. simpl.
    apply (for_each_total _ label_ok); [|done].
    intros keys [| | | | |fields]; try done. simpl. intros _.
    destruct (truthy _); by eauto.
  - induction ls as [|l ls IH]; [by eexists|].
    simpl in Hok. apply andb_prop in Hok as [Hl Hls].
    destruct l as [| | | | |fields]; try done.
    destruct (IH Hls) as [copies Hcopies].
    cbn [mapM]. rewrite Hcopies. unfold key_value, dict_of. simpl. by eexists.
Qed.

Lemma update_item_total ov lm st item :
  quality_item_ok item = true → is_Some (Sync.update_item ov lm st item).
Proof.
  unfold quality_item_ok. intros [Hitem Hlabels]%andb_prop.
  destruct (get_column_name_total item Hitem) as (key & Hkey & _).
  destruct item as [| | | | |kvs]; try done. destruct st as [a s r u].
  apply labels_ok_total in Hlabels
    as (ls & Els & [keys Hkeys] & [removed Hremoved] & [copies Hcopies]).
  rewrite update_item_unfold, Hkey. cbn [mbind option_bind]. cbv zeta.
  rewrite Els in *. rewrite label_key_set_list, Hkeys. cbn [mbind option_bind].
  destruct ov.
  - rewrite (relabel_override lm (JStr key) _ _ _ _ _ (HStr key) eq_refl), Hremoved.
    destruct (truthy (JArr ls)); cbn [mbind option_bind];
      destruct (lm !! HStr key); cbn [mbind option_bind fst];
      rewrite key_value_labels_list; cbn [mapM]; rewrite ?new_label_copy;
      by eexists.
  - rewrite (relabel_normal lm (JStr key) _ _ _ _ _ (HStr key) eq_refl).
    destruct (lm !! HStr key) as [rule_id|]; [destruct (bool_decide _)|];
      cbn [mbind option_bind fst append fmap option_fmap option_map];
      rewrite key_value_labels_list.
    + rewrite Hcopies. by eexists.
    + rewrite (mapM_app_Some key_value ls [new_label (JStr key) rule_id] copies
                 [new_label (JStr key) rule_id]) by done.
      by eexists.
    + rewrite Hcopies. by eexists.
Qed.

Lemma update_mapping_total lm st mapping :
  mapping_ok mapping = true → is_Some (Recon.update_mapping lm st mapping).
Proof.
  destruct mapping as [| | | | |kvs]; try done. simpl. intros Hlabels.
  destruct st as [a s u].
  apply labels_ok_total in Hlabels
    as (ls & Els & [keys Hkeys] & _ & [copies Hcopies]).
  rewrite update_mapping_unfold. cbv zeta.
  rewrite Els in *. rewrite label_key_set_list, Hkeys. cbn [mbind option_bind].
  rewrite recon_relabel_spec.
  destruct (lm !! mapping_key_of kvs) as [rule_id|]; [destruct (bool_decide _)|];
    cbn [mbind option_bind fst append fmap option_fmap option_map];
    rewrite key_value_labels_list.
  - rewrite Hcopies. by eexists.
  - rewrite (mapM_app_Some key_value ls [new_label _ rule_id] copies
               [new_label (JStr (mapping_key_of kvs)) rule_id]) by done.
    by eexists.
  - rewrite Hcopies. by eexists.
Qed.

(** On a well-formed definition both modes of the quality-rule builder
    return. *)
Lemma build_update_payload_total ov pd lm :
  quality_policy_ok pd = true → is_Some (Sync.build_update_payload ov pd lm).
Proof.
  unfold quality_policy_ok. intros [Hframe Hitems]%andb_prop.
  destruct (snapshot_items pd) as [[| | | |item_list|]|] eqn:Hsnap; try done.
  destruct (for_each_total (Sync.update_item ov lm) quality_item_ok item_list
              (Sync.mk_build [] [] [] [])
              (λ st item, update_item_total ov lm st item) Hitems) as [st Hloop].
  destruct (build_update_payload_returns ov pd lm _ item_list st Hframe Hsnap
              eq_refl Hloop) as [payload ->].
  by eexists.
Qed.

Lemma recon_build_update_payload_total pd lm :
  recon_policy_ok pd = true → is_Some (Recon.build_update_payload pd lm).
Proof.
  unfold recon_policy_ok. intros [Hframe Hmappings]%andb_prop.
  destruct (snapshot_mappings pd) as [[| | | |mapping_list|]|] eqn:Hsnap; try done.
  destruct (for_each_total (Recon.update_mapping lm) mapping_ok mapping_list
              (Recon.mk_build [] [] [])
              (λ st mapping, update_mapping_total lm st mapping) Hmappings)
    as [st Hloop].
  destruct (recon_build_update_payload_returns pd lm _ mapping_list st Hframe Hsnap
              eq_refl Hloop) as [payload ->].
  by eexists.
Qed.

(** *** The id of an item plays no part *)

Lemma assoc_setitem_ne k k' v kvs :
  k ≠ k' → assoc k (setitem k' v kvs) = assoc k kvs.
Proof.
  intros Hne. induction kvs as [|[k0 v0] kvs IH]; simpl.
  - rewrite assoc_cons, assoc_nil.
    by destruct (String.eqb_spec k k').
  - destruct (String.eqb_spec k' k0) as [-> | Hk0].
    + rewrite !assoc_cons. by destruct (String.eqb_spec k k0).
    + rewrite !assoc_cons. by rewrite IH.
Qed.

Lemma get_column_name_setitem_id x kvs :
  Sync.get_column_name (JObj (setitem "id" x kvs)) = Sync.get_column_name (JObj kvs).
Proof.
  unfold Sync.get_column_name. simpl. by rewrite !assoc_setitem_ne by done.
Qed.

Lemma produced_labels_id_irrelevant ov lm st kvs x :
  produced_labels ov lm st (JObj (setitem "id" x kvs))
  = produced_labels ov lm st (JObj kvs).
Proof.
  unfold produced_labels. destruct st as [a s r u].
  rewrite !update_item_unfold, get_column_name_setitem_id.
  rewrite assoc_setitem_ne by done.
  destruct (Sync.get_column_name (JObj kvs)) as [key|]; [|done].
  cbn [mbind option_bind]. cbv zeta.
  destruct (Sync.label_key_set _) as [keys|]; [|done]. cbn [mbind option_bind].
  destruct (Sync.relabel _ _ _ _ _ _ _ _) as [res|]; [|done].
  cbn [mbind option_bind].
  destruct (Sync.key_value_labels _) as [labels|]; [|done].
  cbn [mbind option_bind Sync.updated_items Sync.labels_added Sync.labels_skipped].
  rewrite !last_snoc. cbn [mbind option_bind].
  by rewrite !rebuilt_item_labels.
Qed.

Lemma produced_mapping_labels_id_irrelevant lm st kvs x :
  produced_mapping_labels lm st (JObj (setitem "id" x kvs))
  = produced_mapping_labels lm st (JObj kvs).
Proof.
  unfold produced_mapping_labels. destruct st as [a s u].
  rewrite !update_mapping_unfold. unfold mapping_key_of.
  rewrite !assoc_setitem_ne by done. cbv zeta.
  destruct (Sync.label_key_set _) as [keys|]; [|done]. cbn [mbind option_bind].
  destruct (Recon.relabel _ _ _ _ _ _) as [res|]; [|done].
  cbn [mbind option_bind].
  destruct (Sync.key_value_labels _) as [labels|]; [|done].
  cbn [mbind option_bind Recon.updated_mappings Recon.labels_added
         Recon.labels_skipped].
  rewrite !last_snoc. cbn [mbind option_bind].
  by rewrite !rebuilt_mapping_labels.
Qed.

(** *** Normal mode keeps the labels of an item *)

Lemma truthy_hkey a b h :
  to_hkey a = Some h → to_hkey b = Some h → truthy a = truthy b.
Proof.
  destruct a as [|[]| | | |], b as [|[]| | | |]; simpl; intros; simplify_eq; done.
Qed.

Lemma add_label_keys_grow labels acc keys :
  for_each add_label_key acc labels = Some keys → acc ⊆ keys.
Proof.
  revert acc. induction labels as [|label labels IH]; intros acc H; simpl in H.
  - by simplify_eq.
  - apply bind_Some in H as (acc1 & H1 & H). apply IH in H.
    unfold add_label_key in H1. apply bind_Some in H1 as (k & _ & H1).
    destruct (truthy k); [|by simplify_eq].
    unfold set_add in H1. apply bind_Some in H1 as (h & _ & H1). simplify_eq.
    set_solver.
Qed.

Lemma add_label_keys_mem labels acc keys label k :
  for_each add_label_key acc labels = Some keys →
  label ∈ labels → get label "key" PyNone = Some k → truthy k = true →
  ∃ h, to_hkey k = Some h ∧ h ∈ keys.
Proof.
  revert acc. induction labels as [|l labels IH]; intros acc H Hin Hk Htrue;
    [by apply elem_of_nil in Hin|].
  simpl in H. apply bind_Some in H as (acc1 & H1 & H).
  apply elem_of_cons in Hin as [->|Hin]; [|by eapply IH].
  unfold add_label_key in H1. rewrite Hk in H1. simpl in H1.
  rewrite Htrue in H1. unfold set_add in H1.
  apply bind_Some in H1 as (h & Hh & H1). simplify_eq.
  exists h. split; [done|]. apply add_label_keys_grow in H. set_solver.
Qed.

Lemma relabelled_keeps lm item u : relabelled false lm item u → labels_kept item u.
Proof.
  intros (kvs & key & h & existing & labels & -> & Hkey & Hh & Hiter & -> & Hlabels).
  destruct Hlabels as (copies & keys & Hcopies & Hkeys & ->).
  eexists existing, copies, _. split_and!.
  - simpl. by rewrite Hiter.
  - by rewrite rebuilt_item_labels.
  - by apply key_value_labels_same.
  - destruct (lm !! h); [destruct (bool_decide _)|]; simpl; lia.
  - intros new old Hnew Hold Hsame.
    destruct (lm !! h) as [rule_id|]; [|by apply elem_of_nil in Hnew].
    case_bool_decide as Hpresent; [by apply elem_of_nil in Hnew|].
    apply list_elem_of_singleton in Hnew as ->.
    apply Hpresent. clear Hpresent.
    unfold label_hkey in Hsame.
    change (get (new_label key rule_id) "key" PyNone) with (Some key) in Hsame.
    simpl in Hsame. rewrite Hh in Hsame.
    destruct (get old "key" PyNone) as [k|] eqn:Hk; [|done]. simpl in Hsame.
    pose proof (get_column_name_truthy _ _ Hkey) as Htrue.
    rewrite <-(truthy_hkey k key h Hsame Hh) in Htrue.
    destruct (add_label_keys_mem _ _ _ _ _ Hkeys Hold Hk Htrue) as (h' & Hh' & Hin).
    congruence.
Qed.

Lemma mapping_relabelled_keeps lm mapping u :
  mapping_relabelled lm mapping u → labels_kept mapping u.
Proof.
  intros (kvs & existing & copies & keys & -> & Hiter & Hcopies & Hkeys & ->).
  eexists existing, copies, _. split_and!.
  - simpl. by rewrite Hiter.
  - by rewrite rebuilt_mapping_labels.
  - by apply key_value_labels_same.
  - destruct (lm !! _); [destruct (bool_decide _)|]; simpl; lia.
  - intros new old Hnew Hold Hsame.
    destruct (lm !! mapping_key_of kvs) as [rule_id|];
      [|by apply elem_of_nil in Hnew].
    case_bool_decide as Hpresent; [by apply elem_of_nil in Hnew|].
    apply list_elem_of_singleton in Hnew as ->.
    apply Hpresent. clear Hpresent.
    unfold label_hkey in Hsame.
    change (get (new_label (JStr (mapping_key_of kvs)) rule_id) "key" PyNone)
      with (Some (JStr (mapping_key_of kvs))) in Hsame.
    simpl in Hsame.
    destruct (get old "key" PyNone) as [k|] eqn:Hk; [|done]. simpl in Hsame.
    pose proof (get_column_key_truthy
                  (default (JStr "") (assoc "leftColumnName" kvs))
                  (default (JStr "") (assoc "rightColumnName" kvs))) as Htrue.
    fold (mapping_key_of kvs) in Htrue.
    rewrite <-(truthy_hkey k (JStr (mapping_key_of kvs)) _ Hsame eq_refl) in Htrue.
    destruct (add_label_keys_mem _ _ _ _ _ Hkeys Hold Hk Htrue) as (h' & Hh' & Hin).
    congruence.
Qed.

(** The second pass of normal mode over the items that the first pass has
    produced: what it reports and what the first pass did to the labels. *)
Lemma sync_second_pass pd lm payload added skipped pd' :
  Sync.build_update_payload false pd lm = Some (payload, added, skipped) →
  quality_frame_ok pd' = true →
  snapshot_items pd' = get payload "items" PyNone →
  ∃ payload' skipped',
    Sync.build_update_payload false pd' lm = Some (payload', [], skipped')
    ∧ skipped' ≡ₚ (added ++ skipped)%list
    ∧ get payload' "items" PyNone = get payload "items" PyNone
    ∧ ∃ item_list us,
        items_of pd = Some item_list ∧ items_of pd' = Some us
        ∧ skipped' = concat (map (ledger_matched lm) item_list)
        ∧ skipped' ≡ₚ concat (map (ledger_matched lm) us)
        ∧ Forall2 labels_kept item_list us.
Proof.
  intros Hpass Hframe' Hitems'.
  destruct (sync_reconcile_twice _ _ _ _ _ _ Hpass Hframe' Hitems')
    as (payload' & skipped' & Hpass' & Hperm & Hsame).
  exists payload', skipped'. split_and!; [done..|].
  destruct (build_update_payload_relabelled _ _ _ _ _ _ Hpass)
    as (item_list & us & Hitems & Hus & Hrel).
  exists item_list, us.
  assert (items_of pd' = Some us) as Hitems2
    by (unfold items_of; by rewrite Hitems', Hus).
  apply build_update_payload_loop in Hpass
    as (_ & its & il & st & Hits & Hiter & Hloop & _ & _ & Hpitems).
  pose proof Hitems as Hlist. unfold items_of in Hlist.
  rewrite Hits in Hlist. simpl in Hlist. rewrite Hiter in Hlist.
  injection Hlist as ->.
  apply update_items_twice in Hloop as (us1 & a1 & s1 & -> & _ & Hagain).
  simpl in Hpitems. rewrite Hus in Hpitems. injection Hpitems as ->.
  specialize (Hagain (Sync.mk_build [] [] [] [])). simpl in Hagain.
  apply build_update_payload_loop in Hpass'
    as (_ & its' & il' & st' & Hits' & Hiter' & Hloop' & _ & Hskipped & _).
  rewrite Hitems', Hus in Hits'. injection Hits' as <-.
  simpl in Hiter'. injection Hiter' as <-.
  pose proof Hloop' as Hthird.
  rewrite Hagain in Hloop'. injection Hloop' as <-. simpl in Hskipped.
  apply update_items_twice in Hthird as (us2 & a2 & s2 & Hst & Hmatched & _).
  simpl in Hst. injection Hst as Ha2 Hs2 _. rewrite <-Ha2, <-Hs2 in Hmatched.
  split_and!; [done | done | done | by rewrite Hskipped |].
  eapply Forall2_impl; [exact Hrel|]. apply relabelled_keeps.
Qed.

(** Likewise for the mappings of a reconciliation policy. *)
Lemma recon_second_pass pd lm payload added skipped pd' :
  Recon.build_update_payload pd lm = Some (payload, added, skipped) →
  recon_frame_ok pd' = true →
  snapshot_mappings pd' = get payload "mappings" PyNone →
  ∃ payload' skipped',
    Recon.build_update_payload pd' lm = Some (payload', [], skipped')
    ∧ skipped' ≡ₚ (added ++ skipped)%list
    ∧ get payload' "mappings" PyNone = get payload "mappings" PyNone
    ∧ ∃ mapping_list us,
        mappings_of pd = Some mapping_list ∧ mappings_of pd' = Some us
        ∧ skipped' = concat (map (ledger_matched_mapping lm) mapping_list)
        ∧ skipped' ≡ₚ concat (map (ledger_matched_mapping lm) us)
        ∧ Forall2 labels_kept mapping_list us.
Proof.
  intros Hpass Hframe' Hmappings'.
  destruct (recon_reconcile_twice _ _ _ _ _ _ Hpass Hframe' Hmappings')
    as (payload' & skipped' & Hpass' & Hperm & Hsame).
  exists payload', skipped'. split_and!; [done..|].
  destruct (recon_build_update_payload_relabelled _ _ _ _ _ Hpass)
    as (mapping_list & us & Hms & Hus & Hrel).
  exists mapping_list, us.
  assert (mappings_of pd' = Some us) as Hms2
    by (unfold mappings_of; by rewrite Hmappings', Hus).
  apply recon_build_update_payload_loop in Hpass
    as (_ & ms & ml & st & Hsnap & Hiter & Hloop & _ & _ & Hpms & _).
  pose proof Hms as Hlist. unfold mappings_of in Hlist.
  rewrite Hsnap in Hlist. simpl in Hlist. rewrite Hiter in Hlist.
  injection Hlist as ->.
  apply update_mappings_twice in Hloop as (us1 & a1 & s1 & -> & _ & Hagain).
  simpl in Hpms. rewrite Hus in Hpms. injection Hpms as ->.
  specialize (Hagain (Recon.mk_build [] [] [])). simpl in Hagain.
  apply recon_build_update_payload_loop in Hpass'
    as (_ & ms' & ml' & st' & Hsnap' & Hiter' & Hloop' & _ & Hskipped & _).
  rewrite Hmappings', Hus in Hsnap'. injection Hsnap' as <-.
  simpl in Hiter'. injection Hiter' as <-.
  pose proof Hloop' as Hthird.
  rewrite Hagain in Hloop'. injection Hloop' as <-. simpl in Hskipped.
  apply update_mappings_twice in Hthird as (us2 & a2 & s2 & Hst & Hmatched & _).
  simpl in Hst. injection Hst as Ha2 Hs2 _. rewrite <-Ha2, <-Hs2 in Hmatched.
  split_and!; [done | done | done | by rewrite Hskipped |].
  eapply Forall2_impl; [exact Hrel|]. apply mapping_relabelled_keeps.
Qed.

(** ** Reconciliation: the claims *)

(** C5. Normal-mode reconciliation is idempotent, for quality-rule items
    and for column mappings alike: when the definition that a pass has
    produced is reconciled again with the same ledger, the second pass
    returns, adds no label and reports as skipped every key that the ledger
    matches, once for each item (or mapping) that has it and in the order
    of the items: the keys that the ledger holds among the keys of the
    items of the first definition, which are also, up to their order, the
    matched keys of the items of the definition it is run on and the keys
    that the first pass had added or skipped.  It produces the same items
    as the first pass.  A label whose key a label of the item already has
    is not added a second time: the labels of every item that the first
    pass produces are the copies of the labels of the item, followed by at
    most one label, whose key none of them has. *)
Theorem normal_mode_idempotent :
  (∀ pd lm payload added skipped,
     Sync.build_update_payload false pd lm = Some (payload, added, skipped) →
     ∃ pd', republished payload = Some pd'
       ∧ ∃ payload' skipped',
           Sync.build_update_payload false pd' lm = Some (payload', [], skipped')
           ∧ skipped' ≡ₚ (added ++ skipped)%list
           ∧ get payload' "items" PyNone = get payload "items" PyNone
           ∧ ∃ item_list us,
               items_of pd = Some item_list ∧ items_of pd' = Some us
               ∧ skipped' = concat (map (ledger_matched lm) item_list)
               ∧ skipped' ≡ₚ concat (map (ledger_matched lm) us)
               ∧ Forall2 labels_kept item_list us)
  ∧ (∀ pd lm payload added skipped,
       Recon.build_update_payload pd lm = Some (payload, added, skipped) →
       ∃ pd', recon_republished payload = Some pd'
         ∧ ∃ payload' skipped',
             Recon.build_update_payload pd' lm = Some (payload', [], skipped')
             ∧ skipped' ≡ₚ (added ++ skipped)%list
             ∧ get payload' "mappings" PyNone = get payload "mappings" PyNone
             ∧ ∃ mapping_list us,
                 mappings_of pd = Some mapping_list ∧ mappings_of pd' = Some us
                 ∧ skipped' = concat (map (ledger_matched_mapping lm) mapping_list)
                 ∧ skipped' ≡ₚ concat (map (ledger_matched_mapping lm) us)
                 ∧ Forall2 labels_kept mapping_list us).
Proof.
  split.
  - intros pd lm payload added skipped Hpass.
    destruct (sync_republished_ok _ _ _ _ _ _ Hpass) as (pd' & Hpd' & Hframe & Hitems).
    exists pd'. split; [done|]. by eapply sync_second_pass.
  - intros pd lm payload added skipped Hpass.
    destruct (recon_republished_ok _ _ _ _ _ Hpass) as (pd' & Hpd' & Hframe & Hms).
    exists pd'. split; [done|]. by eapply recon_second_pass.
Qed.

Lemma normal_mode_idempotent_witness :
  (∃ payload added skipped pd',
     Sync.build_update_payload false orders_policy orders_ledger
       = Some (payload, added, skipped)
     ∧ republished payload = Some pd'
     ∧ ∃ payload' skipped',
         Sync.build_update_payload false pd' orders_ledger
           = Some (payload', [], skipped')
         ∧ skipped' ≡ₚ (added ++ skipped)%list
         ∧ ∃ item_list,
             items_of orders_policy = Some item_list
             ∧ skipped' = concat (map (ledger_matched orders_ledger) item_list))
  ∧ (∃ payload added skipped pd',
       Recon.build_update_payload recon_policy recon_ledger
         = Some (payload, added, skipped)
       ∧ recon_republished payload = Some pd'
       ∧ ∃ payload' skipped',
           Recon.build_update_payload pd' recon_ledger
             = Some (payload', [], skipped')
           ∧ skipped' ≡ₚ (added ++ skipped)%list
           ∧ ∃ mapping_list,
               mappings_of recon_policy = Some mapping_list
               ∧ skipped'
                 = concat (map (ledger_matched_mapping recon_ledger) mapping_list)).
Proof.
  split.
  - assert (Sync.build_update_payload false orders_policy orders_ledger
            = orders_first_pass) as Hpass by (vm_compute; reflexivity).
    unfold orders_first_pass in Hpass.
    destruct (proj1 normal_mode_idempotent _ _ _ _ _ Hpass)
      as (pd' & Hpd' & payload' & skipped' & Hpass' & Hperm & _
          & item_list & us & Hitems & _ & Hmatched & _).
    eexists _, _, _, pd'. split; [exact Hpass|]. split; [exact Hpd'|].
    exists payload', skipped'. split; [exact Hpass'|]. split; [exact Hperm|].
    exists item_list. split; [exact Hitems | exact Hmatched].
  - assert (Recon.build_update_payload recon_policy recon_ledger
            = recon_first_pass) as Hpass by (vm_compute; reflexivity).
    unfold recon_first_pass in Hpass.
    destruct (proj2 normal_mode_idempotent _ _ _ _ _ Hpass)
      as (pd' & Hpd' & payload' & skipped' & Hpass' & Hperm & _
          & mapping_list & us & Hms & _ & Hmatched & _).
    eexists _, _, _, pd'. split; [exact Hpass|]. split; [exact Hpd'|].
    exists payload', skipped'. split; [exact Hpass'|]. split; [exact Hperm|].
    exists mapping_list. split; [exact Hms | exact Hmatched].
Defined.

(** C6. A label that reconciliation attaches carries the rule id that the
    ledger records for the key, as text ([str] is the identity on an id
    that is text already): in both modes of the quality-rule builder and in
    the reconciliation builder, the labels of a payload item are the copies
    of its own labels (none in override mode) followed at most by the label
    made of the key and the ledger's entry for it. The id of the item or
    mapping itself has no influence on the labels. *)
Theorem label_value_is_ledger_id :
  (∀ ov pd lm payload added skipped,
     Sync.build_update_payload ov pd lm = Some (payload, added, skipped) →
     ∃ item_list us,
       items_of pd = Some item_list
       ∧ get payload "items" PyNone = Some (JArr us)
       ∧ Forall2 (relabelled ov lm) item_list us)
  ∧ (∀ pd lm payload added skipped,
       Recon.build_update_payload pd lm = Some (payload, added, skipped) →
       ∃ mapping_list us,
         mappings_of pd = Some mapping_list
         ∧ get payload "mappings" PyNone = Some (JArr us)
         ∧ Forall2 (mapping_relabelled lm) mapping_list us)
  ∧ (∀ key rule_id,
       get (new_label key rule_id) "key" PyNone = Some key
       ∧ get (new_label key rule_id) "value" PyNone = Some (JStr (str rule_id))
       ∧ ∀ s, rule_id = JStr s → JStr (str rule_id) = rule_id)
  ∧ (∀ ov lm st kvs x,
       produced_labels ov lm st (JObj (setitem "id" x kvs))
       = produced_labels ov lm st (JObj kvs))
  ∧ (∀ lm st kvs x,
       produced_mapping_labels lm st (JObj (setitem "id" x kvs))
       = produced_mapping_labels lm st (JObj kvs)).
Proof.
  split_and!.
  - intros ov pd lm payload added skipped.
    apply build_update_payload_relabelled.
  - intros pd lm payload added skipped.
    apply recon_build_update_payload_relabelled.
  - intros key rule_id. split_and!; [done..|]. by intros s ->.
  - apply produced_labels_id_irrelevant.
  - apply produced_mapping_labels_id_irrelevant.
Qed.

Lemma label_value_is_ledger_id_witness :
  (∃ item_list us,
     items_of orders_policy = Some item_list
     ∧ Forall2 (relabelled false orders_ledger) item_list us)
  ∧ (∃ mapping_list us,
       mappings_of recon_policy = Some mapping_list
       ∧ Forall2 (mapping_relabelled recon_ledger) mapping_list us).
Proof.
  split.
  - assert (Sync.build_update_payload false orders_policy orders_ledger
            = orders_first_pass) as Hpass by (vm_compute; reflexivity).
    unfold orders_first_pass in Hpass.
    destruct (proj1 label_value_is_ledger_id _ _ _ _ _ _ Hpass)
      as (item_list & us & Hitems & _ & Hrel).
    exists item_list, us. split; [exact Hitems | exact Hrel].
  - assert (Recon.build_update_payload recon_policy recon_ledger
            = recon_first_pass) as Hpass by (vm_compute; reflexivity).
    unfold recon_first_pass in Hpass.
    destruct (proj1 (proj2 label_value_is_ledger_id) _ _ _ _ _ Hpass)
      as (mapping_list & us & Hms & _ & Hrel).
    exists mapping_list, us. split; [exact Hms | exact Hrel].
Defined.

(** C7. In override mode every item of the definition ends with exactly
    the label [{key, value = ledger[key]}] when the ledger has an entry for
    its key, and with no label at all otherwise, whatever labels it had
    before; on a well-formed definition the pass returns. *)
Theorem override_keeps_ledger_label_only (pd : json) (lm : gmap hkey json) :
  (quality_policy_ok pd = true →
   is_Some (Sync.build_update_payload true pd lm))
  ∧ ∀ payload added skipped,
      Sync.build_update_payload true pd lm = Some (payload, added, skipped) →
      ∃ item_list us,
        items_of pd = Some item_list
        ∧ get payload "items" PyNone = Some (JArr us)
        ∧ Forall2
            (λ item u,
               ∃ key, Sync.get_column_name item = Some key
                 ∧ get u "labels" PyNone
                   = Some (JArr match getitem lm key with
                                | Some rule_id =>
                                    [JObj [("key", key);
                                           ("value", JStr (str rule_id))]]
                                | None => []
                                end))
            item_list us.
Proof.
  split; [by apply build_update_payload_total|].
  intros payload added skipped
    (item_list & us & Hitems & Hus & Hrel)%build_update_payload_relabelled.
  exists item_list, us. split_and!; [done..|].
  eapply Forall2_impl; [exact Hrel|].
  intros item u (kvs & key & h & existing & labels & -> & Hkey & Hh & _ & -> & ->).
  exists key. split; [done|]. rewrite rebuilt_item_labels.
  unfold getitem. rewrite Hh. simpl. by destruct (lm !! h).
Qed.

Lemma override_keeps_ledger_label_only_witness :
  is_Some (Sync.build_update_payload true orders_policy orders_ledger)
  ∧ ∃ item_list us,
    items_of orders_policy = Some item_list
    ∧ Forall2
        (λ item u,
           ∃ key, Sync.get_column_name item = Some key
             ∧ get u "labels" PyNone
               = Some (JArr match getitem orders_ledger key with
                            | Some rule_id =>
                                [JObj [("key", key);
                                       ("value", JStr (str rule_id))]]
                            | None => []
                            end))
        item_list us.
Proof.
  assert (Sync.build_update_payload true orders_policy orders_ledger
          = orders_override_pass) as Hpass by (vm_compute; reflexivity).
  unfold orders_override_pass in Hpass.
  split.
  { apply (proj1 (override_keeps_ledger_label_only orders_policy orders_ledger)).
    reflexivity. }
  destruct (proj2 (override_keeps_ledger_label_only _ _) _ _ _ Hpass)
    as (item_list & us & Hitems & _ & Hrel).
  exists item_list, us. split; [exact Hitems | exact Hrel].
Defined.

(** C10. The reconciliation builder has no override flag and no branch
    that drops a label: every label that a column mapping has is found
    again, with its key and its value and at its position, among the
    labels of the mapping in the payload, which has at most one label
    more; on a well-formed definition the builder returns. *)
Theorem recon_keeps_existing_labels (pd : json) (lm : gmap string json) :
  (recon_policy_ok pd = true → is_Some (Recon.build_update_payload pd lm))
  ∧ ∀ payload added skipped,
      Recon.build_update_payload pd lm = Some (payload, added, skipped) →
      ∃ mapping_list us,
        mappings_of pd = Some mapping_list
        ∧ get payload "mappings" PyNone = Some (JArr us)
        ∧ Forall2
            (λ mapping u,
               ∃ existing copies extra,
                 get mapping "labels" (JArr []) ≫= iter = Some existing
                 ∧ get u "labels" PyNone = Some (JArr (copies ++ extra))
                 ∧ Forall2 same_key_value existing copies
                 ∧ (length extra ≤ 1)%nat)
            mapping_list us.
Proof.
  split; [by apply recon_build_update_payload_total|].
  intros payload added skipped
    (mapping_list & us & Hms & Hus & Hrel)%recon_build_update_payload_relabelled.
  exists mapping_list, us. split_and!; [done..|].
  eapply Forall2_impl; [exact Hrel|].
  intros mapping u (kvs & existing & copies & keys & -> & Hiter & Hcopies & _ & ->).
  eexists existing, copies, _. split_and!.
  - simpl. by rewrite Hiter.
  - by rewrite rebuilt_mapping_labels.
  - by apply key_value_labels_same.
  - destruct (lm !! _); [destruct (bool_decide _)|]; simpl; lia.
Qed.

Lemma recon_keeps_existing_labels_witness :
  is_Some (Recon.build_update_payload recon_policy recon_ledger)
  ∧ ∃ mapping_list us,
    mappings_of recon_policy = Some mapping_list
    ∧ Forall2
        (λ mapping u,
           ∃ existing copies extra,
             get mapping "labels" (JArr []) ≫= iter = Some existing
             ∧ get u "labels" PyNone = Some (JArr (copies ++ extra))
             ∧ Forall2 same_key_value existing copies
             ∧ (length extra ≤ 1)%nat)
        mapping_list us.
Proof.
  assert (Recon.build_update_payload recon_policy recon_ledger
          = recon_first_pass) as Hpass by (vm_compute; reflexivity).
  unfold recon_first_pass in Hpass.
  split.
  { apply (proj1 (recon_keeps_existing_labels recon_policy recon_ledger)).
    reflexivity. }
  destruct (proj2 (recon_keeps_existing_labels _ _) _ _ _ Hpass)
    as (mapping_list & us & Hms & _ & Hrel).
  exists mapping_list, us. split; [exact Hms | exact Hrel].
Defined.

(** ** What the payload carries through *)














(** * Further properties of the pipelines *)


(** ** The version diff against any baseline *)

Lemma extract_item_record info item :
  Sync.extract_item info item = (λ oc, record_field info oc) <$> compared_field item.
Proof.
  unfold Sync.extract_item, compared_field. destruct info.
  destruct item as [| | | | |kvs]; [done..|]. simpl.
  generalize (default (JStr "") (assoc "measurementType" kvs)) as kind.
  generalize (default (JStr "") (assoc "ruleExpression" kvs)) as expression.
  generalize (default (JStr "") (assoc "columnName" kvs)) as column.
  generalize (default (JObj []) (assoc "value" kvs)) as value.
  intros value column expression kind.
  unfold field_key, set_add.
  destruct (eq_str kind "CUSTOM"), (eq_str kind "SQL_METRIC"),
    (eq_str kind "UDF_PREDICATE"), (eq_str kind "SIZE_CHECK"); simpl;
    try (destruct (truthy expression); simpl; [by destruct (to_hkey expression)|done]);
    try (destruct (truthy column); simpl; [by destruct (to_hkey column)|done]);
    try done;
    (destruct (truthy value); simpl; [|done];
     destruct value as [| | | | |fields]; try done; simpl;
     generalize (default PyNone (assoc "udfId" fields)) as udf_id;
     intros udf_id; destruct (truthy udf_id); simpl; [by destruct (to_hkey udf_id)|done]).
Qed.

Lemma recorded_record_field info oc c :
  recorded (record_field info oc) c
  = recorded info c || bool_decide (oc = Some c).
Proof.
  destruct info, oc as [[]|], c; simpl;
    repeat case_bool_decide; simpl; try done;
    try (exfalso; set_solver); try congruence;
    try (by destruct has_size_check).
Qed.

Lemma is_new_rule_recorded info item :
  Sync.is_new_rule info item
  = (λ oc : option compared,
       match oc with Some c => negb (recorded info c) | None => false end)
    <$> compared_field item.
Proof.
  unfold Sync.is_new_rule, compared_field.
  destruct item as [| | | | |kvs]; [done..|]. simpl.
  generalize (default (JStr "") (assoc "measurementType" kvs)) as kind.
  generalize (default (JStr "") (assoc "ruleExpression" kvs)) as expression.
  generalize (default (JStr "") (assoc "columnName" kvs)) as column.
  generalize (default (JObj []) (assoc "value" kvs)) as value.
  intros value column expression kind.
  unfold field_key, in_set.
  destruct (eq_str kind "CUSTOM"), (eq_str kind "SQL_METRIC"),
    (eq_str kind "UDF_PREDICATE"), (eq_str kind "SIZE_CHECK"); simpl.
  all: try done.
  all: try (destruct (truthy expression); simpl; rewrite ?andb_false_r; [|done];
         destruct (to_hkey expression); simpl; [|done];
         repeat case_bool_decide; simpl; try done; exfalso; set_solver).
  all: try (destruct (truthy column); simpl; [|done];
         destruct (to_hkey column); simpl; [|done];
         repeat case_bool_decide; simpl; try done; exfalso; set_solver).
  all: destruct (truthy value); simpl; [|done];
     destruct value as [| | | | |fields]; try done; simpl;
     generalize (default PyNone (assoc "udfId" fields)) as udf_id;
     intros udf_id; destruct (truthy udf_id); simpl; [|done];
     destruct (to_hkey udf_id); simpl; [|done];
     repeat case_bool_decide; simpl; try done; exfalso; set_solver.
Qed.

Lemma extract_items_record item_list info :
  for_each Sync.extract_item info item_list
  = foldl record_field info <$> mapM compared_field item_list.
Proof.
  revert info. induction item_list as [|item item_list IH]; intros info; [done|].
  rewrite for_each_cons, extract_item_record. simpl.
  destruct (compared_field item) as [oc|]; simpl; [|done].
  rewrite IH. by destruct (mapM compared_field item_list).
Qed.

Lemma recorded_foldl ocs info c :
  recorded (foldl record_field info ocs) c
  = recorded info c || bool_decide (Some c ∈ ocs).
Proof.
  revert info. induction ocs as [|oc ocs IH]; intros info; cbn [foldl].
  { rewrite (bool_decide_eq_false_2 (Some c ∈ [])); [by rewrite orb_false_r|].
    apply not_elem_of_nil. }
  rewrite IH, recorded_record_field.
  destruct (recorded info c); simpl; [done|].
  repeat case_bool_decide; try done; exfalso; set_solver.
Qed.

Lemma mapM_elem_of {A B : Type} (f : A → option B) (xs : list A) (ys : list B) y :
  mapM f xs = Some ys → (y ∈ ys ↔ ∃ x, x ∈ xs ∧ f x = Some y).
Proof.
  intros H. apply mapM_Some in H. induction H as [|x y' xs ys Hx H IH].
  { split; [by intros ?%elem_of_nil|]. by intros (? & ?%elem_of_nil & _). }
  rewrite elem_of_cons, IH. split.
  - intros [->|(x' & Hin & Hx')]; [exists x|exists x']; rewrite elem_of_cons; auto.
  - intros (x' & [->|Hin]%elem_of_cons & Hx'); [left; congruence|right; eauto].
Qed.

(** The presence structure of a snapshot holds exactly the compared fields of
    its items. *)
Lemma extract_items_info_recorded data info base_items c :
  Sync.extract_items_info data = Some info →
  iter (Sync.items info) = Some base_items →
  recorded info c = true
  ↔ ∃ x, x ∈ base_items ∧ compared_field x = Some (Some c).
Proof.
  unfold Sync.extract_items_info. intros H Hiter.
  apply bind_Some in H as (details & _ & H).
  apply bind_Some in H as (its & _ & H).
  apply bind_Some in H as (item_list & Hlist & H).
  pose proof (extract_items_keeps_items _ _ _ H) as Hits. simpl in Hits.
  rewrite Hits, Hlist in Hiter. simplify_eq.
  rewrite extract_items_record in H.
  apply fmap_Some in H as (ocs & Hocs & ->).
  rewrite recorded_foldl.
  assert (∀ its, recorded (Sync.mk_info ∅ ∅ ∅ ∅ false its) c = false) as ->.
  { intros ?. destruct c; simpl; try done; apply bool_decide_eq_false; set_solver. }
  rewrite orb_false_l, bool_decide_eq_true.
  apply (mapM_elem_of _ _ _ (Some c) Hocs).
Qed.

(** X1. The criterion of the diff of the quality-rule pipeline: against the
    presence structure extracted from a baseline snapshot, an item is
    classified as new exactly when it has a compared field (the column of a
    column check, the expression of a CUSTOM or SQL_METRIC check, the udfId
    of a UDF_PREDICATE check, the kind of a SIZE_CHECK) and no item of the
    baseline has the same compared field. Ids and, for column checks, kinds
    play no part. *)
Theorem diff_criterion (baseline : json) (v1_info : Sync.items_info)
    (base_items : list json) (item : json) (b : bool) :
  Sync.extract_items_info baseline = Some v1_info →
  iter (Sync.items v1_info) = Some base_items →
  Sync.is_new_rule v1_info item = Some b →
  b = true
  ↔ ∃ c, compared_field item = Some (Some c)
         ∧ ∀ x, x ∈ base_items → compared_field x ≠ Some (Some c).
Proof.
  intros Hextract Hiter Hnew.
  rewrite is_new_rule_recorded in Hnew.
  apply fmap_Some in Hnew as (oc & Hoc & ->).
  pose proof (λ c, extract_items_info_recorded _ _ _ c Hextract Hiter) as Hrec.
  split.
  - destruct oc as [c|]; [|done]. intros Hc%negb_true_iff.
    exists c. split; [done|]. intros x Hx Hcx.
    assert (recorded v1_info c = true) as Hyes by (apply Hrec; eauto).
    congruence.
  - intros (c & Hc & Hnone). rewrite Hoc in Hc. simplify_eq.
    apply negb_true_iff. apply not_true_is_false. intros Hyes%Hrec.
    destruct Hyes as (x & Hx & Hcx). by eapply Hnone.
Qed.

Lemma find_new_rule_rows v1_info pid name acc item acc' :
  Sync.find_new_rule v1_info pid name acc item = Some acc' →
  ∃ new, acc' = (acc ++ new)%list
         ∧ mapM (row_of pid name) (List.filter (reported v1_info) [item]) = Some new.
Proof.
  unfold Sync.find_new_rule, row_of, reported. intros H.
  apply bind_Some in H as (kind & Hkind & H).
  apply bind_Some in H as (rule_id & Hid & H).
  apply bind_Some in H as (is_new & Hnew & H).
  simpl. rewrite Hnew. destruct is_new.
  - apply bind_Some in H as (key & Hkey & H). simplify_eq.
    eexists. split; [done|]. rewrite bool_decide_eq_true_2 by done.
    simpl. by rewrite Hkind, Hid, Hkey.
  - simplify_eq. exists []. rewrite app_nil_r.
    by rewrite bool_decide_eq_false_2 by done.
Qed.

Lemma find_new_rules_rows_from v1_info pid name item_list acc rows :
  for_each (Sync.find_new_rule v1_info pid name) acc item_list = Some rows →
  ∃ new, rows = (acc ++ new)%list
         ∧ mapM (row_of pid name) (List.filter (reported v1_info) item_list)
           = Some new.
Proof.
  revert acc. induction item_list as [|item item_list IH]; intros acc H.
  - simpl in H. simplify_eq. exists []. by rewrite app_nil_r.
  - simpl in H. apply bind_Some in H as (acc1 & H1 & H).
    apply find_new_rule_rows in H1 as (new1 & -> & Hnew1).
    apply IH in H as (new & -> & Hnew).
    exists (new1 ++ new)%list. split; [by rewrite app_assoc|].
    rewrite filter_cons_app. by apply mapM_app_Some.
Qed.

(** X2. The rows that [find_new_rules] returns are the rows of the items of the
    latest snapshot that are classified as new, in the order of the
    snapshot, each with the given policy id and name; there are at most as
    many rows as items. *)
Theorem find_new_rules_rows (v1_info latest_info : Sync.items_info)
    (pid : string) (name : json) (latest_items : list json)
    (rows : list Sync.rule_row) :
  iter (Sync.items latest_info) = Some latest_items →
  Sync.find_new_rules v1_info latest_info pid name = Some rows →
  mapM (row_of pid name) (List.filter (reported v1_info) latest_items) = Some rows
  ∧ (length rows ≤ length latest_items)%nat
  ∧ Forall (λ row, Sync.Policy_ID row = pid ∧ Sync.Policy_Name row = name) rows.
Proof.
  unfold Sync.find_new_rules. intros Hiter H. rewrite Hiter in H. simpl in H.
  apply find_new_rules_rows_from in H as (new & -> & Hnew). simpl.
  split; [done|].
  apply mapM_Some in Hnew. split.
  - rewrite <-(Forall2_length _ _ _ Hnew). apply List.filter_length_le.
  - clear Hiter. induction Hnew as [|item row ? ? Hrow ? IH]; constructor; [|done].
    unfold row_of in Hrow.
    apply bind_Some in Hrow as (? & _ & Hrow).
    apply bind_Some in Hrow as (? & _ & Hrow).
    apply bind_Some in Hrow as (? & _ & Hrow). by simplify_eq.
Qed.

(** X3. A check whose compared field is the compared field of some check of the
    baseline is not classified as new, and a latest snapshot that has only
    such checks yields no row: re-created checks with new ids, and column
    checks whose kind changed on a column that the baseline checks already,
    are not reported. *)
Theorem known_checks_are_not_reported (baseline : json)
    (v1_info latest_info : Sync.items_info)
    (base_items latest_items : list json) (pid : string) (name : json) :
  Sync.extract_items_info baseline = Some v1_info →
  iter (Sync.items v1_info) = Some base_items →
  iter (Sync.items latest_info) = Some latest_items →
  (∀ y, y ∈ latest_items →
        ∃ x, x ∈ base_items ∧ compared_field y = compared_field x) →
  (∀ y, y ∈ latest_items → Sync.is_new_rule v1_info y = Some false)
  ∧ Sync.find_new_rules v1_info latest_info pid name = Some [].
Proof.
  intros Hextract Hbase Hlatest Hknown.
  assert (∀ x, x ∈ base_items → is_Some (compared_field x)) as Hdefined.
  { unfold Sync.extract_items_info in Hextract.
    apply bind_Some in Hextract as (details & _ & H).
    apply bind_Some in H as (its & _ & H).
    apply bind_Some in H as (item_list & Hlist & H).
    pose proof (extract_items_keeps_items _ _ _ H) as Hits. simpl in Hits.
    rewrite Hits, Hlist in Hbase. simplify_eq.
    rewrite extract_items_record in H.
    apply fmap_Some in H as (ocs & Hocs & _).
    apply mapM_Some in Hocs. intros x Hx.
    destruct (list_elem_of_lookup_1 _ _ Hx) as [i Hi].
    destruct (Forall2_lookup_l _ _ _ _ _ Hocs Hi) as (oc & _ & Hoc). by eexists. }
  assert (∀ y, y ∈ latest_items → Sync.is_new_rule v1_info y = Some false) as Hold.
  { intros y Hy. destruct (Hknown y Hy) as (x & Hx & Hsame).
    destruct (Hdefined x Hx) as [oc Hoc].
    rewrite is_new_rule_recorded, Hsame, Hoc. simpl. f_equal.
    destruct oc as [c|]; [|done]. apply negb_false_iff.
    apply (extract_items_info_recorded _ _ _ c Hextract Hbase). eauto. }
  split; [done|].
  unfold Sync.find_new_rules. rewrite Hlatest. simpl.
  clear Hlatest Hknown. induction latest_items as [|y ys IH]; [done|].
  rewrite for_each_cons.
  assert (Sync.find_new_rule v1_info pid name [] y = Some []) as ->.
  { unfold Sync.find_new_rule.
    pose proof (Hold y ltac:(left)) as Hy. rewrite Hy.
    unfold Sync.is_new_rule in Hy. destruct y as [| | | | |kvs]; try done. }
  simpl. apply IH. intros y' Hy'. apply Hold. by right.
Qed.

Lemma diff_criterion_witness :
  let item := column_check 9 "NOT_NULL" "total" in
  ∃ c, compared_field item = Some (Some c)
       ∧ ∀ x, x ∈ [column_check 1 "NOT_NULL" "amount"] →
              compared_field x ≠ Some (Some c).
Proof.
  intros item.
  apply (diff_criterion (sample_snapshot [column_check 1 "NOT_NULL" "amount"])
           amount_info [column_check 1 "NOT_NULL" "amount"] item true);
    reflexivity.
Defined.

Lemma find_new_rules_rows_witness :
  let latest := [column_check 1 "NOT_NULL" "amount"; column_check 9 "NOT_NULL" "total"] in
  mapM (row_of "P1" (JStr "orders")) (List.filter (reported amount_info) latest)
  = Some [Sync.mk_row "P1" (JStr "orders") (JNum 9) (JStr "NOT_NULL")
            (JStr "NOT_NULL-total")].
Proof.
  intros latest.
  apply (find_new_rules_rows amount_info (empty_info (JArr latest)) "P1"
           (JStr "orders") latest); reflexivity.
Defined.

Lemma known_checks_are_not_reported_witness :
  let renamed := column_check 7 "UNIQUE" "amount" in
  Sync.is_new_rule amount_info renamed = Some false
  ∧ Sync.find_new_rules amount_info (empty_info (JArr [renamed])) "P1" (JStr "orders")
    = Some [].
Proof.
  intros renamed.
  destruct (known_checks_are_not_reported
              (sample_snapshot [column_check 1 "NOT_NULL" "amount"])
              amount_info (empty_info (JArr [renamed]))
              [column_check 1 "NOT_NULL" "amount"] [renamed] "P1" (JStr "orders")
              eq_refl eq_refl eq_refl) as [Hold Hrows].
  - intros y ->%list_elem_of_singleton. eexists. split; [left|reflexivity].
  - split; [apply Hold; left | exact Hrows].
Defined.

(** ** Identity keys *)

Lemma hex_digit_is_hex n : 0 ≤ n < 16 → is_hex (hex_digit n) = true.
Proof.
  intros Hn.
  assert (n = 0 ∨ n = 1 ∨ n = 2 ∨ n = 3 ∨ n = 4 ∨ n = 5 ∨ n = 6 ∨ n = 7 ∨ n = 8
          ∨ n = 9 ∨ n = 10 ∨ n = 11 ∨ n = 12 ∨ n = 13 ∨ n = 14 ∨ n = 15) as H by lia.
  repeat destruct H as [->|H]; try reflexivity. by subst.
Qed.

Lemma hex_byte_is_hex b : 0 ≤ b < 256 → all_hex (MD5.hex_byte b) = true.
Proof.
  intros Hb. unfold MD5.hex_byte. cbn [all_hex].
  rewrite !hex_digit_is_hex; [done| |].
  - apply Z.mod_pos_bound. lia.
  - split; [apply Z.div_pos; lia|]. apply Z.div_lt_upper_bound; lia.
Qed.

Lemma hexdigest_prefix s :
  String.length (String.substring 0 8 (MD5.hexdigest s)) = 8%nat
  ∧ all_hex (String.substring 0 8 (MD5.hexdigest s)) = true.
Proof.
  unfold MD5.hexdigest. cbv zeta.
  destruct (fold_left MD5.compress _ MD5.init) as [a b c d].
  cbn [MD5.le_bytes app map String.concat].
  unfold MD5.hex_byte.
  cbv beta iota fix delta [String.append String.substring String.length all_hex].
  split; [done|].
  assert (∀ x, 0 ≤ x mod 256 < 256) as Hbyte by (intros; apply Z.mod_pos_bound; lia).
  assert (∀ x, 0 ≤ x mod 256 / 16 < 16) as Hhi.
  { intros x. specialize (Hbyte x). split; [apply Z.div_pos; lia|].
    apply Z.div_lt_upper_bound; lia. }
  assert (∀ x, 0 ≤ x mod 256 mod 16 < 16) as Hlo
    by (intros; apply Z.mod_pos_bound; lia).
  by rewrite !hex_digit_is_hex.
Qed.

Lemma compute_hash_same expression :
  Fetch.compute_hash expression = Sync.compute_hash expression.
Proof. done. Qed.

(** X4. The digest part of a key is the same in both scripts: the literal
    [empty] for a false expression, and otherwise eight lowercase
    hexadecimal digits, which the literal cannot be mistaken for. *)
Theorem compute_hash_format (expression : json) (h : string) :
  Sync.compute_hash expression = Some h →
  Fetch.compute_hash expression = Some h
  ∧ (if truthy expression
     then String.length h = 8%nat ∧ all_hex h = true ∧ h ≠ "empty"
     else h = "empty").
Proof.
  intros H. split; [done|]. unfold Sync.compute_hash in H.
  destruct (truthy expression); simpl in H; [|by simplify_eq].
  destruct expression as [| | |s| |]; try done. simplify_eq.
  destruct (hexdigest_prefix s) as [Hlen Hhex]. split_and!; [done..|].
  intros Heq. by rewrite Heq in Hlen.
Qed.

Lemma compute_hash_format_witness :
  Fetch.compute_hash (JStr "abc") = Some "90015098"
  ∧ all_hex "90015098" = true.
Proof.
  destruct (compute_hash_format (JStr "abc") "90015098") as (Hfetch & _ & Hhex & _).
  - vm_compute. reflexivity.
  - split; [exact Hfetch | exact Hhex].
Defined.

(** X5. The identity key of an item is computed from its [measurementType],
    [columnName], [ruleExpression] and [value] and from nothing else: two
    items that agree on these fields have the same key, in both scripts. *)
Theorem key_depends_on_key_fields (kvs1 kvs2 : list (string * json)) :
  (∀ field, field ∈ key_fields → assoc field kvs1 = assoc field kvs2) →
  Sync.get_column_name (JObj kvs1) = Sync.get_column_name (JObj kvs2)
  ∧ Fetch.get_column_name (JObj kvs1) = Fetch.get_column_name (JObj kvs2).
Proof.
  intros Hsame. unfold Sync.get_column_name, Fetch.get_column_name. simpl.
  rewrite (Hsame "measurementType"), (Hsame "columnName"),
    (Hsame "ruleExpression"), (Hsame "value"); [done|..];
    unfold key_fields; set_solver.
Qed.

Lemma key_depends_on_key_fields_witness :
  Sync.get_column_name (column_check 71 "NOT_NULL" "amount")
  = Sync.get_column_name (column_check 10 "NOT_NULL" "amount").
Proof.
  apply (key_depends_on_key_fields
           [("id", JNum 71); ("measurementType", JStr "NOT_NULL");
            ("columnName", JStr "amount")]
           [("id", JNum 10); ("measurementType", JStr "NOT_NULL");
            ("columnName", JStr "amount")]).
  intros field Hfield. unfold key_fields in Hfield.
  repeat (apply elem_of_cons in Hfield as [->|Hfield]; [reflexivity|]).
  by apply elem_of_nil in Hfield.
Defined.


(** ** The ledger of the quality-rule pipeline *)

Lemma sync_set_label_lookup pid key v labels pid' key' :
  (Sync.set_label pid key v labels !! pid' ≫= λ m, m !! key')
  = if decide (pid' = pid ∧ key' = key) then Some v
    else labels !! pid' ≫= λ m, m !! key'.
Proof.
  unfold Sync.set_label.
  destruct (decide (pid = pid')) as [<- | Hpid].
  - rewrite lookup_insert_eq. simpl.
    destruct (decide (key = key')) as [<- | Hkey].
    + rewrite lookup_insert_eq. by rewrite decide_True.
    + rewrite lookup_insert_ne by done.
      rewrite decide_False by (intros [_ ?]; done).
      by destruct (labels !! pid).
  - rewrite lookup_insert_ne by done.
    by rewrite decide_False by (intros [? _]; done).
Qed.

Lemma nonempty_true s : Sync.nonempty s = true ↔ s ≠ "".
Proof.
  unfold Sync.nonempty. rewrite negb_true_iff. apply String.eqb_neq.
Qed.

Lemma sync_read_rows_app rows row acc :
  fold_left Sync.read_row (rows ++ [row]) acc
  = Sync.read_row (fold_left Sync.read_row rows acc) row.
Proof. by rewrite fold_left_app. Qed.

Lemma filter_snoc {A : Type} (p : A → bool) (xs : list A) (x : A) :
  List.filter p (xs ++ [x])
  = (List.filter p xs ++ if p x then [x] else [])%list.
Proof. rewrite List.filter_app. simpl. by destruct (p x). Qed.

Lemma sync_read_row_lookup ids labels row pid key :
  ((Sync.read_row (ids, labels) row).2 !! pid ≫= λ m, m !! HStr key)
  = if records pid key row then Some (JStr (Sync.csv_Rule_ID row))
    else labels !! pid ≫= λ m, m !! HStr key.
Proof.
  unfold Sync.read_row, records. simpl.
  destruct (String.eqb_spec (Sync.csv_Policy_ID row) pid) as [<-|Hp];
    destruct (String.eqb_spec (Sync.csv_Column_Name row) key) as [<-|Hk]; simpl.
  - destruct (Sync.nonempty (Sync.csv_Policy_ID row)),
      (Sync.nonempty (Sync.csv_Column_Name row)),
      (Sync.nonempty (Sync.csv_Rule_ID row)); simpl; try done.
    rewrite sync_set_label_lookup. by rewrite decide_True.
  - destruct (_ && _ && _); [|done].
    rewrite sync_set_label_lookup. rewrite decide_False; [done|].
    intros [_ ?]. simplify_eq.
  - destruct (_ && _ && _); [|done].
    rewrite sync_set_label_lookup. rewrite decide_False; [done|].
    intros [? _]. simplify_eq.
  - destruct (_ && _ && _); [|done].
    rewrite sync_set_label_lookup. rewrite decide_False; [done|].
    intros [? _]. simplify_eq.
Qed.

Lemma sync_read_rows_lookup rows pid key :
  ((fold_left Sync.read_row rows (∅, ∅)).2 !! pid ≫= λ m, m !! HStr key)
  = (λ row, JStr (Sync.csv_Rule_ID row)) <$> last (List.filter (records pid key) rows).
Proof.
  induction rows as [|row rows IH] using rev_ind; [done|].
  rewrite sync_read_rows_app, filter_snoc.
  destruct (fold_left Sync.read_row rows (∅, ∅)) as [ids labels]. simpl in IH.
  rewrite sync_read_row_lookup.
  destruct (records pid key row).
  - by rewrite last_snoc.
  - by rewrite app_nil_r.
Qed.

Lemma sync_read_row_text_keys ids labels row pid k :
  (∀ s, k ≠ HStr s) →
  ((Sync.read_row (ids, labels) row).2 !! pid ≫= λ m, m !! k)
  = labels !! pid ≫= λ m, m !! k.
Proof.
  intros Hk. unfold Sync.read_row. simpl.
  destruct (_ && _ && _); [|done].
  rewrite sync_set_label_lookup. rewrite decide_False; [done|].
  intros [_ ->]. by eapply Hk.
Qed.

Lemma sync_read_row_ids ids labels row id :
  id ∈ (Sync.read_row (ids, labels) row).1
  ↔ id ∈ ids ∨ (id ≠ "" ∧ Sync.csv_Rule_ID row = id).
Proof.
  unfold Sync.read_row. simpl.
  destruct (Sync.nonempty (Sync.csv_Rule_ID row)) eqn:Hid.
  - apply nonempty_true in Hid. set_solver.
  - apply not_true_iff_false in Hid. rewrite nonempty_true in Hid.
    apply dec_stable in Hid. split; [auto|]. intros [?|[? ?]]; [done|]. congruence.
Qed.

(** X7. What [read_existing_csv] of the quality-rule pipeline records: the id of
    a pair (policy, key) is the rule id of the last row of the file whose
    policy, key and rule id are non-empty and match; only text keys are
    recorded; the known rule ids are the non-empty rule ids of the rows; and
    no row counts as appended. *)
Theorem read_existing_csv_last_row_wins (rows : list Sync.csv_row) :
  let st := Sync.read_existing_csv rows in
  (∀ pid key,
     sync_original_id st pid (HStr key)
     = (λ row, JStr (Sync.csv_Rule_ID row))
       <$> last (List.filter (records pid key) rows))
  ∧ (∀ pid k, (∀ s, k ≠ HStr s) → sync_original_id st pid k = None)
  ∧ (∀ id, id ∈ Sync.existing_rule_ids st
           ↔ id ≠ "" ∧ ∃ row, row ∈ rows ∧ Sync.csv_Rule_ID row = id)
  ∧ Sync.new_rules_added st = [].
Proof.
  unfold Sync.read_existing_csv, sync_original_id.
  assert (∀ pid k, (∀ s, k ≠ HStr s) →
            ((fold_left Sync.read_row rows (∅, ∅)).2 !! pid ≫= λ m, m !! k) = None)
    as Htext.
  { intros pid k Hk. induction rows as [|row rows IH] using rev_ind; [done|].
    rewrite sync_read_rows_app.
    destruct (fold_left Sync.read_row rows (∅, ∅)) as [ids labels] eqn:Hfold.
    rewrite sync_read_row_text_keys by done. apply IH. }
  assert (∀ id, id ∈ (fold_left Sync.read_row rows (∅, ∅)).1
            ↔ id ≠ "" ∧ ∃ row, row ∈ rows ∧ Sync.csv_Rule_ID row = id) as Hids.
  { intros id. clear Htext.
    induction rows as [|row rows IH] using rev_ind.
    { simpl. split; [set_solver|]. by intros (_ & ? & ?%elem_of_nil & _). }
    rewrite sync_read_rows_app.
    destruct (fold_left Sync.read_row rows (∅, ∅)) as [ids labels] eqn:Hfold.
    rewrite sync_read_row_ids. simpl in IH. rewrite IH. split.
    - intros [(? & row' & ? & ?)|[? ?]]; (split; [done|]).
      + exists row'. split; [|done]. apply elem_of_app. by left.
      + exists row. split; [|done]. apply elem_of_app. right. by left.
    - intros (Hne & row' & [Hin|Hin%list_elem_of_singleton]%elem_of_app & Hrow).
      + left. eauto.
      + right. by subst. }
  pose proof (sync_read_rows_lookup rows) as Hlookup.
  destruct (fold_left Sync.read_row rows (∅, ∅)) as [ids labels]. simpl.
  split_and!; done.
Qed.

(** *** The comparison pass *)

Lemma sync_pass_refl pids st : sync_pass pids st st.
Proof.
  exists []. rewrite app_nil_r. split_and!; try done.
  - constructor.
  - by intros ? ?%elem_of_nil.
  - simpl. set_solver.
Qed.

Lemma sync_pass_weaken pids pids' st st' :
  pids ⊆ pids' → sync_pass pids st st' → sync_pass pids' st st'.
Proof.
  intros Hsub (more & Hadded & Hdup & Hfresh & Hids & Hframe & Hkeys).
  exists more. split_and!; try done.
  - intros r Hr. destruct (Hfresh r Hr). split; [done|]. by apply Hsub.
  - intros pid Hpid. apply Hframe. intros ?. apply Hpid. by apply Hsub.
Qed.

Lemma sync_pass_trans pids st1 st2 st3 :
  sync_pass pids st1 st2 → sync_pass pids st2 st3 → sync_pass pids st1 st3.
Proof.
  intros (more1 & Hadded1 & Hdup1 & Hfresh1 & Hids1 & Hframe1 & Hkeys1)
         (more2 & Hadded2 & Hdup2 & Hfresh2 & Hids2 & Hframe2 & Hkeys2).
  exists (more1 ++ more2)%list. split_and!.
  - by rewrite Hadded2, Hadded1, app_assoc.
  - rewrite map_app. apply NoDup_app. split_and!; [done| |done].
    intros id Hid1 Hid2.
    apply list_elem_of_fmap in Hid2 as (r & -> & Hr).
    destruct (Hfresh2 r Hr) as [Hnew _]. apply Hnew. rewrite Hids1.
    apply elem_of_union. right. by apply elem_of_list_to_set.
  - intros r [Hr|Hr]%elem_of_app; [by apply Hfresh1|].
    destruct (Hfresh2 r Hr) as [Hnew Hpid]. split; [|done].
    intros Hold. apply Hnew. rewrite Hids1. set_solver.
  - rewrite Hids2, Hids1, map_app, list_to_set_app_L. set_solver.
  - intros pid Hpid. by rewrite Hframe2, Hframe1.
  - intros pid key Hsome. by apply Hkeys2, Hkeys1.
Qed.

Lemma add_new_rule_pass pid st rule st' :
  Sync.Policy_ID rule = pid →
  Sync.add_new_rule pid st rule = Some st' → sync_pass [pid] st st'.
Proof.
  intros Hpid. destruct st as [added ids labels]. unfold Sync.add_new_rule.
  case_bool_decide as Hfresh; [|intros [= <-]; apply sync_pass_refl].
  intros H. apply bind_Some in H as (key & Hkey & [= <-]).
  exists [rule]. simpl. split_and!; try done.
  - apply NoDup_singleton.
  - intros r ->%list_elem_of_singleton. split; [done|]. rewrite Hpid. by left.
  - unfold rule_id_text. set_solver.
  - intros pid' Hpid'. unfold Sync.set_label.
    rewrite lookup_insert_ne; [done|]. intros ->. apply Hpid'. by left.
  - intros pid' key' [v Hv]. unfold sync_original_id in *. simpl in *.
    rewrite sync_set_label_lookup. case_decide; eauto.
Qed.

Lemma add_new_rules_pass pid rules st st' :
  Forall (λ r, Sync.Policy_ID r = pid) rules →
  for_each (Sync.add_new_rule pid) st rules = Some st' → sync_pass [pid] st st'.
Proof.
  intros Hrules. revert st.
  induction Hrules as [|rule rules Hrule _ IH]; intros st H; simpl in H.
  - simplify_eq. apply sync_pass_refl.
  - apply bind_Some in H as (st1 & H1 & H).
    eapply sync_pass_trans; [by eapply add_new_rule_pass|by apply IH].
Qed.

Lemma find_new_rules_policy v1_info latest_info pid name rows :
  Sync.find_new_rules v1_info latest_info pid name = Some rows →
  Forall (λ row, Sync.Policy_ID row = pid ∧ Sync.Policy_Name row = name) rows.
Proof.
  unfold Sync.find_new_rules. intros H.
  apply bind_Some in H as (latest_items & _ & H).
  apply find_new_rules_rows_from in H as (new & -> & Hnew). simpl.
  apply mapM_Some in Hnew.
  induction Hnew as [|item row ? ? Hrow ? IH]; constructor; [|done].
  unfold row_of in Hrow.
  apply bind_Some in Hrow as (? & _ & Hrow).
  apply bind_Some in Hrow as (? & _ & Hrow).
  apply bind_Some in Hrow as (? & _ & Hrow). by simplify_eq.
Qed.

Lemma compare_policy_pass net st info st' :
  Sync.compare_policy net st info = Some st' →
  sync_pass [Sync.policy_id info] st st'.
Proof.
  unfold Sync.compare_policy. intros H.
  destruct (_ || _); [simplify_eq; apply sync_pass_refl|].
  apply bind_Some in H as (v1_info & _ & H).
  apply bind_Some in H as (latest_info & _ & H).
  apply bind_Some in H as (rows & Hrows & H).
  eapply add_new_rules_pass; [|done].
  apply find_new_rules_policy in Hrows.
  eapply Forall_impl; [done|]. by intros ? [? _].
Qed.

Lemma compare_policies_pass net policies st st' :
  Sync.compare_policies net st policies = Some st' →
  sync_pass (map Sync.policy_id policies) st st'.
Proof.
  unfold Sync.compare_policies. revert st.
  induction policies as [|info policies IH]; intros st H; simpl in H.
  - simplify_eq. apply sync_pass_refl.
  - apply bind_Some in H as (st1 & H1 & H).
    eapply sync_pass_trans.
    + eapply sync_pass_weaken; [|by eapply compare_policy_pass].
      intros pid ->%list_elem_of_singleton. simpl. by left.
    + eapply sync_pass_weaken; [|by apply IH].
      intros pid Hpid. simpl. by right.
Qed.

(** X8. The rows that a comparison pass of the quality-rule pipeline appends
    carry rule ids that the ledger did not know, pairwise distinct, and
    belong to compared policies; the set of known ids grows by exactly these
    ids. *)
Theorem appended_rules_have_new_ids net (policies : list Sync.policy_info)
    (st st' : Sync.ledger) :
  Sync.compare_policies net st policies = Some st' →
  ∃ more,
    Sync.new_rules_added st' = (Sync.new_rules_added st ++ more)%list
    ∧ NoDup (map rule_id_text more)
    ∧ (∀ r, r ∈ more → (rule_id_text r ∉ Sync.existing_rule_ids st)
                        ∧ (Sync.Policy_ID r ∈ map Sync.policy_id policies))
    ∧ Sync.existing_rule_ids st'
      = Sync.existing_rule_ids st ∪ list_to_set (map rule_id_text more).
Proof.
  intros H. apply compare_policies_pass in H
    as (more & Hadded & Hdup & Hfresh & Hids & _ & _).
  by exists more.
Qed.

Lemma appended_rules_have_new_ids_witness :
  ∃ st' more,
    Sync.compare_policies orders_net (Sync.read_existing_csv ledger_after_v2)
      [Sync.mk_policy "P1" 3 (JStr "orders")] = Some st'
    ∧ Sync.new_rules_added st' = more
    ∧ NoDup (map rule_id_text more)
    ∧ ∀ r, r ∈ more → rule_id_text r ∉ ({["10"; "50"]} : gset string).
Proof.
  destruct (Sync.compare_policies orders_net (Sync.read_existing_csv ledger_after_v2)
              [Sync.mk_policy "P1" 3 (JStr "orders")]) as [st'|] eqn:Hrun;
    [|vm_compute in Hrun; discriminate].
  destruct (appended_rules_have_new_ids _ _ _ _ Hrun)
    as (more & Hadded & Hdup & Hfresh & _).
  exists st', more. split; [done|]. split; [done|]. split; [done|].
  intros r Hr. destruct (Hfresh r Hr) as [Hnew _].
  intros Hin. apply Hnew. vm_compute. vm_compute in Hin. exact Hin.
Defined.

(** X9. A comparison pass of the quality-rule pipeline writes the labels of
    compared policies only, and a key that the ledger records stays
    recorded. *)
Theorem comparison_touches_compared_policies_only net
    (policies : list Sync.policy_info) (st st' : Sync.ledger) :
  Sync.compare_policies net st policies = Some st' →
  (∀ pid, pid ∉ map Sync.policy_id policies →
          Sync.policy_labels st' !! pid = Sync.policy_labels st !! pid)
  ∧ (∀ pid key, is_Some (sync_original_id st pid key) →
                is_Some (sync_original_id st' pid key)).
Proof.
  intros H. apply compare_policies_pass in H as (more & _ & _ & _ & _ & Hframe & Hkeys).
  done.
Qed.

Lemma comparison_touches_compared_policies_only_witness :
  ∃ st',
    Sync.compare_policies orders_net (Sync.read_existing_csv ledger_after_v2)
      [Sync.mk_policy "P1" 3 (JStr "orders")] = Some st'
    ∧ Sync.policy_labels st' !! "P2"
      = Sync.policy_labels (Sync.read_existing_csv ledger_after_v2) !! "P2"
    ∧ is_Some (sync_original_id st' "P1" (HStr "amount")).
Proof.
  destruct (Sync.compare_policies orders_net (Sync.read_existing_csv ledger_after_v2)
              [Sync.mk_policy "P1" 3 (JStr "orders")]) as [st'|] eqn:Hrun;
    [|vm_compute in Hrun; discriminate].
  destruct (comparison_touches_compared_policies_only _ _ _ _ Hrun) as [Hframe Hkeys].
  exists st'. split; [done|]. split.
  - apply Hframe. simpl. by intros ?%list_elem_of_singleton.
  - apply Hkeys. by eexists.
Defined.

(** *** The appended rows are recorded *)

Lemma add_new_rule_records pid st0 st rule st' :
  Sync.Policy_ID rule = pid →
  sync_records st0 st →
  Sync.add_new_rule pid st rule = Some st' →
  sync_records st0 st'.
Proof.
  intros Hpid (more & Hadded & Hrecorded).
  destruct st as [added ids labels]. unfold Sync.add_new_rule.
  case_bool_decide as Hfresh; [|intros [= <-]; by exists more].
  intros H. apply bind_Some in H as (key & Hkey & [= <-]).
  simpl in Hadded. exists (more ++ [rule])%list. simpl.
  split; [by rewrite Hadded, app_assoc|].
  intros r [Hr|Hr%list_elem_of_singleton]%elem_of_app; [|subst r].
  - destruct (Hrecorded r Hr) as (h & r' & Hh & Hr' & Hsame & Hh' & Hid).
    unfold recorded_row, sync_original_id in *. simpl in *.
    destruct (decide (Sync.Policy_ID r = pid ∧ h = key)) as [[Hp ->]|Hne].
    + exists key, rule. split_and!; try done.
      * apply elem_of_app. right. by left.
      * congruence.
      * rewrite sync_set_label_lookup. by rewrite decide_True.
    + exists h, r'. split_and!; try done.
      * apply elem_of_app. by left.
      * rewrite sync_set_label_lookup. by rewrite decide_False.
  - exists key, rule. split_and!; try done.
    + apply elem_of_app. right. by left.
    + unfold sync_original_id. simpl.
      rewrite sync_set_label_lookup. by rewrite decide_True.
Qed.

Lemma add_new_rules_record pid rules st0 st st' :
  Forall (λ r, Sync.Policy_ID r = pid) rules →
  sync_records st0 st →
  for_each (Sync.add_new_rule pid) st rules = Some st' →
  sync_records st0 st'.
Proof.
  intros Hrules. revert st.
  induction Hrules as [|rule rules Hrule _ IH]; intros st Hst H; simpl in H.
  - by simplify_eq.
  - apply bind_Some in H as (st1 & H1 & H).
    apply (IH st1); [|done]. by eapply add_new_rule_records.
Qed.

Lemma compare_policy_records net st0 st info st' :
  sync_records st0 st →
  Sync.compare_policy net st info = Some st' →
  sync_records st0 st'.
Proof.
  unfold Sync.compare_policy. intros Hst H.
  destruct (_ || _); [by simplify_eq|].
  apply bind_Some in H as (v1_info & _ & H).
  apply bind_Some in H as (latest_info & _ & H).
  apply bind_Some in H as (rows & Hrows & H).
  eapply add_new_rules_record; [|done..].
  apply find_new_rules_policy in Hrows.
  eapply Forall_impl; [done|]. by intros ? [? _].
Qed.

(** X10. Every row that a comparison pass of the quality-rule pipeline appends is
    recorded: after the pass the ledger holds, for the policy and the key of
    the row, the rule id of an appended row of this policy with this key. *)
Theorem appended_rules_are_recorded net (policies : list Sync.policy_info)
    (st st' : Sync.ledger) :
  Sync.compare_policies net st policies = Some st' →
  ∃ more,
    Sync.new_rules_added st' = (Sync.new_rules_added st ++ more)%list
    ∧ ∀ r, r ∈ more → recorded_row more st' r.
Proof.
  unfold Sync.compare_policies.
  assert (sync_records st st) as Hstart.
  { exists []. rewrite app_nil_r. split; [done|]. by intros ? ?%elem_of_nil. }
  revert Hstart. generalize st at 2 3 as st1. intros st1 Hstart H.
  revert st1 Hstart H.
  induction policies as [|info policies IH]; intros st1 Hstart H; simpl in H.
  - by simplify_eq.
  - apply bind_Some in H as (st2 & H2 & H).
    apply (IH st2); [|done]. by eapply compare_policy_records.
Qed.

Lemma appended_rules_are_recorded_witness :
  ∃ st',
    Sync.compare_policies orders_net (Sync.read_existing_csv ledger_after_v2)
      [Sync.mk_policy "P1" 3 (JStr "orders")] = Some st'
    ∧ ∀ r, r ∈ Sync.new_rules_added st' →
           recorded_row (Sync.new_rules_added st') st' r.
Proof.
  destruct (Sync.compare_policies orders_net (Sync.read_existing_csv ledger_after_v2)
              [Sync.mk_policy "P1" 3 (JStr "orders")]) as [st'|] eqn:Hrun;
    [|vm_compute in Hrun; discriminate].
  destruct (appended_rules_are_recorded _ _ _ _ Hrun) as (more & Hadded & Hrecorded).
  exists st'. split; [done|]. simpl in Hadded. by rewrite Hadded.
Defined.

(** ** The ledger of the reconciliation pipeline: appended rows *)

Lemma recon_pass_refl pids st : recon_ledger_inv st → recon_pass pids st st.
Proof.
  intros Hinv. split; [done|]. exists []. rewrite app_nil_r. split_and!; try done.
  - constructor.
  - by intros ? ?%elem_of_nil.
  - simpl. set_solver.
Qed.

Lemma recon_pass_weaken pids pids' st st' :
  pids ⊆ pids' → recon_pass pids st st' → recon_pass pids' st st'.
Proof.
  intros Hsub (Hinv & more & Hadded & Hdup & Hfresh & Hkeys & Hframe & Hkept).
  split; [done|]. exists more. split_and!; try done.
  - intros r Hr. destruct (Hfresh r Hr) as (? & ? & ?). split_and!; try done.
    by apply Hsub.
  - intros pid Hpid. apply Hframe. intros ?. apply Hpid. by apply Hsub.
Qed.

Lemma recon_pass_trans pids st1 st2 st3 :
  recon_pass pids st1 st2 → recon_pass pids st2 st3 → recon_pass pids st1 st3.
Proof.
  intros (Hinv1 & more1 & Hadded1 & Hdup1 & Hfresh1 & Hkeys1 & Hframe1 & Hkept1)
         (Hinv2 & more2 & Hadded2 & Hdup2 & Hfresh2 & Hkeys2 & Hframe2 & Hkept2).
  split; [done|]. exists (more1 ++ more2)%list. split_and!.
  - by rewrite Hadded2, Hadded1, app_assoc.
  - rewrite map_app. apply NoDup_app. split_and!; [done| |done].
    intros k Hk1 Hk2.
    apply list_elem_of_fmap in Hk2 as (r & -> & Hr).
    destruct (Hfresh2 r Hr) as (Hnew & _ & _). apply Hnew. rewrite Hkeys1.
    apply elem_of_union. right. by apply elem_of_list_to_set.
  - intros r [Hr|Hr]%elem_of_app.
    + destruct (Hfresh1 r Hr) as (? & ? & ?). split_and!; try done. by apply Hkept2.
    + destruct (Hfresh2 r Hr) as (Hnew & Hpid & Hid). split_and!; try done.
      intros Hold. apply Hnew. rewrite Hkeys1. set_solver.
  - rewrite Hkeys2, Hkeys1, map_app, list_to_set_app_L. set_solver.
  - intros pid Hpid. by rewrite Hframe2, Hframe1.
  - intros pid key v Hv. by apply Hkept2, Hkept1.
Qed.

Lemma add_new_mapping_pass pid st row :
  recon_ledger_inv st → Recon.Policy_ID row = pid →
  recon_pass [pid] st (Recon.add_new_mapping pid st row).
Proof.
  intros Hinv Hpid.
  destruct (recon_add_new_mapping_keeps pid st row Hinv) as (Hinv' & Hkept & _).
  split; [done|]. revert Hinv' Hkept.
  destruct st as [added keys labels]. simpl.
  case_bool_decide as Hfresh; intros Hinv' Hkept.
  - exists [row]. simpl. split_and!; try done.
    + apply NoDup_singleton.
    + intros r ->%list_elem_of_singleton. unfold row_full_key, row_key.
      rewrite Hpid. split_and!; [done|by left|].
      unfold recon_original_id. simpl.
      rewrite recon_set_label_lookup. by rewrite decide_True.
    + unfold row_full_key, row_key. rewrite Hpid. set_solver.
    + intros pid' Hpid'. unfold Recon.set_label.
      rewrite lookup_insert_ne; [done|]. intros ->. apply Hpid'. by left.
  - exists []. rewrite app_nil_r. split_and!; try done.
    + constructor.
    + by intros ? ?%elem_of_nil.
    + simpl. set_solver.
Qed.

Lemma add_new_mappings_pass pid rows st :
  recon_ledger_inv st → Forall (λ r, Recon.Policy_ID r = pid) rows →
  recon_pass [pid] st (fold_left (Recon.add_new_mapping pid) rows st).
Proof.
  intros Hinv Hrows. revert st Hinv.
  induction Hrows as [|row rows Hrow _ IH]; intros st Hinv; simpl.
  - by apply recon_pass_refl.
  - pose proof (add_new_mapping_pass pid st row Hinv Hrow) as Hone.
    eapply recon_pass_trans; [done|]. apply IH. by destruct Hone.
Qed.

Lemma find_new_mappings_policy v1_info latest_info pid name rows :
  Recon.find_new_mappings v1_info latest_info pid name = Some rows →
  Forall (λ row, Recon.Policy_ID row = pid) rows.
Proof.
  unfold Recon.find_new_mappings. intros H.
  apply bind_Some in H as (latest_mappings & _ & H).
  assert (∀ acc, Forall (λ row, Recon.Policy_ID row = pid) acc →
            for_each (Recon.find_new_mapping v1_info (Recon.recon_type latest_info)
                        pid name) acc latest_mappings = Some rows →
            Forall (λ row, Recon.Policy_ID row = pid) rows) as Hloop.
  { clear H. induction latest_mappings as [|m ms IH]; intros acc Hacc H; simpl in H.
    - by simplify_eq.
    - apply bind_Some in H as (acc1 & H1 & H). apply (IH acc1); [|done].
      unfold Recon.find_new_mapping in H1.
      apply bind_Some in H1 as (left_col & _ & H1).
      apply bind_Some in H1 as (right_col & _ & H1).
      apply bind_Some in H1 as (mapping_id & _ & H1).
      destruct (_ && _); [|by simplify_eq].
      case_bool_decide; simplify_eq; [|done].
      apply Forall_app. split; [done|]. by constructor. }
  by apply (Hloop []).
Qed.

Lemma recon_compare_policy_pass net st info st' :
  recon_ledger_inv st →
  Recon.compare_policy net st info = Some st' →
  recon_pass [Sync.policy_id info] st st'.
Proof.
  unfold Recon.compare_policy. intros Hinv H.
  destruct (_ || _); [simplify_eq; by apply recon_pass_refl|].
  apply bind_Some in H as (v1_info & _ & H).
  apply bind_Some in H as (latest_info & _ & H).
  apply bind_Some in H as (rows & Hrows & H). simplify_eq.
  apply add_new_mappings_pass; [done|]. by eapply find_new_mappings_policy.
Qed.

Lemma recon_compare_policies_pass net policies st st' :
  recon_ledger_inv st →
  Recon.compare_policies net st policies = Some st' →
  recon_pass (map Sync.policy_id policies) st st'.
Proof.
  unfold Recon.compare_policies. revert st.
  induction policies as [|info policies IH]; intros st Hinv H; simpl in H.
  - simplify_eq. by apply recon_pass_refl.
  - apply bind_Some in H as (st1 & H1 & H).
    pose proof (recon_compare_policy_pass _ _ _ _ Hinv H1) as Hone.
    eapply recon_pass_trans.
    + eapply recon_pass_weaken; [|done].
      intros pid ->%list_elem_of_singleton. simpl. by left.
    + eapply recon_pass_weaken; [|apply IH; [by destruct Hone|done]].
      intros pid Hpid. simpl. by right.
Qed.

(** X11. In the reconciliation pipeline the rule id recorded for a pair (policy,
    column key) never changes: a ledger read from the file keeps every
    recorded id through any comparison pass. *)
Theorem recon_recorded_ids_are_kept net (rows : list Recon.csv_row)
    (policies : list Sync.policy_info) (st' : Recon.ledger) :
  Recon.compare_policies net (Recon.read_existing_csv rows) policies = Some st' →
  ∀ pid key v,
    recon_original_id (Recon.read_existing_csv rows) pid key = Some v →
    recon_original_id st' pid key = Some v.
Proof.
  intros H. apply recon_compare_policies_pass in H; [|apply recon_read_existing_csv_inv].
  by destruct H as (_ & more & _ & _ & _ & _ & _ & Hkept).
Qed.

(** X12. The rows that a comparison pass of the reconciliation pipeline appends
    have full keys that the ledger did not know, pairwise distinct, belong to
    compared policies, and each of them is recorded under its own rule id. *)
Theorem recon_appended_rows_are_recorded net (rows : list Recon.csv_row)
    (policies : list Sync.policy_info) (st' : Recon.ledger) :
  Recon.compare_policies net (Recon.read_existing_csv rows) policies = Some st' →
  NoDup (map row_full_key (Recon.new_mappings_added st'))
  ∧ ∀ r, r ∈ Recon.new_mappings_added st' →
      (row_full_key r ∉ Recon.existing_mapping_keys (Recon.read_existing_csv rows))
      ∧ (Recon.Policy_ID r ∈ map Sync.policy_id policies)
      ∧ recon_original_id st' (Recon.Policy_ID r) (row_key r) = Some (Recon.Rule_ID r).
Proof.
  intros H. apply recon_compare_policies_pass in H; [|apply recon_read_existing_csv_inv].
  destruct H as (_ & more & Hadded & Hdup & Hfresh & _).
  assert (Recon.new_mappings_added (Recon.read_existing_csv rows) = []) as Hnone.
  { unfold Recon.read_existing_csv. by destruct (fold_left _ _ _). }
  rewrite Hnone in Hadded. simpl in Hadded. rewrite Hadded. done.
Qed.

Lemma recon_recorded_ids_are_kept_witness :
  ∃ st',
    Recon.compare_policies recon_net (Recon.read_existing_csv recon_rows)
      [Sync.mk_policy "12" 2 (JStr "orders-vs-billing")] = Some st'
    ∧ recon_original_id st' "12" "id_id" = Some (JStr "31").
Proof.
  destruct (Recon.compare_policies recon_net (Recon.read_existing_csv recon_rows)
              [Sync.mk_policy "12" 2 (JStr "orders-vs-billing")])
    as [st'|] eqn:Hrun; [|vm_compute in Hrun; discriminate].
  exists st'. split; [done|].
  apply (recon_recorded_ids_are_kept _ _ _ _ Hrun). reflexivity.
Defined.

Lemma recon_appended_rows_are_recorded_witness :
  ∃ st',
    Recon.compare_policies recon_net (Recon.read_existing_csv recon_rows)
      [Sync.mk_policy "12" 2 (JStr "orders-vs-billing")] = Some st'
    ∧ NoDup (map row_full_key (Recon.new_mappings_added st'))
    ∧ ∀ r, r ∈ Recon.new_mappings_added st' →
           recon_original_id st' (Recon.Policy_ID r) (row_key r)
           = Some (Recon.Rule_ID r).
Proof.
  destruct (Recon.compare_policies recon_net (Recon.read_existing_csv recon_rows)
              [Sync.mk_policy "12" 2 (JStr "orders-vs-billing")])
    as [st'|] eqn:Hrun; [|vm_compute in Hrun; discriminate].
  destruct (recon_appended_rows_are_recorded _ _ _ _ Hrun) as [Hdup Hrows].
  exists st'. split; [done|]. split; [done|].
  intros r Hr. by destruct (Hrows r Hr) as (_ & _ & ?).
Defined.

(** ** The version diff of the reconciliation pipeline *)

Lemma extract_mapping_key keys mapping :
  Recon.extract_mapping keys mapping
  = (λ ok : option string, match ok with Some k => {[k]} ∪ keys | None => keys end)
    <$> mapping_key mapping.
Proof.
  unfold Recon.extract_mapping, mapping_key.
  destruct mapping as [| | | | |kvs]; [done..|]. simpl.
  by destruct (_ && _).
Qed.

Lemma extract_mappings_keys mapping_list keys keys' :
  for_each Recon.extract_mapping keys mapping_list = Some keys' →
  ∀ k, k ∈ keys' ↔ k ∈ keys ∨ ∃ m, m ∈ mapping_list ∧ mapping_key m = Some (Some k).
Proof.
  revert keys. induction mapping_list as [|m ms IH]; intros keys H k; simpl in H.
  - simplify_eq. split; [auto|]. by intros [?|(? & ?%elem_of_nil & _)].
  - apply bind_Some in H as (keys1 & H1 & H).
    rewrite extract_mapping_key in H1. apply fmap_Some in H1 as (ok & Hok & ->).
    rewrite (IH _ H k). split.
    + intros [Hk|(m' & Hm' & Hkey)].
      * destruct ok as [k'|]; [|by left].
        apply elem_of_union in Hk as [->%elem_of_singleton|Hk]; [|by left].
        right. exists m. split; [by left|done].
      * right. exists m'. split; [by right|done].
    + intros [Hk|(m' & [->|Hm']%elem_of_cons & Hkey)].
      * left. destruct ok; set_solver.
      * left. rewrite Hok in Hkey. simplify_eq. set_solver.
      * right. eauto.
Qed.

Lemma extract_mappings_info_keys data info base :
  Recon.extract_mappings_info data = Some info →
  iter (Recon.mappings info) = Some base →
  ∀ k, k ∈ Recon.mapping_keys info
       ↔ ∃ m, m ∈ base ∧ mapping_key m = Some (Some k).
Proof.
  unfold Recon.extract_mappings_info. intros H Hiter k.
  apply bind_Some in H as (details & _ & H).
  apply bind_Some in H as (column_mappings & _ & H).
  apply bind_Some in H as (its & _ & H).
  apply bind_Some in H as (recon_type & _ & H).
  apply bind_Some in H as (mapping_list & Hlist & H).
  apply bind_Some in H as (keys & Hkeys & H). simplify_eq. simpl in *.
  rewrite Hlist in Hiter. simplify_eq.
  rewrite (extract_mappings_keys _ _ _ Hkeys k). set_solver.
Qed.

(** X13. The criterion of the diff of the reconciliation pipeline: a mapping is
    reported exactly when its two column names are true values and no
    mapping of the baseline with two true column names has the same column
    key. *)
Theorem recon_diff_criterion (baseline : json) (v1_info : Recon.mappings_info)
    (base : list json) (mapping : json) :
  Recon.extract_mappings_info baseline = Some v1_info →
  iter (Recon.mappings v1_info) = Some base →
  mapping_reported v1_info mapping = true
  ↔ ∃ key, mapping_key mapping = Some (Some key)
           ∧ ∀ m, m ∈ base → mapping_key m ≠ Some (Some key).
Proof.
  intros Hextract Hiter.
  pose proof (extract_mappings_info_keys _ _ _ Hextract Hiter) as Hkeys.
  unfold mapping_reported. split.
  - destruct (mapping_key mapping) as [[key|]|]; [|done..].
    intros Hnew%bool_decide_eq_true. exists key. split; [done|].
    intros m Hm Hkey. apply Hnew, Hkeys. eauto.
  - intros (key & -> & Hnone). apply bool_decide_eq_true.
    intros (m & Hm & Hkey)%Hkeys. by eapply Hnone.
Qed.

Lemma find_new_mapping_rows v1_info recon_type pid name acc mapping acc' :
  Recon.find_new_mapping v1_info recon_type pid name acc mapping = Some acc' →
  ∃ new, acc' = (acc ++ new)%list
         ∧ mapM (mapping_row_of pid name recon_type)
                (List.filter (mapping_reported v1_info) [mapping]) = Some new.
Proof.
  unfold Recon.find_new_mapping, mapping_row_of, mapping_reported, mapping_key.
  intros H.
  apply bind_Some in H as (left_col & Hleft & H).
  apply bind_Some in H as (right_col & Hright & H).
  apply bind_Some in H as (mapping_id & Hid & H).
  simpl. rewrite Hleft, Hright. simpl.
  destruct (_ && _).
  - case_bool_decide; simplify_eq.
    + eexists. split; [done|]. simpl. by rewrite Hleft, Hright, Hid.
    + exists []. by rewrite app_nil_r.
  - simplify_eq. exists []. by rewrite app_nil_r.
Qed.

(** X14. The rows that [find_new_mappings] returns are the rows of the reported
    mappings, in the order of the latest snapshot, with the given policy id
    and name and the reconciliation type of the latest snapshot. *)
Theorem find_new_mappings_rows (v1_info latest_info : Recon.mappings_info)
    (pid : string) (name : json) (latest : list json)
    (rows : list Recon.mapping_row) :
  iter (Recon.mappings latest_info) = Some latest →
  Recon.find_new_mappings v1_info latest_info pid name = Some rows →
  mapM (mapping_row_of pid name (Recon.recon_type latest_info))
       (List.filter (mapping_reported v1_info) latest) = Some rows.
Proof.
  unfold Recon.find_new_mappings. intros Hiter H. rewrite Hiter in H. simpl in H.
  assert (∀ acc rows,
    for_each (Recon.find_new_mapping v1_info (Recon.recon_type latest_info) pid name)
             acc latest = Some rows →
    ∃ new, rows = (acc ++ new)%list
           ∧ mapM (mapping_row_of pid name (Recon.recon_type latest_info))
                  (List.filter (mapping_reported v1_info) latest) = Some new) as Hloop.
  { clear. induction latest as [|m ms IH]; intros acc rows H; simpl in H.
    - simplify_eq. exists []. by rewrite app_nil_r.
    - apply bind_Some in H as (acc1 & H1 & H).
      apply find_new_mapping_rows in H1 as (new1 & -> & Hnew1).
      apply IH in H as (new & -> & Hnew).
      exists (new1 ++ new)%list. split; [by rewrite app_assoc|].
      rewrite filter_cons_app. by apply mapM_app_Some. }
  by destruct (Hloop [] rows H) as (new & -> & Hnew).
Qed.

Lemma recon_diff_criterion_witness :
  let added := JObj [("id", JNum 32); ("leftColumnName", JStr "total");
                     ("rightColumnName", JStr "amount")] in
  ∃ key, mapping_key added = Some (Some key)
         ∧ ∀ m, m ∈ [JObj [("id", JNum 31); ("leftColumnName", JStr "id");
                           ("rightColumnName", JStr "id")]] →
                mapping_key m ≠ Some (Some key).
Proof.
  intros added.
  destruct (Recon.extract_mappings_info recon_v1) as [v1_info|] eqn:Hextract;
    [|vm_compute in Hextract; discriminate].
  apply (recon_diff_criterion recon_v1 v1_info _ added Hextract).
  - vm_compute in Hextract. by injection Hextract as <-.
  - vm_compute in Hextract. by injection Hextract as <-.
Defined.

Lemma find_new_mappings_rows_witness :
  ∃ v1_info latest_info latest rows,
    Recon.extract_mappings_info recon_v1 = Some v1_info
    ∧ Recon.extract_mappings_info recon_policy = Some latest_info
    ∧ Recon.find_new_mappings v1_info latest_info "12" (JStr "orders-vs-billing")
      = Some rows
    ∧ length rows = 1%nat
    ∧ mapM (mapping_row_of "12" (JStr "orders-vs-billing")
              (Recon.recon_type latest_info))
           (List.filter (mapping_reported v1_info) latest) = Some rows.
Proof.
  destruct (Recon.extract_mappings_info recon_v1) as [v1_info|] eqn:Hv1;
    [|vm_compute in Hv1; discriminate].
  destruct (Recon.extract_mappings_info recon_policy) as [latest_info|] eqn:Hlatest;
    [|vm_compute in Hlatest; discriminate].
  destruct (Recon.find_new_mappings v1_info latest_info "12" (JStr "orders-vs-billing"))
    as [rows|] eqn:Hrows.
  - destruct (iter (Recon.mappings latest_info)) as [latest|] eqn:Hiter.
    + exists v1_info, latest_info, latest, rows. split_and!; try done.
      * vm_compute in Hv1, Hlatest. injection Hv1 as <-. injection Hlatest as <-.
        vm_compute in Hrows. by injection Hrows as <-.
      * by apply (find_new_mappings_rows v1_info latest_info _ _ latest rows).
    + vm_compute in Hlatest. injection Hlatest as <-. discriminate.
  - vm_compute in Hv1, Hlatest. injection Hv1 as <-. injection Hlatest as <-.
    vm_compute in Hrows. discriminate.
Defined.

(** ** Reading the ledger file of the reconciliation pipeline *)

Lemma recon_read_row_lookup keys labels row pid key :
  ((Recon.read_row (keys, labels) row).2 !! pid ≫= λ m, m !! key)
  = if recon_records pid key row then Some (JStr (Recon.csv_Rule_ID row))
    else labels !! pid ≫= λ m, m !! key.
Proof.
  unfold Recon.read_row, recon_records, recon_keyed, csv_row_key. simpl.
  destruct (_ && _ && _) eqn:Hkeyed; [|by rewrite !andb_false_r].
  destruct (Sync.nonempty (Recon.csv_Rule_ID row)); simpl;
    [|by rewrite !andb_false_r].
  rewrite recon_set_label_lookup, !andb_true_r.
  destruct (String.eqb_spec (Recon.csv_Policy_ID row) pid) as [<-|Hp];
    destruct (String.eqb_spec
                (Recon.get_column_key (JStr (Recon.csv_Left_Column_Name row))
                                      (JStr (Recon.csv_Right_Column_Name row)))
                key) as [<-|Hk]; simpl.
  - by rewrite decide_True.
  - rewrite decide_False; [done|]. by intros [_ ->].
  - rewrite decide_False; [done|]. by intros [-> _].
  - rewrite decide_False; [done|]. by intros [-> _].
Qed.

Lemma recon_read_row_keys keys labels row k :
  k ∈ (Recon.read_row (keys, labels) row).1
  ↔ k ∈ keys
    ∨ (recon_keyed row = true
       ∧ k = Recon.full_key (Recon.csv_Policy_ID row) (csv_row_key row)).
Proof.
  unfold Recon.read_row, recon_keyed, csv_row_key. simpl.
  destruct (_ && _ && _).
  - destruct (Sync.nonempty (Recon.csv_Rule_ID row)); simpl; set_solver.
  - simpl. split; [auto|]. by intros [?|[? _]].
Qed.

(** X15. What [read_existing_csv] of the reconciliation pipeline records: the id
    of a pair (policy, column key) is the rule id of the last row of the
    file with that policy and key whose policy, columns and rule id are
    non-empty; the known full keys are those of the rows whose policy and
    columns are non-empty, whatever their rule id; and no row counts as
    appended. *)
Theorem recon_read_existing_csv_last_row_wins (rows : list Recon.csv_row) :
  let st := Recon.read_existing_csv rows in
  (∀ pid key,
     recon_original_id st pid key
     = (λ row, JStr (Recon.csv_Rule_ID row))
       <$> last (List.filter (recon_records pid key) rows))
  ∧ (∀ k, k ∈ Recon.existing_mapping_keys st
          ↔ ∃ row, row ∈ rows ∧ recon_keyed row = true
                   ∧ k = Recon.full_key (Recon.csv_Policy_ID row) (csv_row_key row))
  ∧ Recon.new_mappings_added st = [].
Proof.
  unfold Recon.read_existing_csv, recon_original_id.
  assert (∀ pid key,
    ((fold_left Recon.read_row rows (∅, ∅)).2 !! pid ≫= λ m, m !! key)
    = (λ row, JStr (Recon.csv_Rule_ID row))
      <$> last (List.filter (recon_records pid key) rows)) as Hlookup.
  { intros pid key. induction rows as [|row rows IH] using rev_ind; [done|].
    rewrite fold_left_app, filter_snoc. cbn [fold_left].
    destruct (fold_left Recon.read_row rows (∅, ∅)) as [keys labels]. simpl in IH.
    rewrite recon_read_row_lookup.
    destruct (recon_records pid key row).
    - by rewrite last_snoc.
    - by rewrite app_nil_r. }
  assert (∀ k, k ∈ (fold_left Recon.read_row rows (∅, ∅)).1
    ↔ ∃ row, row ∈ rows ∧ recon_keyed row = true
             ∧ k = Recon.full_key (Recon.csv_Policy_ID row) (csv_row_key row))
    as Hkeys.
  { intros k. clear Hlookup. induction rows as [|row rows IH] using rev_ind.
    { simpl. split; [set_solver|]. by intros (? & ?%elem_of_nil & _). }
    rewrite fold_left_app. cbn [fold_left].
    destruct (fold_left Recon.read_row rows (∅, ∅)) as [keys labels].
    rewrite recon_read_row_keys. simpl in IH. rewrite IH. split.
    - intros [(row' & ? & ? & ?)|[? ?]].
      + exists row'. split; [|done]. apply elem_of_app. by left.
      + exists row. split; [|done]. apply elem_of_app. right. by left.
    - intros (row' & [Hin|Hin%list_elem_of_singleton]%elem_of_app & Hkeyed & Hk).
      + left. eauto.
      + right. by subst. }
  destruct (fold_left Recon.read_row rows (∅, ∅)) as [keys labels]. simpl.
  split_and!; done.
Qed.

(** ** The labelling step *)

Lemma label_policy_inv ov fetched stored st pid lm st' :
  Sync.label_policy ov fetched stored st (pid, lm) = Some st' →
  let policy_data := Sync.fetch_policy (fetched pid) in
  (truthy policy_data = false ∧ st' = st)
  ∨ (truthy policy_data = true
     ∧ ∃ payload added skipped,
         Sync.build_update_payload ov policy_data lm = Some (payload, added, skipped)
         ∧ is_Some (Sync.join_keys skipped) ∧ is_Some (Sync.join_keys added)
         ∧ Sync.total_labels_skipped st'
           = (Sync.total_labels_skipped st + length skipped)%nat
         ∧ ((added = []
             ∧ Sync.put_requests st' = Sync.put_requests st
             ∧ Sync.total_labels_added st' = Sync.total_labels_added st
             ∧ Sync.policies_updated st' = Sync.policies_updated st)
            ∨ (added ≠ []
               ∧ Sync.put_requests st'
                 = (Sync.put_requests st ++ [(pid, payload)])%list
               ∧ Sync.total_labels_added st'
                 = (Sync.total_labels_added st
                    + if Sync.update_policy (stored pid payload)
                      then length added else 0)%nat
               ∧ Sync.policies_updated st'
                 = (Sync.policies_updated st
                    + if Sync.update_policy (stored pid payload) then 1 else 0)%nat))).
Proof.
  unfold Sync.label_policy. destruct st as [total_added total_skipped updated requests].
  intros H. cbv zeta.
  destruct (truthy (Sync.fetch_policy (fetched pid))) eqn:Htruthy; simpl in H.
  2: { left. by simplify_eq. }
  right. split; [done|].
  apply bind_Some in H as (rule & _ & H).
  apply bind_Some in H as (policy_name & _ & H).
  apply bind_Some in H as ([[payload added] skipped] & Hbuild & H).
  apply bind_Some in H as (skipped_total & Hskipped & H).
  exists payload, added, skipped. split; [done|].
  assert (is_Some (Sync.join_keys skipped)
          ∧ skipped_total = (total_skipped + length skipped)%nat) as [Hjoin ->].
  { destruct (bool_decide (skipped ≠ [])) eqn:Hnone.
    - apply bind_Some in Hskipped as (? & ? & Hskipped). by simplify_eq.
    - apply bool_decide_eq_false in Hnone. apply dec_stable in Hnone.
      subst. simpl. simplify_eq. split; [by eexists|lia]. }
  split; [done|].
  destruct (bool_decide (added = [])) eqn:Hadded.
  - apply bool_decide_eq_true in Hadded. simplify_eq. simpl.
    split; [by eexists|]. split; [done|]. left. done.
  - apply bool_decide_eq_false in Hadded.
    apply bind_Some in H as (? & ? & H). split; [by eexists|].
    destruct (Sync.update_policy _); simplify_eq; simpl;
      (split; [done|]); right; split_and!; try done; lia.
Qed.

Lemma label_policy_requests ov fetched stored st entry st' :
  Sync.label_policy ov fetched stored st entry = Some st' →
  ∃ more,
    Sync.put_requests st' = (Sync.put_requests st ++ more)%list
    ∧ Forall (justified ov fetched [entry]) more
    ∧ Sync.policies_updated st'
      = (Sync.policies_updated st + length (List.filter (accepted stored) more))%nat
    ∧ (length more ≤ 1)%nat.
Proof.
  destruct entry as [pid lm]. intros H.
  apply label_policy_inv in H
    as [[_ ->]|(_ & payload & added & skipped & Hbuild & _ & _ & _ & H)].
  { exists []. rewrite app_nil_r. simpl. split_and!; try done. lia. }
  destruct H as [(-> & Hreq & _ & Hupd)|(Hadded & Hreq & _ & Hupd)].
  - exists []. rewrite app_nil_r. simpl. split_and!; try done; lia.
  - exists [(pid, payload)]. split_and!; try done.
    + constructor; [|done]. exists lm, added, skipped. simpl.
      split_and!; try done. by left.
    + rewrite Hupd. unfold accepted. simpl. by destruct (Sync.update_policy _).
Qed.

Lemma justified_weaken ov fetched entries entries' request :
  entries ⊆ entries' →
  justified ov fetched entries request → justified ov fetched entries' request.
Proof.
  intros Hsub (lm & added & skipped & Hin & Hbuild & Hadded).
  exists lm, added, skipped. split_and!; try done. by apply Hsub.
Qed.

(** X16. The labelling step of the quality-rule pipeline sends a PUT only for a
    definition to which the pass added a label, with the payload built for
    it, at most one for each entry of the ledger, and the count of updated
    policies is the count of accepted PUTs. *)
Theorem labelling_writes_only_added_labels (ov : bool)
    (fetched : string → Sync.http_outcome)
    (stored : string → json → Sync.http_outcome)
    (st st' : Sync.totals) (entries : list (string * gmap hkey json)) :
  Sync.label_policies ov fetched stored st entries = Some st' →
  ∃ more,
    Sync.put_requests st' = (Sync.put_requests st ++ more)%list
    ∧ Forall (justified ov fetched entries) more
    ∧ Sync.policies_updated st'
      = (Sync.policies_updated st + length (List.filter (accepted stored) more))%nat
    ∧ (length more ≤ length entries)%nat.
Proof.
  unfold Sync.label_policies. revert st.
  induction entries as [|entry entries IH]; intros st H; simpl in H.
  - simplify_eq. exists []. rewrite app_nil_r. simpl. split_and!; try done; lia.
  - apply bind_Some in H as (st1 & H1 & H).
    apply label_policy_requests in H1 as (more1 & Hreq1 & Hjust1 & Hupd1 & Hlen1).
    apply IH in H as (more & Hreq & Hjust & Hupd & Hlen).
    exists (more1 ++ more)%list. split_and!.
    + by rewrite Hreq, Hreq1, app_assoc.
    + apply Forall_app. split.
      * eapply Forall_impl; [done|]. intros req. apply justified_weaken.
        intros e ->%list_elem_of_singleton. by left.
      * eapply Forall_impl; [done|]. intros req. apply justified_weaken.
        intros e He. by right.
    + rewrite Hupd, Hupd1, List.filter_app, length_app. lia.
    + rewrite length_app. simpl. lia.
Qed.

Lemma join_keys_perm keys keys' :
  keys ≡ₚ keys' → is_Some (Sync.join_keys keys) → is_Some (Sync.join_keys keys').
Proof.
  unfold Sync.join_keys. intros Hperm. rewrite !fmap_is_Some, !mapM_is_Some.
  by rewrite Hperm.
Qed.

Lemma join_keys_app keys keys' :
  is_Some (Sync.join_keys keys) → is_Some (Sync.join_keys keys') →
  is_Some (Sync.join_keys (keys ++ keys')).
Proof.
  unfold Sync.join_keys. rewrite !fmap_is_Some, !mapM_is_Some, Forall_app. done.
Qed.

(** X17. Once a payload of the quality-rule pipeline has been written and the
    service holds it, the next labelling step of the policy in normal mode
    sends nothing and counts nothing as added: the keys of the first pass
    are counted as already present. *)
Theorem second_labelling_pass_sends_nothing
    (fetched fetched' : string → Sync.http_outcome)
    (stored stored' : string → json → Sync.http_outcome)
    (st st1 st2 : Sync.totals) (pid : string) (lm : gmap hkey json)
    (payload pd' : json) (added skipped : list json) :
  Sync.label_policy false fetched stored st (pid, lm) = Some st1 →
  Sync.build_update_payload false (Sync.fetch_policy (fetched pid)) lm
    = Some (payload, added, skipped) →
  republished payload = Some pd' →
  Sync.fetch_policy (fetched' pid) = pd' →
  ∃ st2',
    Sync.label_policy false fetched' stored' st2 (pid, lm) = Some st2'
    ∧ Sync.put_requests st2' = Sync.put_requests st2
    ∧ Sync.total_labels_added st2' = Sync.total_labels_added st2
    ∧ Sync.policies_updated st2' = Sync.policies_updated st2
    ∧ Sync.total_labels_skipped st2'
      = (Sync.total_labels_skipped st2 + length added + length skipped)%nat.
Proof.
  intros Hfirst Hbuild Hpd' Hfetched'.
  assert (is_Some (Sync.join_keys skipped) ∧ is_Some (Sync.join_keys added))
    as [Hjs Hja].
  { apply label_policy_inv in Hfirst as [[Hfalse _]|Hfirst].
    - destruct (build_update_payload_loop _ _ _ _ _ _ Hbuild)
        as (_ & its & item_list & bst & Hits & Hiter & Hloop & -> & -> & _).
      destruct (Sync.fetch_policy (fetched pid)) as [| | | | |[|? ?]]; try done.
      vm_compute in Hits. injection Hits as <-. simpl in Hiter.
      injection Hiter as <-. simpl in Hloop. injection Hloop as <-.
      simpl. split; by eexists.
    - destruct Hfirst as (_ & payload0 & added0 & skipped0 & Hbuild0 & ? & ? & _).
      rewrite Hbuild in Hbuild0. by simplify_eq. }
  rename added into added0. rename skipped into skipped0.
  destruct (sync_republished_ok _ _ _ _ _ _ Hbuild) as (pd'' & Hpd'' & Hframe & Hitems).
  rewrite Hpd' in Hpd''. simplify_eq.
  destruct (sync_reconcile_twice _ _ _ _ _ _ Hbuild Hframe Hitems)
    as (payload' & skipped' & Hbuild' & Hperm & _).
  assert (is_Some (Sync.join_keys skipped')) as [joined Hjoined].
  { eapply join_keys_perm; [by symmetry|]. by apply join_keys_app. }
  assert (length skipped' = (length added0 + length skipped0)%nat) as Hlen.
  { by rewrite Hperm, length_app. }
  unfold republished in Hpd'.
  apply bind_Some in Hpd' as (rule & Hrule & Hpd').
  apply bind_Some in Hpd' as (its & Hits & Hpd'). simplify_eq.
  destruct st2 as [total_added total_skipped updated requests].
  rewrite <-Hpd' in Hframe, Hbuild'.
  unfold Sync.label_policy. rewrite <-Hpd'. cbn [truthy negb].
  change (get (JObj [("rule", rule); ("details", JObj [("items", its)])]) "rule"
              (JObj [])) with (Some rule).
  cbn [mbind option_bind].
  unfold quality_frame_ok in Hframe.
  change (default (JObj []) (assoc "rule" [("rule", rule);
            ("details", JObj [("items", its)])])) with rule in Hframe.
  destruct rule as [| | | | |rule_fields]; try done.
  cbn [get mbind option_bind]. rewrite Hbuild'. cbn [mbind option_bind].
  destruct (bool_decide (skipped' ≠ [])) eqn:Hnone.
  - rewrite Hjoined. cbn [mbind option_bind].
    rewrite bool_decide_eq_true_2 by done.
    eexists. split; [done|]. simpl. split_and!; try done. lia.
  - apply bool_decide_eq_false in Hnone. apply dec_stable in Hnone. subst.
    rewrite bool_decide_eq_true_2 by done.
    eexists. split; [done|]. simpl. split_and!; try done. simpl in Hlen. lia.
Qed.

Lemma second_labelling_pass_sends_nothing_witness :
  ∃ payload added skipped pd' st2',
    Sync.build_update_payload false orders_policy orders_ledger
      = Some (payload, added, skipped)
    ∧ added ≠ []
    ∧ republished payload = Some pd'
    ∧ Sync.label_policy false (serving pd') accepting no_totals ("9", orders_ledger)
      = Some st2'
    ∧ Sync.put_requests st2' = [].
Proof.
  assert (Sync.build_update_payload false orders_policy orders_ledger
          = orders_first_pass) as Hpass by (vm_compute; reflexivity).
  unfold orders_first_pass in Hpass.
  destruct (Sync.label_policy false (serving orders_policy) accepting no_totals
              ("9", orders_ledger)) as [st1|] eqn:Hfirst;
    [|vm_compute in Hfirst; discriminate].
  destruct (second_labelling_pass_sends_nothing
              (serving orders_policy) (serving _) accepting accepting
              no_totals st1 no_totals "9" orders_ledger _ _ _ _
              Hfirst Hpass eq_refl eq_refl)
    as (st2' & Hsecond & Hrequests & _).
  eexists _, _, _, _, st2'. split; [exact Hpass|]. split; [done|].
  split; [reflexivity|]. split; [exact Hsecond | exact Hrequests].
Defined.

Lemma labelling_writes_only_added_labels_witness :
  ∃ st',
    Sync.label_policies false (serving orders_policy) accepting no_totals
      [("9", orders_ledger)] = Some st'
    ∧ Forall (justified false (serving orders_policy) [("9", orders_ledger)])
             (Sync.put_requests st')
    ∧ Sync.policies_updated st'
      = length (List.filter (accepted accepting) (Sync.put_requests st')).
Proof.
  destruct (Sync.label_policies false (serving orders_policy) accepting no_totals
              [("9", orders_ledger)]) as [st'|] eqn:Hrun;
    [|vm_compute in Hrun; discriminate].
  destruct (labelling_writes_only_added_labels _ _ _ _ _ _ Hrun)
    as (more & Hrequests & Hjustified & Hupdated & _).
  simpl in Hrequests, Hupdated. rewrite <-Hrequests in Hjustified, Hupdated.
  by exists st'.
Defined.

(** X18. A policy whose definition cannot be fetched, or is fetched as a false
    value, is passed over by the labelling step: nothing is counted, nothing
    is sent, and the step goes on with the next policy. *)
Theorem unfetched_policy_is_not_labelled (ov : bool)
    (fetched : string → Sync.http_outcome)
    (stored : string → json → Sync.http_outcome)
    (pid : string) (lm : gmap hkey json)
    (before after : list (string * gmap hkey json)) :
  fetch_failed (fetched pid) = true
  ∨ truthy (Sync.fetch_policy (fetched pid)) = false →
  (∀ st, Sync.label_policy ov fetched stored st (pid, lm) = Some st)
  ∧ (∀ st, Sync.label_policies ov fetched stored st (before ++ (pid, lm) :: after)
           = Sync.label_policies ov fetched stored st (before ++ after)).
Proof.
  intros Hfailed.
  assert (truthy (Sync.fetch_policy (fetched pid)) = false) as Hfalse.
  { destruct Hfailed as [Hfailed|]; [|done].
    unfold fetch_failed in Hfailed. unfold Sync.fetch_policy.
    destruct (fetched pid) as [status [body|]|]; try done; [|by destruct (_ =? _)].
    apply negb_true_iff in Hfailed. by rewrite Hfailed. }
  assert (∀ st, Sync.label_policy ov fetched stored st (pid, lm) = Some st) as Hskip.
  { intros [? ? ? ?]. unfold Sync.label_policy. by rewrite Hfalse. }
  split; [done|]. intros st. unfold Sync.label_policies. by apply for_each_skip.
Qed.

Lemma unfetched_policy_is_not_labelled_witness :
  Sync.label_policies false (λ _, Sync.Responded 503 None) accepting no_totals
    ([] ++ [("9", orders_ledger)])
  = Some no_totals.
Proof.
  rewrite (proj2 (unfetched_policy_is_not_labelled false
                    (λ _, Sync.Responded 503 None) accepting "9" orders_ledger [] []
                    (or_introl eq_refl))).
  reflexivity.
Defined.

(** *** The keys that a pass reports *)

Lemma update_item_counts ov lm st item st1 :
  Sync.update_item ov lm st item = Some st1 →
  ∃ a1 s1,
    Sync.labels_added st1 = (Sync.labels_added st ++ a1)%list
    ∧ Sync.labels_skipped st1 = (Sync.labels_skipped st ++ s1)%list
    ∧ (a1 ++ s1)%list = ledger_matched lm item
    ∧ (ov = true → s1 = []).
Proof.
  destruct ov.
  2: { intros H. apply update_item_twice in H as (u1 & a1 & s1 & -> & Hmatched & _).
       exists a1, s1. by split_and!. }
  intros Hpass.
  destruct item as [| | | | |kvs];
    try (by rewrite update_item_not_dict in Hpass).
  destruct st as [a s r u]. rewrite update_item_unfold in Hpass.
  apply bind_Some in Hpass as (key & Hkey & Hpass). cbv zeta in Hpass.
  apply bind_Some in Hpass as (keys & Hkeys & Hpass).
  apply bind_Some in Hpass as ([[[existing' a'] s'] r'] & Hrelabel & Hpass).
  apply bind_Some in Hpass as (labels & Hlabels & Hpass).
  simpl in Hlabels, Hpass. simplify_eq. simpl.
  destruct (to_hkey key) as [h|] eqn:Hh;
    [|by rewrite relabel_unhashable in Hrelabel by done].
  rewrite (relabel_override _ _ _ _ _ _ _ h Hh) in Hrelabel.
  apply bind_Some in Hrelabel as (removed & _ & Hrelabel).
  unfold ledger_matched, getitem. rewrite Hkey, Hh. simpl.
  destruct (lm !! h); simplify_eq.
  - exists [key], []. by rewrite !app_nil_r.
  - exists [], []. by rewrite !app_nil_r.
Qed.

Lemma update_items_counts ov lm item_list st st1 :
  for_each (Sync.update_item ov lm) st item_list = Some st1 →
  ∃ a1 s1,
    Sync.labels_added st1 = (Sync.labels_added st ++ a1)%list
    ∧ Sync.labels_skipped st1 = (Sync.labels_skipped st ++ s1)%list
    ∧ (a1 ++ s1)%list ≡ₚ concat (map (ledger_matched lm) item_list)
    ∧ (ov = true → s1 = [] ∧ a1 = concat (map (ledger_matched lm) item_list)).
Proof.
  revert st. induction item_list as [|item item_list IH]; intros st H; simpl in H.
  - simplify_eq. exists [], []. by rewrite !app_nil_r.
  - apply bind_Some in H as (st' & Hitem & Hrest).
    apply update_item_counts in Hitem as (a1 & s1 & Ha1 & Hs1 & Hmatched & Hov).
    apply IH in Hrest as (a2 & s2 & Ha2 & Hs2 & Hmatched' & Hov').
    exists (a1 ++ a2)%list, (s1 ++ s2)%list. split_and!.
    + by rewrite Ha2, Ha1, app_assoc.
    + by rewrite Hs2, Hs1, app_assoc.
    + simpl. rewrite <-Hmatched, <-Hmatched'.
      rewrite <-!app_assoc. f_equiv. rewrite !app_assoc. f_equiv.
      apply Permutation_app_comm.
    + intros ->. destruct (Hov' eq_refl) as [-> ->].
      rewrite (Hov eq_refl), app_nil_r in Hmatched. rewrite (Hov eq_refl).
      simpl. by rewrite Hmatched.
Qed.

(** X19. The keys that a pass of the quality-rule builder reports are the keys of
    the items that the ledger knows, one for each such item: each is
    reported as added or as already present, and in override mode all of
    them are reported as added, in the order of the items. *)
Theorem reported_keys_are_the_matched_keys (ov : bool) (pd : json)
    (lm : gmap hkey json) (payload : json) (added skipped : list json)
    (item_list : list json) :
  Sync.build_update_payload ov pd lm = Some (payload, added, skipped) →
  items_of pd = Some item_list →
  (added ++ skipped)%list ≡ₚ concat (map (ledger_matched lm) item_list)
  ∧ (ov = true → skipped = [] ∧ added = concat (map (ledger_matched lm) item_list)).
Proof.
  intros Hbuild Hitems.
  destruct (build_update_payload_loop _ _ _ _ _ _ Hbuild)
    as (_ & its & item_list' & st & Hits & Hiter & Hloop & -> & -> & _).
  unfold items_of in Hitems. rewrite Hits in Hitems. simpl in Hitems.
  rewrite Hiter in Hitems. simplify_eq.
  apply update_items_counts in Hloop as (a1 & s1 & Ha & Hs & Hmatched & Hov).
  simpl in Ha, Hs. rewrite Ha, Hs. split; [done|].
  intros ->. by apply Hov.
Qed.

Lemma reported_keys_are_the_matched_keys_witness :
  ∃ payload added skipped,
    Sync.build_update_payload true orders_policy orders_ledger
      = Some (payload, added, skipped)
    ∧ skipped = []
    ∧ added = [JStr "NOT_NULL-amount"; JStr "SIZE_CHECK"].
Proof.
  assert (Sync.build_update_payload true orders_policy orders_ledger
          = orders_override_pass) as Hpass by (vm_compute; reflexivity).
  unfold orders_override_pass in Hpass.
  eexists _, _, _. split; [exact Hpass|].
  destruct (reported_keys_are_the_matched_keys true orders_policy orders_ledger
              _ _ _ _ Hpass eq_refl) as [_ Hov].
  destruct (Hov eq_refl) as [Hskipped Hadded]. split; [exact Hskipped|].
  rewrite Hadded. reflexivity.
Defined.

(** ** Normal mode keeps the labels *)

(** X20. Normal mode of the quality-rule builder never removes a label and never
    adds a duplicate key: the labels of every payload item are the
    key-value copies of the labels of the item, in order, followed by at
    most one label, whose key none of the labels of the item has. *)
Theorem normal_mode_keeps_existing_labels (pd : json) (lm : gmap hkey json)
    (payload : json) (added skipped : list json) :
  Sync.build_update_payload false pd lm = Some (payload, added, skipped) →
  ∃ item_list us,
    items_of pd = Some item_list
    ∧ get payload "items" PyNone = Some (JArr us)
    ∧ Forall2 labels_kept item_list us.
Proof.
  intros (item_list & us & Hitems & Hus & Hrel)%build_update_payload_relabelled.
  exists item_list, us. split_and!; [done..|].
  eapply Forall2_impl; [exact Hrel|]. apply relabelled_keeps.
Qed.

Lemma normal_mode_keeps_existing_labels_witness :
  ∃ item_list us,
    items_of orders_policy = Some item_list
    ∧ Forall2 labels_kept item_list us.
Proof.
  assert (Sync.build_update_payload false orders_policy orders_ledger
          = orders_first_pass) as Hpass by (vm_compute; reflexivity).
  unfold orders_first_pass in Hpass.
  destruct (normal_mode_keeps_existing_labels _ _ _ _ _ Hpass)
    as (item_list & us & Hitems & _ & Hkept).
  by exists item_list, us.
Defined.

(** ** The labelling step of the reconciliation pipeline *)

Lemma recon_label_policy_inv fetched stored st pid lm st' :
  Recon.label_policy fetched stored st (pid, lm) = Some st' →
  let policy_data := Recon.fetch_policy (fetched pid) in
  (truthy policy_data = false ∧ st' = st)
  ∨ (truthy policy_data = true
     ∧ ∃ payload added skipped,
         Recon.build_update_payload policy_data lm = Some (payload, added, skipped)
         ∧ Sync.total_labels_skipped st'
           = (Sync.total_labels_skipped st + length skipped)%nat
         ∧ ((added = []
             ∧ Sync.put_requests st' = Sync.put_requests st
             ∧ Sync.total_labels_added st' = Sync.total_labels_added st
             ∧ Sync.policies_updated st' = Sync.policies_updated st)
            ∨ (added ≠ []
               ∧ Sync.put_requests st'
                 = (Sync.put_requests st ++ [(pid, payload)])%list
               ∧ Sync.total_labels_added st'
                 = (Sync.total_labels_added st
                    + if Recon.update_policy (stored pid payload)
                      then length added else 0)%nat
               ∧ Sync.policies_updated st'
                 = (Sync.policies_updated st
                    + if Recon.update_policy (stored pid payload) then 1 else 0)%nat))).
Proof.
  unfold Recon.label_policy. destruct st as [total_added total_skipped updated requests].
  intros H. cbv zeta.
  destruct (truthy (Recon.fetch_policy (fetched pid))) eqn:Htruthy; simpl in H.
  2: { left. by simplify_eq. }
  right. split; [done|].
  apply bind_Some in H as (rule & _ & H).
  apply bind_Some in H as (policy_name & _ & H).
  apply bind_Some in H as ([[payload added] skipped] & Hbuild & H).
  exists payload, added, skipped. split; [done|]. cbv zeta in H.
  assert ((if bool_decide (skipped ≠ [])
           then (total_skipped + length skipped)%nat else total_skipped)
          = (total_skipped + length skipped)%nat) as Hskipped.
  { destruct (bool_decide (skipped ≠ [])) eqn:Hnone; [done|].
    apply bool_decide_eq_false in Hnone. apply dec_stable in Hnone.
    subst. simpl. lia. }
  rewrite Hskipped in H.
  destruct (bool_decide (added = [])) eqn:Hadded.
  - apply bool_decide_eq_true in Hadded. simplify_eq. simpl.
    split; [done|]. left. done.
  - apply bool_decide_eq_false in Hadded.
    destruct (Recon.update_policy _); simplify_eq; simpl;
      (split; [done|]); right; split_and!; try done; lia.
Qed.

Lemma recon_label_policy_requests fetched stored st entry st' :
  Recon.label_policy fetched stored st entry = Some st' →
  ∃ more,
    Sync.put_requests st' = (Sync.put_requests st ++ more)%list
    ∧ Forall (recon_justified fetched [entry]) more
    ∧ Sync.policies_updated st'
      = (Sync.policies_updated st
         + length (List.filter (recon_accepted stored) more))%nat
    ∧ (length more ≤ 1)%nat.
Proof.
  destruct entry as [pid lm]. intros H.
  apply recon_label_policy_inv in H
    as [[_ ->]|(_ & payload & added & skipped & Hbuild & _ & H)].
  { exists []. rewrite app_nil_r. simpl. split_and!; try done. lia. }
  destruct H as [(-> & Hreq & _ & Hupd)|(Hadded & Hreq & _ & Hupd)].
  - exists []. rewrite app_nil_r. simpl. split_and!; try done; lia.
  - exists [(pid, payload)]. split_and!; try done.
    + constructor; [|done]. exists lm, added, skipped. simpl.
      split_and!; try done. by left.
    + rewrite Hupd. unfold recon_accepted. simpl. by destruct (Recon.update_policy _).
Qed.

Lemma recon_justified_weaken fetched entries entries' request :
  entries ⊆ entries' →
  recon_justified fetched entries request → recon_justified fetched entries' request.
Proof.
  intros Hsub (lm & added & skipped & Hin & Hbuild & Hadded).
  exists lm, added, skipped. split_and!; try done. by apply Hsub.
Qed.

(** X21. The labelling step of the reconciliation pipeline sends a PUT only for a
    definition to which the pass added a label, with the payload built for
    it, at most one for each entry of the ledger, and the count of updated
    policies is the count of accepted PUTs. *)
Theorem recon_labelling_writes_only_added_labels
    (fetched : string → Sync.http_outcome)
    (stored : string → json → Sync.http_outcome)
    (st st' : Sync.totals) (entries : list (string * gmap string json)) :
  Recon.label_policies fetched stored st entries = Some st' →
  ∃ more,
    Sync.put_requests st' = (Sync.put_requests st ++ more)%list
    ∧ Forall (recon_justified fetched entries) more
    ∧ Sync.policies_updated st'
      = (Sync.policies_updated st
         + length (List.filter (recon_accepted stored) more))%nat
    ∧ (length more ≤ length entries)%nat.
Proof.
  unfold Recon.label_policies. revert st.
  induction entries as [|entry entries IH]; intros st H; simpl in H.
  - simplify_eq. exists []. rewrite app_nil_r. simpl. split_and!; try done; lia.
  - apply bind_Some in H as (st1 & H1 & H).
    apply recon_label_policy_requests in H1
      as (more1 & Hreq1 & Hjust1 & Hupd1 & Hlen1).
    apply IH in H as (more & Hreq & Hjust & Hupd & Hlen).
    exists (more1 ++ more)%list. split_and!.
    + by rewrite Hreq, Hreq1, app_assoc.
    + apply Forall_app. split.
      * eapply Forall_impl; [done|]. intros req. apply recon_justified_weaken.
        intros e ->%list_elem_of_singleton. by left.
      * eapply Forall_impl; [done|]. intros req. apply recon_justified_weaken.
        intros e He. by right.
    + rewrite Hupd, Hupd1, List.filter_app, length_app. lia.
    + rewrite length_app. simpl. lia.
Qed.

Lemma recon_labelling_writes_only_added_labels_witness :
  ∃ st',
    Recon.label_policies (serving recon_policy) accepting no_totals
      [("12", recon_ledger)] = Some st'
    ∧ Forall (recon_justified (serving recon_policy) [("12", recon_ledger)])
             (Sync.put_requests st')
    ∧ Sync.policies_updated st'
      = length (List.filter (recon_accepted accepting) (Sync.put_requests st')).
Proof.
  destruct (Recon.label_policies (serving recon_policy) accepting no_totals
              [("12", recon_ledger)]) as [st'|] eqn:Hrun;
    [|vm_compute in Hrun; discriminate].
  destruct (recon_labelling_writes_only_added_labels _ _ _ _ _ Hrun)
    as (more & Hrequests & Hjustified & Hupdated & _).
  simpl in Hrequests, Hupdated. rewrite <-Hrequests in Hjustified, Hupdated.
  by exists st'.
Defined.

(** X22. Once a payload of the reconciliation pipeline has been written and the
    service holds it, the next labelling step of the policy sends nothing
    and counts nothing as added: the keys of the first pass are counted as
    already present. *)
Theorem recon_second_labelling_pass_sends_nothing
    (fetched' : string → Sync.http_outcome)
    (stored' : string → json → Sync.http_outcome)
    (st2 : Sync.totals) (pid : string) (lm : gmap string json)
    (pd payload pd' : json) (added skipped : list string) :
  Recon.build_update_payload pd lm = Some (payload, added, skipped) →
  recon_republished payload = Some pd' →
  Recon.fetch_policy (fetched' pid) = pd' →
  ∃ st2',
    Recon.label_policy fetched' stored' st2 (pid, lm) = Some st2'
    ∧ Sync.put_requests st2' = Sync.put_requests st2
    ∧ Sync.total_labels_added st2' = Sync.total_labels_added st2
    ∧ Sync.policies_updated st2' = Sync.policies_updated st2
    ∧ Sync.total_labels_skipped st2'
      = (Sync.total_labels_skipped st2 + length added + length skipped)%nat.
Proof.
  intros Hbuild Hpd' Hfetched'.
  destruct (recon_republished_ok _ _ _ _ _ Hbuild) as (pd'' & Hpd'' & Hframe & Hmaps).
  rewrite Hpd' in Hpd''. simplify_eq.
  destruct (recon_reconcile_twice _ _ _ _ _ _ Hbuild Hframe Hmaps)
    as (payload' & skipped' & Hbuild' & Hperm & _).
  assert (length skipped' = (length added + length skipped)%nat) as Hlen.
  { by rewrite Hperm, length_app. }
  unfold recon_republished in Hpd'.
  apply bind_Some in Hpd' as (rule & Hrule & Hpd').
  apply bind_Some in Hpd' as (its & Hits & Hpd').
  apply bind_Some in Hpd' as (maps & Hmappings & Hpd'). simplify_eq.
  rewrite <-Hpd' in Hframe, Hbuild'.
  destruct st2 as [total_added total_skipped updated requests].
  unfold Recon.label_policy. rewrite <-Hpd'. cbn [truthy negb].
  change (get (JObj [("rule", rule);
                     ("details", JObj [("columnMappings", maps); ("items", its)])])
              "rule" (JObj [])) with (Some rule).
  cbn [mbind option_bind].
  unfold recon_frame_ok in Hframe.
  change (default (JObj []) (assoc "rule" [("rule", rule);
            ("details", JObj [("columnMappings", maps); ("items", its)])]))
    with rule in Hframe.
  destruct rule as [| | | | |rule_fields]; try done.
  cbn [get mbind option_bind]. rewrite Hbuild'. cbn [mbind option_bind].
  rewrite bool_decide_eq_true_2 by done.
  eexists. split; [done|]. simpl. split_and!; try done.
  destruct (bool_decide (skipped' ≠ [])) eqn:Hnone; [lia|].
  apply bool_decide_eq_false in Hnone. apply dec_stable in Hnone. subst.
  simpl in Hlen. lia.
Qed.

Lemma recon_second_labelling_pass_sends_nothing_witness :
  ∃ payload added skipped pd' st2',
    Recon.build_update_payload recon_policy recon_ledger
      = Some (payload, added, skipped)
    ∧ added ≠ []
    ∧ recon_republished payload = Some pd'
    ∧ Recon.label_policy (serving pd') accepting no_totals ("12", recon_ledger)
      = Some st2'
    ∧ Sync.put_requests st2' = [].
Proof.
  assert (Recon.build_update_payload recon_policy recon_ledger
          = recon_first_pass) as Hpass by (vm_compute; reflexivity).
  unfold recon_first_pass in Hpass.
  destruct (recon_second_labelling_pass_sends_nothing
              (serving _) accepting no_totals "12" recon_ledger _ _ _ _ _
              Hpass eq_refl eq_refl)
    as (st2' & Hsecond & Hrequests & _).
  eexists _, _, _, _, st2'. split; [exact Hpass|]. split; [done|].
  split; [reflexivity|]. split; [exact Hsecond | exact Hrequests].
Defined.

(** ** The listing of the policies and their versions *)

Lemma fetch_rules_from_step rounds net page pv :
  Sync.fetch_rules_from (S rounds) net page pv
  = match page_rules net page with
    | None => Sync.Raises
    | Some rules =>
        if negb (truthy rules) then Sync.Returns pv
        else match iter rules ≫= for_each Sync.list_rule pv with
             | None => Sync.Raises
             | Some pv' => Sync.fetch_rules_from rounds net (S page) pv'
             end
    end.
Proof. done. Qed.

Lemma fetch_rules_from_pages n : ∀ rounds net page pv,
  (∀ i, (i < n)%nat →
        ∃ rules, page_rules net (page + i) = Some rules ∧ truthy rules = true) →
  (n < rounds)%nat →
  Sync.fetch_rules_from rounds net page pv
  = match for_each (λ pv i, rules ← page_rules net i;
                            iter rules ≫= for_each Sync.list_rule pv)
                   pv (seq page n) with
    | None => Sync.Raises
    | Some pv' => Sync.fetch_rules_from (rounds - n) net (page + n) pv'
    end.
Proof.
  induction n as [|n IH]; intros rounds net page pv Hpages Hrounds.
  { simpl. by rewrite Nat.sub_0_r, Nat.add_0_r. }
  destruct rounds as [|rounds]; [lia|].
  rewrite fetch_rules_from_step. cbn [seq for_each].
  destruct (Hpages 0%nat ltac:(lia)) as (rules & Hrules & Htrue).
  rewrite Nat.add_0_r in Hrules. rewrite Hrules, Htrue. simpl.
  destruct (iter rules ≫= for_each Sync.list_rule pv) as [pv'|]; [|done]. simpl.
  rewrite IH; [|intros i Hi|lia].
  - replace (S page + n)%nat with (page + S n)%nat by lia. done.
  - replace (S page + i)%nat with (page + S i)%nat by lia. apply Hpages. lia.
Qed.

(** X23. The listing of the policies reads the pages up to the first one without
    rules and no further: when the pages before page [n] hold rules, any
    number of rounds above [n] gives the same result, which is the listing
    of these pages when page [n] is empty (or an exception when one of them
    cannot be listed), and an exception when the request for page [n]
    fails. *)
Theorem listing_stops_at_first_empty_page (n : nat)
    (net : nat → Sync.http_outcome) (rounds : nat) :
  pages_hold_rules n net →
  (n < rounds)%nat →
  (∀ rules, page_rules net n = Some rules → truthy rules = false →
     Sync.fetch_rules_with_versions rounds net
     = match listed_until n net with
       | Some policy_versions => Sync.Returns policy_versions
       | None => Sync.Raises
       end)
  ∧ (page_rules net n = None →
     Sync.fetch_rules_with_versions rounds net = Sync.Raises).
Proof.
  intros Hpages Hrounds. unfold Sync.fetch_rules_with_versions, listed_until.
  pose proof (fetch_rules_from_pages n rounds net 0 ∅ Hpages Hrounds) as Hrun.
  simpl in Hrun. split.
  - intros rules Hrules Hempty. rewrite Hrun.
    destruct (for_each _ ∅ (seq 0 n)) as [pv|]; [|done].
    destruct (rounds - n)%nat as [|rest] eqn:Hrest; [lia|].
    rewrite fetch_rules_from_step, Hrules, Hempty. done.
  - intros Hfailed. rewrite Hrun.
    destruct (for_each _ ∅ (seq 0 n)) as [pv|]; [|done].
    destruct (rounds - n)%nat as [|rest] eqn:Hrest; [lia|].
    by rewrite fetch_rules_from_step, Hfailed.
Qed.

Lemma listing_stops_at_first_empty_page_witness :
  ∃ policy_versions,
    Sync.fetch_rules_with_versions 5 sample_listing = Sync.Returns policy_versions
    ∧ listed_until 2 sample_listing = Some policy_versions.
Proof.
  destruct (listed_until 2 sample_listing) as [pv|] eqn:Hlisted;
    [|vm_compute in Hlisted; discriminate].
  exists pv. split; [|done].
  assert (pages_hold_rules 2 sample_listing) as Hpages.
  { intros [|[|page]] Hpage; [by eexists..|lia]. }
  destruct (listing_stops_at_first_empty_page 2 sample_listing 5 Hpages ltac:(lia))
    as [Hreturns _].
  rewrite (Hreturns (JArr []) eq_refl eq_refl), Hlisted. done.
Defined.

Lemma list_rule_entry pv item pv' pid info :
  Sync.list_rule pv item = Some pv' → pv' !! pid = Some info →
  pv !! pid = Some info
  ∨ ∃ rule rule_id,
      get item "rule" (JObj []) = Some rule
      ∧ get rule "id" PyNone = Some rule_id
      ∧ truthy rule_id = true ∧ str rule_id = pid
      ∧ get rule "type" (JStr "") = Some (JStr "DATA_QUALITY")
      ∧ get rule "version" (JNum 1) = Some (Sync.listed_version info)
      ∧ get rule "name" (JStr "") = Some (Sync.listed_name info).
Proof.
  unfold Sync.list_rule. intros H Hinfo.
  apply bind_Some in H as (rule & Hrule & H).
  apply bind_Some in H as (rule_id & Hid & H).
  apply bind_Some in H as (version & Hversion & H).
  apply bind_Some in H as (rule_name & Hname & H).
  apply bind_Some in H as (rule_type & Htype & H).
  destruct (truthy rule_id) eqn:Htrue; simpl in H; [|by simplify_eq; left].
  destruct (eq_str rule_type "DATA_QUALITY") eqn:Hkind; [|by simplify_eq; left].
  simplify_eq.
  destruct (decide (str rule_id = pid)) as [<-|Hne].
  - rewrite lookup_insert_eq in Hinfo. simplify_eq. right.
    exists rule, rule_id. split_and!; try done.
    destruct rule_type as [| | |s| |]; try done. simpl in Hkind.
    apply String.eqb_eq in Hkind. by subst.
  - rewrite lookup_insert_ne in Hinfo by done. by left.
Qed.

Lemma list_rules_entry item_list pv pv' pid info :
  for_each Sync.list_rule pv item_list = Some pv' → pv' !! pid = Some info →
  pv !! pid = Some info
  ∨ ∃ item rule rule_id,
      item ∈ item_list
      ∧ get item "rule" (JObj []) = Some rule
      ∧ get rule "id" PyNone = Some rule_id
      ∧ truthy rule_id = true ∧ str rule_id = pid
      ∧ get rule "type" (JStr "") = Some (JStr "DATA_QUALITY")
      ∧ get rule "version" (JNum 1) = Some (Sync.listed_version info)
      ∧ get rule "name" (JStr "") = Some (Sync.listed_name info).
Proof.
  revert pv. induction item_list as [|item item_list IH]; intros pv H Hinfo;
    simpl in H; [simplify_eq; by left|].
  apply bind_Some in H as (pv1 & H1 & H).
  destruct (IH _ H Hinfo) as [Hold|(item' & rule & rule_id & Hin & Hrest)].
  - destruct (list_rule_entry _ _ _ _ _ H1 Hold) as [?|(rule & rule_id & Hrest)];
      [by left|].
    right. exists item, rule, rule_id. split; [by left|done].
  - right. exists item', rule, rule_id. split; [by right|done].
Qed.

Lemma fetch_rules_from_entries rounds : ∀ net page pv pv',
  (∀ pid info, pv !! pid = Some info → listed_from net pid info) →
  Sync.fetch_rules_from rounds net page pv = Sync.Returns pv' →
  ∀ pid info, pv' !! pid = Some info → listed_from net pid info.
Proof.
  induction rounds as [|rounds IH]; intros net page pv pv' Hpv H; [done|].
  rewrite fetch_rules_from_step in H.
  destruct (page_rules net page) as [rules|] eqn:Hrules; [|done].
  destruct (truthy rules); simpl in H; [|by simplify_eq].
  destruct (iter rules) as [item_list|] eqn:Hiter; [|done]. simpl in H.
  destruct (for_each Sync.list_rule pv item_list) as [pv1|] eqn:Hpage; [|done].
  apply (IH net (S page) pv1 pv'); [|done].
  intros pid info Hinfo.
  destruct (list_rules_entry _ _ _ _ _ Hpage Hinfo)
    as [Hold|(item & rule & rule_id & Hin & Hrest)]; [by apply Hpv|].
  destruct Hrest as (? & ? & ? & ? & ? & ? & ?).
  exists page, rules, item_list, item, rule, rule_id. by split_and!.
Qed.

(** X24. Every entry of the listing comes from a rule of type DATA_QUALITY with a
    true id on some page, is filed under [str] of that id, and carries the
    version and the name of that rule. *)
Theorem listing_holds_quality_rules_only (rounds : nat)
    (net : nat → Sync.http_outcome)
    (policy_versions : gmap string Sync.version_info) :
  Sync.fetch_rules_with_versions rounds net = Sync.Returns policy_versions →
  ∀ pid info, policy_versions !! pid = Some info → listed_from net pid info.
Proof.
  unfold Sync.fetch_rules_with_versions. apply fetch_rules_from_entries.
  intros pid info. by rewrite lookup_empty.
Qed.

Lemma listing_holds_quality_rules_only_witness :
  ∃ policy_versions,
    Sync.fetch_rules_with_versions 5 sample_listing = Sync.Returns policy_versions
    ∧ policy_versions !! "12" = None
    ∧ ∃ info, policy_versions !! "9" = Some info ∧ listed_from sample_listing "9" info.
Proof.
  destruct (Sync.fetch_rules_with_versions 5 sample_listing) as [pv| |] eqn:Hrun;
    [|vm_compute in Hrun; discriminate..].
  exists pv. split; [done|].
  pose proof (listing_holds_quality_rules_only 5 sample_listing pv Hrun) as Hfrom.
  vm_compute in Hrun. injection Hrun as <-. split; [reflexivity|].
  eexists. split; [reflexivity|]. by apply Hfrom.
Defined.

(** *** The policies to compare *)

Lemma select_policy_spec pv acc pid :
  (unordered_version pv pid ∧ Sync.select_policy pv acc pid = None)
  ∨ (¬ unordered_version pv pid
     ∧ ∃ new, Sync.select_policy pv acc pid = Some (acc ++ new)%list
              ∧ ∀ p, p ∈ new ↔ Sync.policy_id p = pid ∧ later_version pv p).
Proof.
  unfold Sync.select_policy, unordered_version, later_version.
  destruct (pv !! pid) as [info|] eqn:Hinfo.
  2: { right. split; [by intros (? & ? & _)|]. exists []. rewrite app_nil_r.
       split; [done|]. intros p. split; [by intros ?%elem_of_nil|].
       intros (-> & ? & ? & _). congruence. }
  destruct (Sync.listed_version info) as [| |n| | |] eqn:Hversion;
    try (left; split; [exists info; by rewrite Hversion|done]).
  - right. split; [intros (? & ? & Hbad); simplify_eq; by rewrite Hversion in Hbad|].
    exists []. rewrite app_nil_r. split; [done|].
    intros p. split; [by intros ?%elem_of_nil|].
    intros (-> & ? & ? & ? & _). congruence.
  - right. split; [intros (? & ? & Hbad); simplify_eq; by rewrite Hversion in Hbad|].
    destruct (1 <? n) eqn:Hn.
    + apply Z.ltb_lt in Hn. eexists. split; [done|]. intros p.
      rewrite list_elem_of_singleton. split.
      * intros ->. simpl. split; [done|]. by exists info.
      * intros (<- & info' & Hinfo' & Hversion' & _ & Hname).
        destruct p as [pid' v nm]. simpl in *. simplify_eq. congruence.
    + apply Z.ltb_ge in Hn. exists []. rewrite app_nil_r. split; [done|].
      intros p. split; [by intros ?%elem_of_nil|].
      intros (-> & info' & Hinfo' & Hversion' & Hlater & _).
      simplify_eq. rewrite Hversion in Hversion'. simplify_eq. lia.
Qed.

Lemma select_policies_spec pv ids : ∀ acc,
  match for_each (Sync.select_policy pv) acc ids with
  | Some selected =>
      (∀ pid, pid ∈ ids → ¬ unordered_version pv pid)
      ∧ ∀ p, p ∈ selected
             ↔ p ∈ acc ∨ (Sync.policy_id p ∈ ids ∧ later_version pv p)
  | None => ∃ pid, pid ∈ ids ∧ unordered_version pv pid
  end.
Proof.
  induction ids as [|pid ids IH]; intros acc; simpl.
  { split; [by intros ? ?%elem_of_nil|]. intros p. split; [auto|].
    by intros [?|[?%elem_of_nil _]]. }
  destruct (select_policy_spec pv acc pid) as [[Hbad ->]|(Hok & new & -> & Hnew)]; simpl.
  { exists pid. split; [by left|done]. }
  specialize (IH (acc ++ new)%list).
  destruct (for_each _ _ ids) as [selected|].
  - destruct IH as [Hall Hsel]. split.
    + intros pid' [->|?]%elem_of_cons; [done|by apply Hall].
    + intros p. rewrite Hsel, elem_of_app, Hnew, elem_of_cons. split.
      * intros [[?|[-> ?]]|[? ?]]; auto.
      * intros [?|[[?|?] ?]]; auto.
  - destruct IH as (pid' & ? & ?). exists pid'. split; [by right|done].
Qed.

(** X25. The policies selected for the comparison are the policies of the ledger
    that the listing knows with a numeric version above 1, with that version
    and the listed name; the selection raises exactly when the listing gives
    one of the policies of the ledger a version that is neither a number nor
    a boolean. *)
Theorem compared_policies_have_later_versions
    (policy_versions : gmap string Sync.version_info) (policy_ids : list string) :
  (∀ selected,
     Sync.policies_to_compare policy_versions policy_ids = Some selected →
     ∀ p, p ∈ selected
          ↔ Sync.policy_id p ∈ policy_ids ∧ later_version policy_versions p)
  ∧ (Sync.policies_to_compare policy_versions policy_ids = None
     ↔ ∃ pid, pid ∈ policy_ids ∧ unordered_version policy_versions pid).
Proof.
  unfold Sync.policies_to_compare.
  pose proof (select_policies_spec policy_versions policy_ids []) as Hspec.
  destruct (for_each _ _ policy_ids) as [selected|].
  - destruct Hspec as [Hall Hsel]. split.
    + intros ? [= <-] p. rewrite Hsel. split; [|auto].
      by intros [?%elem_of_nil|?].
    + split; [done|]. intros (pid & Hpid & Hbad). by destruct (Hall pid Hpid).
  - split; [done|]. done.
Qed.

(** ** The harvest of version 1 *)

Lemma process_items_rows policy_id policy_name item_list results :
  for_each (FetchDetails.process_item policy_id policy_name) results item_list
  = (λ new, results ++ new)%list <$> mapM (detail_of policy_id policy_name) item_list.
Proof.
  revert results. induction item_list as [|item item_list IH]; intros results.
  { simpl. by rewrite app_nil_r. }
  rewrite for_each_cons. cbn [mapM].
  assert (FetchDetails.process_item policy_id policy_name results item
          = (λ row, results ++ [row])%list <$> detail_of policy_id policy_name item)
    as ->.
  { unfold FetchDetails.process_item, detail_of.
    destruct (get item "id" PyNone); [|done]. simpl.
    destruct (get item "measurementType" (JStr "")); [|done]. simpl.
    by destruct (Fetch.get_column_name item). }
  destruct (detail_of policy_id policy_name item) as [row|]; [|done]. simpl.
  rewrite IH. destruct (mapM _ item_list) as [new|]; [|done]. simpl.
  by rewrite <-app_assoc.
Qed.

Lemma process_response_acc results data :
  FetchDetails.process_response results data
  = (λ new, results ++ new)%list <$> response_rows data.
Proof.
  unfold response_rows, FetchDetails.process_response.
  destruct data as [| | | | |fields]; try done.
  { simpl. by rewrite app_nil_r. }
  simpl.
  generalize (default (JObj []) (assoc "rule" fields)) as rule.
  generalize (default (JObj []) (assoc "details" fields)) as details.
  intros details rule.
  destruct (get rule "id" PyNone) as [policy_id|]; [|done]. simpl.
  destruct (get rule "name" PyNone) as [policy_name|]; [|done]. simpl.
  destruct (get details "items" (JArr [])) as [its|]; [|done]. simpl.
  destruct (truthy its); simpl; [|done].
  destruct (iter its) as [item_list|]; [|done]. simpl.
  rewrite !process_items_rows. by destruct (mapM _ item_list).
Qed.

Lemma process_responses_acc responses results :
  for_each FetchDetails.process_response results responses
  = (λ new, results ++ concat new)%list <$> mapM response_rows responses.
Proof.
  revert results. induction responses as [|data responses IH]; intros results.
  { simpl. by rewrite app_nil_r. }
  rewrite for_each_cons, process_response_acc. cbn [mapM].
  destruct (response_rows data) as [new|]; [|done]. simpl.
  rewrite IH. destruct (mapM response_rows responses) as [rest|]; [|done]. simpl.
  by rewrite <-app_assoc.
Qed.

(** X26. The rows of the harvest are the rows of each policy, in the order of the
    policies; an exception on one response loses the whole harvest, and a
    policy whose request fails contributes no row. *)
Theorem harvest_rows_by_policy (net : string → Sync.http_outcome)
    (policy_ids : list string) :
  FetchDetails.process_policies net policy_ids
  = (λ groups, concat groups)
    <$> mapM (λ pid, response_rows (harvested net pid)) policy_ids
  ∧ ∀ pid, fetch_failed (net pid) = true → response_rows (harvested net pid) = Some [].
Proof.
  split.
  - unfold FetchDetails.process_policies. cbv zeta.
    rewrite process_responses_acc. simpl.
    induction policy_ids as [|pid policy_ids IH]; [done|].
    cbn [map mapM]. unfold harvested at 1.
    destruct (response_rows _) as [new|]; [|done]. simpl.
    destruct (mapM response_rows _) as [rest|];
      destruct (mapM _ policy_ids) as [rest'|]; simpl in *; congruence.
  - intros pid Hfailed. unfold harvested, FetchDetails.fetch_policy_details.
    unfold fetch_failed in Hfailed.
    destruct (net pid) as [status [body|]|]; try done; [|by destruct (_ =? _)].
    apply negb_true_iff in Hfailed. by rewrite Hfailed.
Qed.

Lemma response_rows_inv (data : json) (rows : list FetchDetails.detail_row) :
  data ≠ PyNone →
  response_rows data = Some rows →
  ∃ rule policy_id policy_name its,
    get data "rule" (JObj []) = Some rule
    ∧ get rule "id" PyNone = Some policy_id
    ∧ get rule "name" PyNone = Some policy_name
    ∧ snapshot_items data = Some its
    ∧ if truthy its
      then ∃ item_list, iter its = Some item_list
             ∧ mapM (detail_of policy_id policy_name) item_list = Some rows
             ∧ length rows = length item_list
      else rows = [placeholder policy_id policy_name].
Proof.
  intros Hdata H. unfold response_rows, FetchDetails.process_response in H.
  destruct data as [| | | | |fields]; try done.
  apply bind_Some in H as (rule & Hrule & H).
  apply bind_Some in H as (details & Hdetails & H).
  apply bind_Some in H as (policy_id & Hid & H).
  apply bind_Some in H as (policy_name & Hname & H).
  apply bind_Some in H as (its & Hits & H).
  exists rule, policy_id, policy_name, its. split_and!; try done.
  { unfold snapshot_items. by rewrite Hdetails. }
  destruct (truthy its); simpl in H; [|by simplify_eq].
  apply bind_Some in H as (item_list & Hiter & H).
  rewrite process_items_rows in H. apply fmap_Some in H as (new & Hnew & ->).
  exists item_list. split_and!; try done.
  apply mapM_Some in Hnew. simpl. by rewrite (Forall2_length _ _ _ Hnew).
Qed.

(** X27. A policy without items is harvested as one row with empty rule id, kind
    and key, and a policy with items as one row for each item, in their
    order, with the id, the kind and the key of the item. *)
Theorem harvest_rows_of_a_policy (data : json) (rows : list FetchDetails.detail_row) :
  data ≠ PyNone →
  response_rows data = Some rows →
  ∃ rule policy_id policy_name its,
    get data "rule" (JObj []) = Some rule
    ∧ get rule "id" PyNone = Some policy_id
    ∧ get rule "name" PyNone = Some policy_name
    ∧ snapshot_items data = Some its
    ∧ if truthy its
      then ∃ item_list, iter its = Some item_list
             ∧ mapM (detail_of policy_id policy_name) item_list = Some rows
             ∧ length rows = length item_list
      else rows = [placeholder policy_id policy_name].
Proof. apply response_rows_inv. Qed.

Lemma harvest_rows_of_a_policy_witness :
  ∃ rows, response_rows orders_policy = Some rows ∧ length rows = 2%nat.
Proof.
  destruct (response_rows orders_policy) as [rows|] eqn:Hrows;
    [|vm_compute in Hrows; discriminate].
  exists rows. split; [done|].
  destruct (harvest_rows_of_a_policy orders_policy rows ltac:(done) Hrows)
    as (rule & policy_id & policy_name & its & _ & _ & _ & Hits & Hrest).
  vm_compute in Hits. injection Hits as <-.
  cbn [truthy] in Hrest. destruct Hrest as (item_list & Hiter & _ & ->).
  cbn [iter] in Hiter. by injection Hiter as <-.
Defined.

(** X28. The row that stands for a policy without items records nothing in the
    ledger of the synchronisation, and keeps the policy among the policies
    of the ledger, so that the policy is compared once it has a later
    version. *)
Theorem placeholder_rows_record_nothing (policy_id policy_name : json)
    (before after : list Sync.csv_row) :
  let row := FetchDetails.write_row (placeholder policy_id policy_name) in
  Sync.read_existing_csv (before ++ row :: after)
  = Sync.read_existing_csv (before ++ after)
  ∧ (FetchDetails.csv_cell policy_id ≠ "" →
     FetchDetails.csv_cell policy_id
     ∈ Sync.get_unique_policy_ids (before ++ row :: after)).
Proof.
  intros row. split.
  - unfold Sync.read_existing_csv. rewrite !fold_left_app. cbn [fold_left].
    assert (∀ acc, Sync.read_row acc row = acc) as ->; [|done].
    intros [ids labels]. unfold Sync.read_row. simpl. by rewrite !andb_false_r.
  - intros Hcell. unfold Sync.get_unique_policy_ids.
    apply elem_of_list_to_set, list_elem_of_In, List.filter_In. split.
    + apply list_elem_of_In. rewrite map_app. apply elem_of_app. right. by left.
    + by apply nonempty_true.
Qed.

Lemma detail_of_cells policy_id policy_name item row :
  detail_of policy_id policy_name item = Some row →
  FetchDetails.Policy_ID row = policy_id
  ∧ get item "id" PyNone = Some (FetchDetails.Rule_ID row)
  ∧ Fetch.get_column_name item = Some (FetchDetails.Column_Name row).
Proof.
  unfold detail_of. intros H.
  apply bind_Some in H as (rule_id & Hid & H).
  apply bind_Some in H as (rule_type & Htype & H).
  apply bind_Some in H as (column_name & Hkey & H). by simplify_eq.
Qed.

(** X29. A CUSTOM, SQL_METRIC, UDF_PREDICATE or SIZE_CHECK check that is harvested
    with an id is found again by the synchronisation: the ledger read from
    the harvest records, under the key that the synchronisation computes for
    the check, the id of a check of the policy that was harvested with this
    key. *)
Theorem harvested_checks_are_found_again (data : json)
    (rows : list FetchDetails.detail_row) (item_list : list json)
    (item policy_id rule_id : json) (kind : string) :
  response_rows data = Some rows →
  items_of data = Some item_list →
  item ∈ item_list →
  get data "rule" (JObj []) ≫= (λ rule, get rule "id" PyNone) = Some policy_id →
  FetchDetails.csv_cell policy_id ≠ "" →
  kind ∈ keyed_kinds →
  get item "measurementType" (JStr "") = Some (JStr kind) →
  get item "id" PyNone = Some rule_id →
  FetchDetails.csv_cell rule_id ≠ "" →
  ∃ key item' rule_id',
    Sync.get_column_name item = Some (JStr key)
    ∧ item' ∈ item_list
    ∧ FetchDetails.csv_cell <$> Fetch.get_column_name item' = Some key
    ∧ get item' "id" PyNone = Some rule_id'
    ∧ sync_original_id (harvested_ledger rows) (FetchDetails.csv_cell policy_id)
        (HStr key)
      = Some (JStr (FetchDetails.csv_cell rule_id')).
Proof.
  intros Hrows Hitems Hitem Hpid Hpid_cell Hkind Hmt Hid Hid_cell.
  assert (data ≠ PyNone) as Hdata.
  { intros ->. unfold items_of in Hitems. done. }
  destruct (response_rows_inv data rows Hdata Hrows)
    as (rule & policy_id' & policy_name & its & Hrule & Hpid' & _ & Hits & Hcase).
  rewrite Hrule in Hpid. simpl in Hpid. rewrite Hpid' in Hpid. simplify_eq.
  unfold items_of in Hitems. rewrite Hits in Hitems. simpl in Hitems.
  assert (truthy its = true) as Htrue.
  { destruct its as [| | |[|? ?]|[|? ?]|[|? ?]]; simpl in Hitems; simplify_eq;
      try done; by apply elem_of_nil in Hitem. }
  rewrite Htrue in Hcase. destruct Hcase as (item_list' & Hiter & Hdetails & _).
  rewrite Hitems in Hiter. simplify_eq.
  (* the key of the check, in both scripts *)
  pose proof (get_column_name_agree_on_kinds item kind Hkind Hmt) as Hagree.
  assert (is_Some (detail_of policy_id policy_name item)) as [row Hrow].
  { apply mapM_Some in Hdetails.
    destruct (list_elem_of_lookup_1 _ _ Hitem) as [i Hi].
    destruct (Forall2_lookup_l _ _ _ _ _ Hdetails Hi) as (row & _ & Hrow).
    by eexists. }
  destruct (detail_of_cells _ _ _ _ Hrow) as (Hrow_pid & Hrow_id & Hrow_key).
  rewrite Hagree in Hrow_key.
  pose proof (get_column_name_truthy _ _ Hrow_key) as Hkey_true.
  assert (∃ key, FetchDetails.Column_Name row = JStr key ∧ key ≠ "")
    as (key & Hkey & Hkey_ne).
  { unfold Sync.get_column_name in Hrow_key.
    destruct item as [| | | | |kvs]; try done. simpl in Hrow_key, Hmt.
    injection Hmt as Hmt. rewrite Hmt in Hrow_key.
    unfold keyed_kinds in Hkind.
    repeat (apply elem_of_cons in Hkind as [->|Hkind]);
      [..|by apply elem_of_nil in Hkind]; simpl in Hrow_key.
    - apply bind_Some in Hrow_key as (h & _ & Hrow_key). simplify_eq.
      by eexists.
    - apply bind_Some in Hrow_key as (h & _ & Hrow_key). simplify_eq.
      by eexists.
    - apply bind_Some in Hrow_key as (udf & _ & Hrow_key). simplify_eq.
      by eexists.
    - simplify_eq. by eexists. }
  rewrite Hkey in Hrow_key.
  exists key.
  (* the ledger entry is the last row of the policy with this key *)
  pose proof (sync_read_rows_lookup (FetchDetails.write_results rows)
                (FetchDetails.csv_cell policy_id) key) as Hlookup.
  assert (records (FetchDetails.csv_cell policy_id) key (FetchDetails.write_row row)
          = true) as Hrecords.
  { unfold records. simpl. rewrite Hrow_pid, Hkey. simpl.
    rewrite !String.eqb_refl. simpl.
    rewrite Hid in Hrow_id. injection Hrow_id as <-.
    rewrite !(proj2 (nonempty_true _)); done. }
  assert (row ∈ rows) as Hin.
  { apply (mapM_elem_of _ _ _ row Hdetails). eauto. }
  destruct (last (List.filter (records (FetchDetails.csv_cell policy_id) key)
                    (FetchDetails.write_results rows))) as [written|] eqn:Hlast.
  2: { apply last_None in Hlast.
       assert (FetchDetails.write_row row ∈ List.filter
                 (records (FetchDetails.csv_cell policy_id) key)
                 (FetchDetails.write_results rows)) as Hfiltered.
       { apply list_elem_of_In, List.filter_In. split; [|done].
         apply list_elem_of_In. by apply list_elem_of_fmap_2. }
       rewrite Hlast in Hfiltered. by apply elem_of_nil in Hfiltered. }
  apply last_Some_elem_of, list_elem_of_In, List.filter_In in Hlast
    as [Hwritten Hrecorded].
  apply list_elem_of_In, list_elem_of_fmap in Hwritten as (row' & -> & Hrow').
  apply (mapM_elem_of _ _ _ row' Hdetails) in Hrow' as (item' & Hitem' & Hdetail').
  destruct (detail_of_cells _ _ _ _ Hdetail') as (_ & Hid' & Hkey').
  exists item', (FetchDetails.Rule_ID row'). split_and!; try done.
  - rewrite Hkey'. simpl. f_equal.
    unfold records in Hrecorded. simpl in Hrecorded.
    apply andb_true_iff in Hrecorded as [Hrecorded _].
    apply andb_true_iff in Hrecorded as [Hrecorded _].
    apply andb_true_iff in Hrecorded as [Hrecorded _].
    apply andb_true_iff in Hrecorded as [_ Hrecorded].
    by apply String.eqb_eq in Hrecorded.
  - unfold harvested_ledger, sync_original_id, Sync.read_existing_csv.
    destruct (fold_left Sync.read_row _ _) as [ids labels]. simpl in *.
    by rewrite Hlookup.
Qed.

Lemma harvested_checks_are_found_again_witness :
  ∃ rows rule_id,
    response_rows orders_policy = Some rows
    ∧ sync_original_id (harvested_ledger rows) "9" (HStr "SIZE_CHECK")
      = Some (JStr rule_id).
Proof.
  destruct (response_rows orders_policy) as [rows|] eqn:Hrows;
    [|vm_compute in Hrows; discriminate].
  destruct (harvested_checks_are_found_again orders_policy rows
              _ (JObj [("id", JNum 72); ("measurementType", JStr "SIZE_CHECK")])
              (JNum 9) (JNum 72) "SIZE_CHECK" Hrows eq_refl)
    as (key & item' & rule_id' & Hkey & _ & _ & _ & Hledger).
  - right. left.
  - reflexivity.
  - vm_compute. discriminate.
  - unfold keyed_kinds. set_solver.
  - reflexivity.
  - reflexivity.
  - vm_compute. discriminate.
  - exists rows, (FetchDetails.csv_cell rule_id'). split; [done|].
    vm_compute in Hkey. injection Hkey as <-. exact Hledger.
Defined.

(** ** The comparison returns on well-formed snapshots *)





